(** * Gestor: the state engine of [index.tsx], embedded and verified

    The development follows the class [GestorApp] of [index.tsx]: the entity
    interfaces, the store ([setState], [saveState]), the snapshot handlers,
    the backup import and export, the transaction form and the totals.

    - A JavaScript [number] is an IEEE 754 binary64 value: Rocq's primitive
      [float], with [+] as [PrimFloat.add], unary minus as [PrimFloat.opp] and
      [===] as [PrimFloat.eqb].
    - A JSON text is represented by the value [JSON.parse] reads from it.
    - Objects have identity: [this.state] and [snapshot.data] are references
      into a heap. Most handlers build new objects and write into none: for
      them an object is taken with its value. Where the program copies a
      state, for the snapshots, the heap is taken object by object (module
      [Graph]), so that sharing and updaters that write into the objects
      they are given can be expressed.
    - The DOM is reduced to what the handlers read from it (field values,
      passed as arguments) and to the one modal dialog they show. *)

From Stdlib Require Import List String Ascii Bool ZArith Lia.
From Stdlib Require Import Uint63 FloatClass PrimFloat SpecFloat FloatOps FloatAxioms.
From Stdlib Require Import Decimal DecimalString DecimalPos DecimalZ.
From Stdlib Require Import Permutation Sorted.
Import ListNotations.

Set Warnings "-register-all".

Local Open Scope string_scope.
Local Open Scope list_scope.

(** ** Numbers *)

Definition number := float.

(** [Number.isFinite]: neither NaN nor an infinity. *)
Definition isFinite (x : number) : bool :=
  match classify x with
  | NaN | PInf | NInf => false
  | _ => true
  end.

(** A zero of either sign. *)
Definition isZero (x : number) : bool :=
  match classify x with
  | PZero | NZero => true
  | _ => false
  end.

(** The number a safe integer such as [Date.now()] denotes. *)
Definition number_of_Z (z : Z) : number :=
  match z with
  | Zneg p => PrimFloat.opp (PrimFloat.of_uint63 (Uint63.of_Z (Zpos p)))
  | _ => PrimFloat.of_uint63 (Uint63.of_Z z)
  end.

(** ** Strings *)

(** The double quote, for the messages that quote a name. *)
Definition dquote : string := String (ascii_of_nat 34) EmptyString.

(** A template literal [`${n}`] of an integer: its decimal digits. *)
Definition string_of_Z (z : Z) : string := NilZero.string_of_int (Z.to_int z).

(** An instance of [String.prototype.trim], for texts within ASCII: the
    white space it removes there is the space and the controls 9 to 13. *)
Definition isWhiteSpace (c : ascii) : bool :=
  let n := nat_of_ascii c in
  (Nat.eqb n 32 || (Nat.leb 9 n && Nat.leb n 13))%bool.

Fixpoint trimStart (s : string) : string :=
  match s with
  | String c r => if isWhiteSpace c then trimStart r else s
  | EmptyString => EmptyString
  end.

Fixpoint trimEnd (s : string) : string :=
  match s with
  | String c r =>
      match trimEnd r with
      | EmptyString => if isWhiteSpace c then EmptyString else String c EmptyString
      | r' => String c r'
      end
  | EmptyString => EmptyString
  end.

Definition trimASCII (s : string) : string := trimEnd (trimStart s).

(** [s.startsWith(p)]. *)
Definition startsWith (s p : string) : bool := String.prefix p s.

(** Truthiness of a string: only the empty string is falsy. *)
Definition truthy (s : string) : bool :=
  match s with EmptyString => false | _ => true end.

(** ** JSON values *)

Inductive json : Type :=
| JNull
| JBool (b : bool)
| JNumber (x : number)
| JString (s : string)
| JArray (items : list json)
| JObject (props : list (string * json)).

(** A JSON text, as [JSON.parse] sees it: [None] is a text it rejects with a
    [SyntaxError], [Some j] a text that denotes [j]. *)
Definition text := option json.

Definition JSON_parse (t : text) : option json := t.

(** The property [k] of an object; the last binding wins, as in
    [JSON.parse]. *)
Fixpoint get (k : string) (props : list (string * json)) : option json :=
  match props with
  | [] => None
  | (k', v) :: rest =>
      match get k rest with
      | Some v' => Some v'
      | None => if k' =? k then Some v else None
      end
  end.

Definition field (k : string) (j : json) : option json :=
  match j with
  | JObject props => get k props
  | _ => None
  end.

(** [k in v] for a value read by [JSON.parse] and a key [k] that no prototype
    defines (the three keys tested below are such): an object has it when it
    is one of its own keys, an array when it is ["length"] or one of its
    indices, and on anything else the operator throws a [TypeError], here
    [None]. *)
Definition has_key (k : string) (v : json) : option bool :=
  match v with
  | JObject props => Some (existsb (fun p => fst p =? k) props)
  | JArray items =>
      Some ((k =? "length")
            || existsb (fun i => string_of_Z (Z.of_nat i) =? k)
                       (seq 0 (List.length items)))%bool
  | _ => None
  end.

(** What [JSON.stringify] writes for a number: [null] for NaN and the
    infinities, [0] for a zero of either sign, and otherwise a decimal that
    reads back as the same number. *)
Definition JSON_number (x : number) : json :=
  match classify x with
  | NaN | PInf | NInf => JNull
  | PZero | NZero => JNumber PrimFloat.zero
  | _ => JNumber x
  end.

(** Reading an array element by element; [None] when an element is not of
    the expected shape. *)
Fixpoint traverse {A B : Type} (f : A -> option B) (l : list A) : option (list B) :=
  match l with
  | [] => Some []
  | a :: r =>
      match f a, traverse f r with
      | Some b, Some bs => Some (b :: bs)
      | _, _ => None
      end
  end.

Definition as_array {B : Type} (f : json -> option B) (j : json) : option (list B) :=
  match j with
  | JArray items => traverse f items
  | _ => None
  end.

(** ** The entity model (the interfaces of [index.tsx]) *)

Module TransactionType.
Inductive t : Type := receita | despesa.

Definition eqb (a b : t) : bool :=
  match a, b with
  | receita, receita | despesa, despesa => true
  | _, _ => false
  end.

Definition toString (a : t) : string :=
  match a with receita => "receita" | despesa => "despesa" end.

Definition ofString (s : string) : option t :=
  if s =? "receita" then Some receita
  else if s =? "despesa" then Some despesa
  else None.
End TransactionType.

Module Transaction.
Record t : Type := mk {
  id : string;
  description : string;
  amount : number;
  date : string;
  type : TransactionType.t
}.

Definition toJSON (tx : t) : json :=
  JObject [("id", JString (id tx));
           ("description", JString (description tx));
           ("amount", JSON_number (amount tx));
           ("date", JString (date tx));
           ("type", JString (TransactionType.toString (type tx)))].

(** The value [j], read as a [Transaction]. *)
Definition ofJSON (j : json) : option t :=
  match field "id" j, field "description" j, field "amount" j,
        field "date" j, field "type" j with
  | Some (JString i), Some (JString d), Some (JNumber a),
    Some (JString dt), Some (JString ty) =>
      option_map (mk i d a dt) (TransactionType.ofString ty)
  | _, _, _, _, _ => None
  end.
End Transaction.

Module Client.
Record t : Type := mk {
  id : string;
  name : string;
  company : string;
  email : string;
  phone : string
}.

Definition toJSON (c : t) : json :=
  JObject [("id", JString (id c));
           ("name", JString (name c));
           ("company", JString (company c));
           ("email", JString (email c));
           ("phone", JString (phone c))].

Definition ofJSON (j : json) : option t :=
  match field "id" j, field "name" j, field "company" j,
        field "email" j, field "phone" j with
  | Some (JString i), Some (JString n), Some (JString c),
    Some (JString e), Some (JString p) => Some (mk i n c e p)
  | _, _, _, _, _ => None
  end.
End Client.

Module OpportunityStage.
Inductive t : Type := Lead | Proposta | Negociacao | Ganho | Perdido.

Definition toString (s : t) : string :=
  match s with
  | Lead => "Lead"
  | Proposta => "Proposta"
  | Negociacao => "Negociação"
  | Ganho => "Ganho"
  | Perdido => "Perdido"
  end.

Definition ofString (s : string) : option t :=
  if s =? "Lead" then Some Lead
  else if s =? "Proposta" then Some Proposta
  else if s =? "Negociação" then Some Negociacao
  else if s =? "Ganho" then Some Ganho
  else if s =? "Perdido" then Some Perdido
  else None.
End OpportunityStage.

Module Opportunity.
Record t : Type := mk {
  id : string;
  title : string;
  value : number;
  clientId : string;
  stage : OpportunityStage.t
}.

Definition toJSON (o : t) : json :=
  JObject [("id", JString (id o));
           ("title", JString (title o));
           ("value", JSON_number (value o));
           ("clientId", JString (clientId o));
           ("stage", JString (OpportunityStage.toString (stage o)))].

Definition ofJSON (j : json) : option t :=
  match field "id" j, field "title" j, field "value" j,
        field "clientId" j, field "stage" j with
  | Some (JString i), Some (JString t0), Some (JNumber v),
    Some (JString c), Some (JString s) =>
      option_map (mk i t0 v c) (OpportunityStage.ofString s)
  | _, _, _, _, _ => None
  end.
End Opportunity.

Module AppState.
Record t : Type := mk {
  transactions : list Transaction.t;
  clients : list Client.t;
  opportunities : list Opportunity.t
}.

(** [JSON.stringify(state)], as the value its text denotes. *)
Definition toJSON (s : t) : json :=
  JObject [("transactions", JArray (map Transaction.toJSON (transactions s)));
           ("clients", JArray (map Client.toJSON (clients s)));
           ("opportunities", JArray (map Opportunity.toJSON (opportunities s)))].

(** A value read by [JSON.parse] and used as an [AppState]. The program
    assigns it unchecked; the typed model follows it only when the value has
    the shape of the interface, and [None] is a value that has not. *)
Definition ofJSON (j : json) : option t :=
  match field "transactions" j, field "clients" j, field "opportunities" j with
  | Some ts, Some cs, Some os =>
      match as_array Transaction.ofJSON ts, as_array Client.ofJSON cs,
            as_array Opportunity.ofJSON os with
      | Some ts', Some cs', Some os' => Some (mk ts' cs' os')
      | _, _, _ => None
      end
  | _, _, _ => None
  end.
End AppState.

Definition JSON_stringify (j : json) : text := Some j.

(** [JSON.parse(JSON.stringify(state))], the program's deep copy. *)
Definition deepCopy (s : AppState.t) : option AppState.t :=
  match JSON_parse (JSON_stringify (AppState.toJSON s)) with
  | Some j => AppState.ofJSON j
  | None => None
  end.

(** ** Objects and references

    An [AppState] object lives in a heap and is known by its reference. An
    object literal and [JSON.parse] allocate; nothing is ever freed. Here the
    arrays and records of a state are kept in its object as values: the
    handlers of this part never write into them (they build new arrays with
    [filter], [map] and spread). The module [Graph] below takes the arrays
    and the records as objects of their own, for the snapshots. *)

Definition ref := nat.
Definition Heap := list AppState.t.

Definition getInitialState : AppState.t := AppState.mk [] [] [].

(** The object behind a reference. The program holds no reference that was
    not allocated; outside the heap the model reads the empty state. *)
Definition deref (h : Heap) (r : ref) : AppState.t := nth r h getInitialState.

Definition alloc (s : AppState.t) (h : Heap) : Heap * ref :=
  (h ++ [s], List.length h).

(** An updater passed to [setState]: a function from the previous state
    object to the next one, run on the heap. *)
Definition Updater := Heap -> ref -> Heap * ref.

(** The updaters the program itself writes, [prev => ({...prev, ...})]: a
    new object computed from the previous one, which is left as it is. *)
Definition arrow (f : AppState.t -> AppState.t) : Updater :=
  fun h prev => alloc (f (deref h prev)) h.

Module Snapshot.
Record t : Type := mk {
  id : string;
  name : string;
  timestamp : Z;
  data : ref
}.

Definition toJSON (h : Heap) (s : t) : json :=
  JObject [("id", JString (id s));
           ("name", JString (name s));
           ("timestamp", JSON_number (number_of_Z (timestamp s)));
           ("data", AppState.toJSON (deref h (data s)))].
End Snapshot.

(** ** [localStorage]

    [setItem] may throw (the quota, a disabled storage); whether it does is
    the platform's decision, the field [accepts]. *)

Module Storage.
Record t : Type := mk {
  items : list (string * json);
  accepts : list (string * json) -> string -> json -> bool
}.

Definition getItem (k : string) (st : t) : option json :=
  option_map snd (find (fun p => fst p =? k) (items st)).

(** [None] is the exception. *)
Definition setItem (k : string) (v : json) (st : t) : option t :=
  if accepts st (items st) k v
  then Some (mk ((k, v) :: filter (fun p => negb (fst p =? k)) (items st))
                (accepts st))
  else None.
End Storage.

(** ** The application object *)

(** The callbacks handed to [showConfirmationModal], one constructor for
    each closure of the source with what it captures. *)
Inductive Callback : Type :=
| DeleteTransaction (id : string)
| DeleteOpportunity (id : string)
| DeleteClient (id : string)
| RestoreSnapshot (snapshot : Snapshot.t)
| DeleteSnapshot (id : string)
| LoadBackup (newState : json).

(** The modal dialog on screen. *)
Inductive Modal : Type :=
| Hidden
| AlertModal (message title : string)
| ConfirmationModal (message title : string) (onConfirm : Callback)
| WipeModal (input : string) (confirmDisabled : bool).

Record GestorApp : Type := mkApp {
  heap : Heap;
  state : ref;
  snapshots : list Snapshot.t;
  activeScreen : string;
  editingTransactionId : option string;
  modal : Modal;
  localStorage : Storage.t
}.

(** [this.state], the object. *)
Definition current (app : GestorApp) : AppState.t := deref (heap app) (state app).

Definition set_state (h : Heap) (r : ref) (app : GestorApp) : GestorApp :=
  mkApp h r (snapshots app) (activeScreen app) (editingTransactionId app)
        (modal app) (localStorage app).

Definition set_snapshots (l : list Snapshot.t) (app : GestorApp) : GestorApp :=
  mkApp (heap app) (state app) l (activeScreen app) (editingTransactionId app)
        (modal app) (localStorage app).

Definition set_activeScreen (s : string) (app : GestorApp) : GestorApp :=
  mkApp (heap app) (state app) (snapshots app) s (editingTransactionId app)
        (modal app) (localStorage app).

Definition set_editingTransactionId (e : option string) (app : GestorApp) : GestorApp :=
  mkApp (heap app) (state app) (snapshots app) (activeScreen app) e
        (modal app) (localStorage app).

Definition set_modal (m : Modal) (app : GestorApp) : GestorApp :=
  mkApp (heap app) (state app) (snapshots app) (activeScreen app)
        (editingTransactionId app) m (localStorage app).

Definition set_localStorage (st : Storage.t) (app : GestorApp) : GestorApp :=
  mkApp (heap app) (state app) (snapshots app) (activeScreen app)
        (editingTransactionId app) (modal app) st.

(** *** Navigation and modals *)

(** [navigateTo]: the screen becomes the active one and is rendered from the
    state. Rendering writes the page only, and is taken to run to its end:
    what a handler does after a render that throws is not followed. *)
Definition navigateTo (screen : string) (app : GestorApp) : GestorApp :=
  set_activeScreen screen app.

(** [renderHistorico] writes the page only. *)
Definition renderHistorico (app : GestorApp) : GestorApp := app.

Definition hideModal (app : GestorApp) : GestorApp := set_modal Hidden app.

Definition showAlertModal (message title : string) (app : GestorApp) : GestorApp :=
  set_modal (AlertModal message title) app.

Definition showConfirmationModal (message : string) (onConfirm : Callback)
    (title : string) (app : GestorApp) : GestorApp :=
  set_modal (ConfirmationModal message title onConfirm) app.

(** *** State and storage *)

Definition saveState (app : GestorApp) : GestorApp :=
  match Storage.setItem "gestor_app_state" (AppState.toJSON (current app))
                        (localStorage app) with
  | Some st => set_localStorage st app
  | None => app
  end.

Definition saveSnapshots (app : GestorApp) : GestorApp :=
  match Storage.setItem "gestor_app_snapshots"
                        (JArray (map (Snapshot.toJSON (heap app)) (snapshots app)))
                        (localStorage app) with
  | Some st => set_localStorage st app
  | None => app
  end.

Definition setState (updater : Updater) (app : GestorApp) : GestorApp :=
  let (h, next) := updater (heap app) (state app) in
  navigateTo (activeScreen app) (saveState (set_state h next app)).

(** *** Handlers *)

(** [escapeHtml]: the five replacements, none of which produces a character
    a later one replaces, so they act character by character. *)
Fixpoint escapeHtml (unsafe : string) : string :=
  match unsafe with
  | EmptyString => EmptyString
  | String c rest =>
      let n := nat_of_ascii c in
      (if Nat.eqb n 38 then "&amp;"
       else if Nat.eqb n 60 then "&lt;"
       else if Nat.eqb n 62 then "&gt;"
       else if Nat.eqb n 34 then "&quot;"
       else if Nat.eqb n 39 then "&#039;"
       else String c EmptyString) ++ escapeHtml rest
  end.

(** The object literals [{...prev, field: value}]. *)
Definition with_transactions (l : list Transaction.t) (prev : AppState.t) : AppState.t :=
  AppState.mk l (AppState.clients prev) (AppState.opportunities prev).

Definition with_clients (l : list Client.t) (prev : AppState.t) : AppState.t :=
  AppState.mk (AppState.transactions prev) l (AppState.opportunities prev).

Definition with_opportunities (l : list Opportunity.t) (prev : AppState.t) : AppState.t :=
  AppState.mk (AppState.transactions prev) (AppState.clients prev) l.

(** What a confirmation callback does when it runs. [None]: a value that is
    not an [AppState] became the state, and the typed model stops. *)
Definition onConfirm (cb : Callback) (app : GestorApp) : option GestorApp :=
  match cb with
  | DeleteTransaction id =>
      Some (setState (arrow (fun prev =>
        with_transactions
          (filter (fun t => negb (Transaction.id t =? id)) (AppState.transactions prev))
          prev)) app)
  | DeleteOpportunity id =>
      Some (setState (arrow (fun prev =>
        with_opportunities
          (filter (fun o => negb (Opportunity.id o =? id)) (AppState.opportunities prev))
          prev)) app)
  | DeleteClient id =>
      Some (setState (arrow (fun prev =>
        with_clients
          (filter (fun c => negb (Client.id c =? id)) (AppState.clients prev))
          prev)) app)
  | RestoreSnapshot snapshot =>
      match deepCopy (deref (heap app) (Snapshot.data snapshot)) with
      | Some copy =>
          let (h, r) := alloc copy (heap app) in
          Some (navigateTo "painel"
                 (showAlertModal "Dados restaurados com sucesso!" "Sucesso"
                   (saveState (set_state h r app))))
      | None => None
      end
  | DeleteSnapshot id =>
      Some (renderHistorico
             (showAlertModal "Snapshot excluído." "Sucesso"
               (saveSnapshots
                 (set_snapshots
                    (filter (fun s => negb (Snapshot.id s =? id)) (snapshots app))
                    app))))
  | LoadBackup newState =>
      match AppState.ofJSON newState with
      | Some s =>
          let (h, r) := alloc s (heap app) in
          Some (navigateTo "painel"
                 (showAlertModal "Backup carregado com sucesso!" "Sucesso"
                   (saveState (set_state h r app))))
      | None => None
      end
  end.

(** A click on the modal's Confirmar button: [hideModal(); onConfirm()]. *)
Definition clickConfirm (app : GestorApp) : option GestorApp :=
  match modal app with
  | ConfirmationModal _ _ cb => onConfirm cb (hideModal app)
  | _ => Some app
  end.

(** A click on Cancelar, or on the OK of an alert. *)
Definition clickCancel (app : GestorApp) : GestorApp :=
  match modal app with
  | ConfirmationModal _ _ _ | AlertModal _ _ => hideModal app
  | _ => app
  end.

Definition handleDeleteTransaction (id : string) (app : GestorApp) : GestorApp :=
  showConfirmationModal "Tem certeza que deseja excluir esta transação?"
                        (DeleteTransaction id) "Confirmar Ação" app.

Definition handleDeleteOpportunity (id : string) (app : GestorApp) : GestorApp :=
  showConfirmationModal "Tem certeza que deseja excluir esta oportunidade?"
                        (DeleteOpportunity id) "Confirmar Ação" app.

Definition handleDeleteClient (id : string) (app : GestorApp) : GestorApp :=
  let clientOpportunities :=
    filter (fun op => Opportunity.clientId op =? id)
           (AppState.opportunities (current app)) in
  if Nat.ltb 0 (List.length clientOpportunities)
  then showAlertModal
         "Não é possível excluir um cliente que possui oportunidades associadas."
         "Aviso" app
  else showConfirmationModal "Tem certeza que deseja excluir este cliente?"
                             (DeleteClient id) "Confirmar Ação" app.

(** The id of a snapshot, [`snap_${Date.now()}`]. *)
Definition snapshotId (now : Z) : string := "snap_" ++ string_of_Z now.

Definition handleRestoreSnapshot (id : string) (app : GestorApp) : GestorApp :=
  match find (fun s => Snapshot.id s =? id) (snapshots app) with
  | None => app
  | Some snapshot =>
      showConfirmationModal
        ("Tem certeza que deseja restaurar o snapshot " ++ dquote
           ++ escapeHtml (Snapshot.name snapshot) ++ dquote
           ++ "? Todos os dados atuais não salvos em outro snapshot serão perdidos.")
        (RestoreSnapshot snapshot) "Confirmar Restauração" app
  end.

Definition handleDeleteSnapshot (id : string) (app : GestorApp) : GestorApp :=
  match find (fun s => Snapshot.id s =? id) (snapshots app) with
  | None => app
  | Some snapshot =>
      showConfirmationModal
        ("Tem certeza que deseja excluir permanentemente o snapshot " ++ dquote
           ++ escapeHtml (Snapshot.name snapshot) ++ dquote ++ "?")
        (DeleteSnapshot id) "Confirmar Ação" app
  end.

(** *** Wiping all data *)

Definition showWipeDataConfirmation (app : GestorApp) : GestorApp :=
  set_modal (WipeModal "" true) app.

(** Typing into the confirmation field. *)
Definition wipeInput (value : string) (app : GestorApp) : GestorApp :=
  match modal app with
  | WipeModal _ _ => set_modal (WipeModal value (negb (value =? "ZERAR"))) app
  | _ => app
  end.

(** A click on the confirmation button; a disabled button takes no click. *)
Definition wipeClick (app : GestorApp) : GestorApp :=
  match modal app with
  | WipeModal _ false =>
      let (h, r) := alloc getInitialState (heap app) in
      let app1 := saveState (set_state h r app) in
      let app2 := saveSnapshots (set_snapshots [] app1) in
      navigateTo "painel"
        (showAlertModal "Todos os dados foram apagados." "Operação Concluída"
          (hideModal app2))
  | _ => app
  end.

(** *** Backup *)

(** [saveBackup]: the text of the file offered for download. *)
Definition saveBackup (app : GestorApp) : text :=
  JSON_stringify (AppState.toJSON (current app)).

(** [loadBackup] with the text of the chosen file, if one was chosen; the
    body of [reader.onload] runs when the text is there. *)
Definition loadBackup (file : option text) (app : GestorApp) : GestorApp :=
  match file with
  | None => app
  | Some result =>
      match JSON_parse result with
      | None => showAlertModal "Erro ao ler o arquivo de backup." "Erro" app
      | Some newState =>
          match has_key "transactions" newState with
          | None => showAlertModal "Erro ao ler o arquivo de backup." "Erro" app
          | Some false => showAlertModal "Arquivo de backup inválido." "Erro" app
          | Some true =>
              match has_key "clients" newState with
              | None => showAlertModal "Erro ao ler o arquivo de backup." "Erro" app
              | Some false => showAlertModal "Arquivo de backup inválido." "Erro" app
              | Some true =>
                  match has_key "opportunities" newState with
                  | None =>
                      showAlertModal "Erro ao ler o arquivo de backup." "Erro" app
                  | Some false =>
                      showAlertModal "Arquivo de backup inválido." "Erro" app
                  | Some true =>
                      showConfirmationModal
                        "Tem certeza que deseja carregar este backup? Todos os dados atuais serão substituídos."
                        (LoadBackup newState) "Confirmar Ação" app
                  end
              end
          end
      end
  end.

(** *** The transaction form *)

Section TransactionForm.

(** The platform's [parseFloat]. *)
Variable parseFloat : string -> number.

(** [handleTransactionFormSubmit] with the values of the four fields and
    the reading of [Date.now()]. *)
Definition handleTransactionFormSubmit (description amountStr : string)
    (type : TransactionType.t) (date : string) (now : Z)
    (app : GestorApp) : GestorApp :=
  if (negb (truthy description) || negb (truthy amountStr) || negb (truthy date))%bool
  then showAlertModal "Por favor, preencha todos os campos." "Aviso" app
  else
    let amount := parseFloat amountStr in
    let signedAmount :=
      if TransactionType.eqb type TransactionType.receita
      then amount else (- amount)%float in
    let add :=
      let newTransaction :=
        Transaction.mk ("tx_" ++ string_of_Z now) description signedAmount date type in
      setState (arrow (fun prev =>
        with_transactions (AppState.transactions prev ++ [newTransaction]) prev)) app in
    match editingTransactionId app with
    | Some editing =>
        if truthy editing
        then
          set_editingTransactionId None
            (setState (arrow (fun prev =>
               with_transactions
                 (map (fun tx =>
                         if Transaction.id tx =? editing
                         then Transaction.mk (Transaction.id tx) description
                                             signedAmount date type
                         else tx)
                      (AppState.transactions prev))
                 prev)) app)
        else add
    | None => add
    end.

End TransactionForm.

(** *** Totals *)

Record Totals : Type := mkTotals {
  totalBalance : number;
  totalRevenue : number;
  totalExpenses : number;
  monthBalance : number;
  monthRevenue : number;
  monthExpenses : number
}.

(** [l.reduce((acc, t) => acc + t.amount, 0)]. *)
Definition reduce_amount (l : list Transaction.t) : number :=
  fold_left (fun acc t => (acc + Transaction.amount t)%float) l PrimFloat.zero.

Definition is_type (ty : TransactionType.t) (t : Transaction.t) : bool :=
  TransactionType.eqb (Transaction.type t) ty.

(** [calculateTotals(month?)]; [None] is a call without the argument. *)
Definition calculateTotals (month : option string) (app : GestorApp) : Totals :=
  let all := AppState.transactions (current app) in
  let transactionsToConsider :=
    match month with
    | Some m =>
        if truthy m
        then filter (fun t => startsWith (Transaction.date t) m) all
        else all
    | None => all
    end in
  let totalBalance := reduce_amount all in
  let totalRevenue := reduce_amount (filter (is_type TransactionType.receita) all) in
  let totalExpenses := reduce_amount (filter (is_type TransactionType.despesa) all) in
  let monthBalance := reduce_amount transactionsToConsider in
  let monthRevenue :=
    reduce_amount (filter (is_type TransactionType.receita) transactionsToConsider) in
  let monthExpenses :=
    reduce_amount (filter (is_type TransactionType.despesa) transactionsToConsider) in
  mkTotals totalBalance totalRevenue totalExpenses
           monthBalance monthRevenue monthExpenses.


(** * The properties, in the terms of the model *)

(** ** Structural equality and valid states *)

(** [x === y] on numbers. *)
Definition strictEquals (x y : number) : bool := (x =? y)%float.

Fixpoint forall2b {A : Type} (p : A -> A -> bool) (l1 l2 : list A) : bool :=
  match l1, l2 with
  | [], [] => true
  | a :: r1, b :: r2 => p a b && forall2b p r1 r2
  | _, _ => false
  end.

Definition equalTransaction (a b : Transaction.t) : bool :=
  (Transaction.id a =? Transaction.id b)
  && (Transaction.description a =? Transaction.description b)
  && strictEquals (Transaction.amount a) (Transaction.amount b)
  && (Transaction.date a =? Transaction.date b)
  && TransactionType.eqb (Transaction.type a) (Transaction.type b).

Definition equalClient (a b : Client.t) : bool :=
  (Client.id a =? Client.id b)
  && (Client.name a =? Client.name b)
  && (Client.company a =? Client.company b)
  && (Client.email a =? Client.email b)
  && (Client.phone a =? Client.phone b).

Definition equalStage (a b : OpportunityStage.t) : bool :=
  OpportunityStage.toString a =? OpportunityStage.toString b.

Definition equalOpportunity (a b : Opportunity.t) : bool :=
  (Opportunity.id a =? Opportunity.id b)
  && (Opportunity.title a =? Opportunity.title b)
  && strictEquals (Opportunity.value a) (Opportunity.value b)
  && (Opportunity.clientId a =? Opportunity.clientId b)
  && equalStage (Opportunity.stage a) (Opportunity.stage b).

(** Two states are structurally equal when they hold the same records in the
    same order, field by field, strings and numbers compared with [===]. *)
Definition structurallyEqual (a b : AppState.t) : bool :=
  forall2b equalTransaction (AppState.transactions a) (AppState.transactions b)
  && forall2b equalClient (AppState.clients a) (AppState.clients b)
  && forall2b equalOpportunity (AppState.opportunities a) (AppState.opportunities b).

(** Every amount and every value of the state is a finite number (JSON has
    no notation for NaN and the infinities). *)
Definition finiteNumbers (s : AppState.t) : bool :=
  forallb (fun t => isFinite (Transaction.amount t)) (AppState.transactions s)
  && forallb (fun o => isFinite (Opportunity.value o)) (AppState.opportunities s).

(** The number read back from what [JSON.stringify] writes for a finite
    number: the number itself, and [0] for [-0]. *)
Definition canonicalNumber (x : number) : number :=
  if isZero x then PrimFloat.zero else x.

Definition canonicalTransaction (t : Transaction.t) : Transaction.t :=
  Transaction.mk (Transaction.id t) (Transaction.description t)
                 (canonicalNumber (Transaction.amount t))
                 (Transaction.date t) (Transaction.type t).

Definition canonicalOpportunity (o : Opportunity.t) : Opportunity.t :=
  Opportunity.mk (Opportunity.id o) (Opportunity.title o)
                 (canonicalNumber (Opportunity.value o))
                 (Opportunity.clientId o) (Opportunity.stage o).

Definition canonicalState (s : AppState.t) : AppState.t :=
  AppState.mk (map canonicalTransaction (AppState.transactions s))
              (AppState.clients s)
              (map canonicalOpportunity (AppState.opportunities s)).

(** ** Updaters *)

(** The live state is an allocated object. *)
Definition allocated (app : GestorApp) : Prop :=
  state app < List.length (heap app).

(** [u] computes [f] of the previous state as a new state and mutates
    nothing in place: every object there was is left as it was. *)
Definition pureUpdater (u : Updater) (f : AppState.t -> AppState.t) : Prop :=
  forall (h : Heap) (prev : ref),
    prev < List.length h ->
    exists (h' : Heap) (next : ref),
      u h prev = (h', next)
      /\ next < List.length h'
      /\ List.length h <= List.length h'
      /\ (forall r, r < List.length h -> deref h' r = deref h r)
      /\ deref h' next = f (deref h prev).

(** A sequence of [setState] calls. *)
Definition applyAll (updaters : list Updater) (app : GestorApp) : GestorApp :=
  fold_left (fun a u => setState u a) updaters app.

(** ** Examples used below *)

Definition openStorage : Storage.t := Storage.mk [] (fun _ _ _ => true).

(** The application at its first run: the empty state, no snapshot. *)
Definition firstRun : GestorApp :=
  mkApp [getInitialState] 0 [] "painel" None Hidden openStorage.

Definition addClient (c : Client.t) (prev : AppState.t) : AppState.t :=
  with_clients (AppState.clients prev ++ [c]) prev.

Definition ana : Client.t := Client.mk "cl_1" "Ana" "Acme" "ana@acme.test" "555".
Definition bia : Client.t := Client.mk "cl_2" "Bia" "Bolt" "bia@bolt.test" "556".

(** The document [{"clients":[]}]. *)
Definition clientsOnly : json := JObject [("clients", JArray [])].

(** A state with records of each kind; one amount is [-0], as the form
    stores it for an expense of [0]. *)
Definition sampleState : AppState.t :=
  AppState.mk
    [Transaction.mk "tx_1" "Aluguel" (-50)%float "2024-05-10" TransactionType.despesa;
     Transaction.mk "tx_2" "Ajuste" PrimFloat.neg_zero "2024-05-11"
                    TransactionType.despesa]
    [ana]
    [Opportunity.mk "op_1" "Contrato" 1200%float "cl_1" OpportunityStage.Lead].

Definition sampleApp : GestorApp :=
  mkApp [sampleState] 0 [] "painel" None Hidden openStorage.

(** ** Errors and storage *)

(** An error is reported to the user by an alert. *)
Definition reportsError (app : GestorApp) : Prop :=
  exists message title, modal app = AlertModal message title.

(** A storage that accepts every write. *)
Definition writable (st : Storage.t) : Prop :=
  forall items k v, Storage.accepts st items k v = true.

(** What a [setItem] inside [try]/[catch] leaves of the storage: the value
    under the key when the write is accepted, the storage as it was when it
    is refused. *)
Definition written (k : string) (v : json) (st : Storage.t) : Storage.t :=
  match Storage.setItem k v st with
  | Some st' => st'
  | None => st
  end.

(** ** Totals, as the specification words them *)

Record Summary : Type := mkSummary {
  balance : number;
  revenue : number;
  expenses : number
}.

(** The scope of a period filter: the transactions whose date begins with
    the month key; without a filter, all of them. *)
Definition inScope (periodFilter : option string) (t : Transaction.t) : bool :=
  match periodFilter with
  | None => true
  | Some m => String.prefix m (Transaction.date t)
  end.

(** One pass over the transactions: every amount in scope goes to the
    balance, and to the revenue or to the expenses by the type. *)
Definition account (periodFilter : option string) (acc : Summary)
    (t : Transaction.t) : Summary :=
  if inScope periodFilter t
  then
    mkSummary
      (balance acc + Transaction.amount t)%float
      (match Transaction.type t with
       | TransactionType.receita => (revenue acc + Transaction.amount t)%float
       | TransactionType.despesa => revenue acc
       end)
      (match Transaction.type t with
       | TransactionType.receita => expenses acc
       | TransactionType.despesa => (expenses acc + Transaction.amount t)%float
       end)
  else acc.

Definition totals (s : AppState.t) (periodFilter : option string) : Summary :=
  fold_left (account periodFilter) (AppState.transactions s)
            (mkSummary PrimFloat.zero PrimFloat.zero PrimFloat.zero).

(** The state of the example: the one transaction [t1]. *)
Definition t1 : Transaction.t :=
  Transaction.mk "t1" "" (-50)%float "2024-05-10" TransactionType.despesa.

Definition exampleState : AppState.t := AppState.mk [t1] [] [].

(** ** The sign of an amount *)

(** The sign of the amount agrees with the type: a revenue is not negative,
    an expense is not positive. *)
Definition signAgrees (t : Transaction.t) : bool :=
  match Transaction.type t with
  | TransactionType.receita => (PrimFloat.zero <=? Transaction.amount t)%float
  | TransactionType.despesa => (Transaction.amount t <=? PrimFloat.zero)%float
  end.

(** A [parseFloat] on the one text that matters below: it reads [-5] as
    the platform's does and leaves the rest unread. *)
Definition parseFloat_minus5 (s : string) : number :=
  if s =? "-5" then (-5)%float else PrimFloat.nan.

(** An application whose state is the state of the example. *)
Definition exampleApp : GestorApp :=
  mkApp [exampleState] 0 [] "financas" None Hidden openStorage.

(** A state with a transaction whose amount is infinite, as [JSON.parse]
    reads it from an amount such as [1e999] in a backup file. *)
Definition infiniteState : AppState.t :=
  AppState.mk
    [Transaction.mk "tx_1" "Aluguel" PrimFloat.infinity "2024-05-10"
                    TransactionType.receita]
    [] [].

Definition infiniteApp : GestorApp :=
  mkApp [infiniteState] 0 [] "painel" None Hidden openStorage.

(** * More of the class

    The handlers and calculations of [GestorApp] besides those above: the
    start from the storage, the pipeline board, the other two forms, the
    list of snapshots and the reports. *)

(** ** Starting from the storage *)

(** [loadState], with what [localStorage.getItem] returned ([None] is
    [null]). An empty or unreadable text gives the initial state; a text that
    parses is returned as the state, unchecked ([None]: it is no
    [AppState]). *)
Definition loadState (savedState : option text) : option AppState.t :=
  match savedState with
  | None => Some getInitialState
  | Some t =>
      match JSON_parse t with
      | Some j => AppState.ofJSON j
      | None => Some getInitialState
      end
  end.

(** The text the storage holds under a key. *)
Definition getItemText (k : string) (st : Storage.t) : option text :=
  option_map JSON_stringify (Storage.getItem k st).

(** ** The pipeline board *)





(** The [drop] listener of [setupPipelineDnD], with the id of the dragged
    card and the stage of the column. *)
Definition dropOpportunity (opId : string) (targetStage : OpportunityStage.t)
    (app : GestorApp) : GestorApp :=
  setState (arrow (fun prev =>
    with_opportunities
      (map (fun op =>
              if Opportunity.id op =? opId
              then Opportunity.mk (Opportunity.id op) (Opportunity.title op)
                                  (Opportunity.value op) (Opportunity.clientId op)
                                  targetStage
              else op)
           (AppState.opportunities prev))
      prev)) app.

(** ** The opportunity and client forms *)

Section Forms.

Variable parseFloat : string -> number.

(** The [submit] listener of [showOpportunityForm(id)], with the values of
    the three fields and the reading of [Date.now()]. *)
Definition submitOpportunityForm (id : option string)
    (title valueStr clientId : string) (now : Z) (app : GestorApp) : GestorApp :=
  let value := parseFloat valueStr in
  let create :=
    let newOp :=
      Opportunity.mk ("op_" ++ string_of_Z now) title value clientId
                     OpportunityStage.Lead in
    setState (arrow (fun prev =>
      with_opportunities (AppState.opportunities prev ++ [newOp]) prev)) app in
  hideModal
    match id with
    | Some i =>
        if truthy i
        then
          setState (arrow (fun prev =>
            with_opportunities
              (map (fun o =>
                      if Opportunity.id o =? i
                      then Opportunity.mk (Opportunity.id o) title value clientId
                                          (Opportunity.stage o)
                      else o)
                   (AppState.opportunities prev))
              prev)) app
        else create
    | None => create
    end.

End Forms.

(** The [submit] listener of [showClientForm(id)]. *)
Definition submitClientForm (id : option string)
    (name company email phone : string) (now : Z) (app : GestorApp) : GestorApp :=
  let create :=
    let newClient := Client.mk ("cl_" ++ string_of_Z now) name company email phone in
    setState (arrow (fun prev =>
      with_clients (AppState.clients prev ++ [newClient]) prev)) app in
  hideModal
    match id with
    | Some i =>
        if truthy i
        then
          setState (arrow (fun prev =>
            with_clients
              (map (fun c =>
                      if Client.id c =? i
                      then Client.mk (Client.id c) name company email phone
                      else c)
                   (AppState.clients prev))
              prev)) app
        else create
    | None => create
    end.

(** ** The list of snapshots *)

(** [Array.prototype.sort] with a comparison function: the sort is stable,
    and [a] comes after [b] when [compareFn(a, b) > 0]. For a consistent
    comparison the result is the same whatever the algorithm; here, by
    insertion from the right. *)
Fixpoint insertSorted {A : Type} (compareFn : A -> A -> Z) (a : A) (l : list A)
    : list A :=
  match l with
  | [] => [a]
  | b :: rest =>
      if (0 <? compareFn a b)%Z then b :: insertSorted compareFn a rest
      else a :: l
  end.

Definition sort {A : Type} (compareFn : A -> A -> Z) (l : list A) : list A :=
  fold_right (insertSorted compareFn) [] l.

(** [[...this.snapshots].sort((a, b) => b.timestamp - a.timestamp)], the
    order in which [renderHistorico] lists the snapshots. *)
Definition sortedSnapshots (app : GestorApp) : list Snapshot.t :=
  sort (fun a b => (Snapshot.timestamp b - Snapshot.timestamp a)%Z) (snapshots app).

(** ** Reports *)




(** ** Further notions for the properties below *)

(** All four fields of the transaction form are filled (the type is a
    select and always has a value). *)
Definition formFilled (description amountStr date : string) : bool :=
  truthy description && truthy amountStr && truthy date.

(** No transaction is being edited. *)
Definition notEditing (app : GestorApp) : Prop :=
  match editingTransactionId app with
  | Some editing => truthy editing = false
  | None => True
  end.

(** The amount the form stores for a type and a parsed value. *)
Definition signedAmountOf (type : TransactionType.t) (amount : number) : number :=
  match type with
  | TransactionType.receita => amount
  | TransactionType.despesa => (- amount)%float
  end.

(** An application with a transaction under edit. *)
Definition editingApp : GestorApp :=
  mkApp [sampleState] 0 [] "financas" (Some "tx_1") Hidden openStorage.

(** A [parseFloat] for the examples: it reads the two texts used there. *)
Definition parseFloat_example (s : string) : number :=
  if s =? "75.5" then 75.5%float
  else if s =? "1200" then 1200%float
  else PrimFloat.nan.

(** A storage that refuses every write. *)
Definition fullStorage : Storage.t := Storage.mk [] (fun _ _ _ => false).

(** The characters with which markup or an attribute value could be opened
    or closed: [<], [>], the double quote and the single quote. *)
Definition opensMarkup (c : ascii) : bool :=
  let n := nat_of_ascii c in
  Nat.eqb n 60 || Nat.eqb n 62 || Nat.eqb n 34 || Nat.eqb n 39.

(** The five characters [escapeHtml] replaces. *)
Definition escaped (c : ascii) : bool :=
  Nat.eqb (nat_of_ascii c) 38 || opensMarkup c.

(** An application with two snapshots, the second taken after a change. *)
Definition withSnapshots : GestorApp :=
  mkApp [sampleState; sampleState; addClient bia sampleState; addClient bia sampleState]
        3
        [Snapshot.mk "snap_1700000000000" "Abril" 1700000000000 1;
         Snapshot.mk "snap_1700000500000" "Maio" 1700000500000 2]
        "historico" None Hidden openStorage.

(** The same application on a storage that holds what was saved before and
    takes no write any more. *)
Definition refusedApp : GestorApp :=
  set_localStorage
    (Storage.mk
       [("gestor_app_state", AppState.toJSON (current withSnapshots));
        ("gestor_app_snapshots",
         JArray (map (Snapshot.toJSON (heap withSnapshots)) (snapshots withSnapshots)))]
       (fun _ _ _ => false))
    withSnapshots.

(** Every opportunity names a client of the state. *)
Definition referentialIntegrity (s : AppState.t) : Prop :=
  forall op, In op (AppState.opportunities s) ->
    exists c, In c (AppState.clients s) /\ Client.id c = Opportunity.clientId op.

(** An opportunity after a move to [target] when its id is [opId]: all its
    fields but the stage are kept. *)
Definition movedTo (opId : string) (target : OpportunityStage.t)
    (before after : Opportunity.t) : Prop :=
  Opportunity.id after = Opportunity.id before
  /\ Opportunity.title after = Opportunity.title before
  /\ Opportunity.value after = Opportunity.value before
  /\ Opportunity.clientId after = Opportunity.clientId before
  /\ Opportunity.stage after
     = if Opportunity.id before =? opId then target else Opportunity.stage before.


(** The form being used to create: no id, or an empty one. *)
Definition creating (id : option string) : bool :=
  match id with
  | Some i => negb (truthy i)
  | None => true
  end.

(** An opportunity after an edit of the one with id [i]: the id and the
    stage are kept, the other fields are the entered ones. *)
Definition opportunityEdited (i title : string) (value : number) (clientId : string)
    (before after : Opportunity.t) : Prop :=
  if Opportunity.id before =? i
  then after = Opportunity.mk (Opportunity.id before) title value clientId
                              (Opportunity.stage before)
  else after = before.

(** A client after an edit of the one with id [i]: the id is kept. *)
Definition clientEdited (i name company email phone : string)
    (before after : Client.t) : Prop :=
  if Client.id before =? i
  then after = Client.mk (Client.id before) name company email phone
  else after = before.

(** The actions of a user on transactions, clients and opportunities, each
    carried through to its end (a deletion is confirmed). *)
Inductive Action : Type :=
| SubmitTransaction (description amountStr : string) (type : TransactionType.t)
                    (date : string) (now : Z)
| ConfirmDeleteTransaction (id : string)
| ConfirmDeleteOpportunity (id : string)
| ConfirmDeleteClient (id : string)
| DropCard (opId : string) (targetStage : OpportunityStage.t)
| SubmitOpportunity (id : option string) (title valueStr clientId : string) (now : Z)
| SubmitClient (id : option string) (name company email phone : string) (now : Z)
| WipeAll.

Section Session.

Variable parseFloat : string -> number.

Definition perform (a : Action) (app : GestorApp) : option GestorApp :=
  match a with
  | SubmitTransaction description amountStr type date now =>
      Some (handleTransactionFormSubmit parseFloat description amountStr type date
                                        now app)
  | ConfirmDeleteTransaction id => clickConfirm (handleDeleteTransaction id app)
  | ConfirmDeleteOpportunity id => clickConfirm (handleDeleteOpportunity id app)
  | ConfirmDeleteClient id => clickConfirm (handleDeleteClient id app)
  | DropCard opId targetStage => Some (dropOpportunity opId targetStage app)
  | SubmitOpportunity id title valueStr clientId now =>
      Some (submitOpportunityForm parseFloat id title valueStr clientId now app)
  | SubmitClient id name company email phone now =>
      Some (submitClientForm id name company email phone now app)
  | WipeAll => Some (wipeClick (wipeInput "ZERAR" (showWipeDataConfirmation app)))
  end.

Fixpoint run (actions : list Action) (app : GestorApp) : option GestorApp :=
  match actions with
  | [] => Some app
  | a :: rest =>
      match perform a app with
      | Some app' => run rest app'
      | None => None
      end
  end.

(** What the forms offer: the client select of the opportunity form lists
    the clients of the state, so the submitted client id is one of theirs. *)
Definition offered (a : Action) (app : GestorApp) : Prop :=
  match a with
  | SubmitOpportunity _ _ _ clientId _ =>
      exists c, In c (AppState.clients (current app)) /\ Client.id c = clientId
  | _ => True
  end.

Fixpoint permitted (actions : list Action) (app : GestorApp) : Prop :=
  match actions with
  | [] => True
  | a :: rest =>
      offered a app
      /\ match perform a app with
         | Some app' => permitted rest app'
         | None => False
         end
  end.

End Session.

(** The comparison function of the history screen, [b.timestamp -
    a.timestamp]. *)
Definition newer (a b : Snapshot.t) : Z :=
  (Snapshot.timestamp b - Snapshot.timestamp a)%Z.

(** Newest first: no snapshot is followed, anywhere later in the list, by a
    newer one. *)
Definition newestFirst (l : list Snapshot.t) : Prop :=
  StronglySorted (fun a b => (Snapshot.timestamp b <= Snapshot.timestamp a)%Z) l.

(** The snapshots taken at the reading [t], in the order of the list. *)
Definition takenAt (t : Z) (l : list Snapshot.t) : list Snapshot.t :=
  filter (fun s => (Snapshot.timestamp s =? t)%Z) l.



(** * The object graph

    For the handlers above an object is its value: none of them writes into
    an object that it did not build itself. Where the program copies a state
    (a snapshot holds a copy, and a restore installs a copy of that copy) it
    matters which objects a state is made of, and whether two states have
    one in common. For the store and the snapshot handlers the heap is
    therefore taken object by object: a state object refers to its three
    arrays, an array to its records, and a write into any of them is seen
    through every reference to it. *)

Module Graph.

(** ** Objects *)

(** The objects of the heap. A [ParsedObject] is a value that [JSON.parse]
    built and that is not of the interface expected in its place (a record
    whose amount is [null], say); it is kept with all that it holds. *)
Inductive Object : Type :=
| StateObject (transactions clients opportunities : ref)
| ArrayObject (items : list ref)
| TransactionObject (t : Transaction.t)
| ClientObject (c : Client.t)
| OpportunityObject (o : Opportunity.t)
| ParsedObject (j : json).

Definition Heap := list Object.

(** The elements of the array behind [a]. The program holds no reference
    that is not to an object of the expected kind; elsewhere the model reads
    nothing. *)
Definition items (h : Heap) (a : ref) : list ref :=
  match nth_error h a with
  | Some (ArrayObject l) => l
  | _ => []
  end.

(** An array and its records. *)
Definition array (h : Heap) (a : ref) : list ref := a :: items h a.

(** The objects a state is made of: the state object, its arrays and their
    records. *)
Definition reach (h : Heap) (r : ref) : list ref :=
  r :: match nth_error h r with
       | Some (StateObject t c o) => array h t ++ array h c ++ array h o
       | _ => []
       end.

(** Writing into an object: it changes in place, for every holder of a
    reference to it. *)
Fixpoint store (r : ref) (ob : Object) (h : Heap) : Heap :=
  match h, r with
  | [], _ => []
  | _ :: rest, O => ob :: rest
  | x :: rest, S r' => x :: store r' ob rest
  end.

(** ** Reading a state *)

Definition asTransaction (ob : Object) : option Transaction.t :=
  match ob with TransactionObject t => Some t | _ => None end.

Definition asClient (ob : Object) : option Client.t :=
  match ob with ClientObject c => Some c | _ => None end.

Definition asOpportunity (ob : Object) : option Opportunity.t :=
  match ob with OpportunityObject o => Some o | _ => None end.

Definition readObject {A : Type} (f : Object -> option A) (ob : option Object)
    : option A :=
  match ob with
  | Some x => f x
  | None => None
  end.

Definition readRecord {A : Type} (f : Object -> option A) (h : Heap) (r : ref)
    : option A :=
  readObject f (nth_error h r).

Definition readArray {A : Type} (f : Object -> option A) (h : Heap) (a : ref)
    : option (list A) :=
  match nth_error h a with
  | Some (ArrayObject l) => traverse (readRecord f h) l
  | _ => None
  end.

(** The state behind [r], when the objects there make up an [AppState]. *)
Definition read (h : Heap) (r : ref) : option AppState.t :=
  match nth_error h r with
  | Some (StateObject t c o) =>
      match readArray asTransaction h t, readArray asClient h c,
            readArray asOpportunity h o with
      | Some ts, Some cs, Some os => Some (AppState.mk ts cs os)
      | _, _, _ => None
      end
  | _ => None
  end.

(** ** [JSON.stringify] and [JSON.parse] *)

(** What [JSON.stringify] writes for a record. *)
Definition objectJSON (ob : option Object) : json :=
  match ob with
  | Some (TransactionObject t) => Transaction.toJSON t
  | Some (ClientObject c) => Client.toJSON c
  | Some (OpportunityObject o) => Opportunity.toJSON o
  | Some (ParsedObject j) => j
  | _ => JNull
  end.

Definition recordJSON (h : Heap) (r : ref) : json := objectJSON (nth_error h r).

Definition arrayJSON (h : Heap) (a : ref) : json :=
  JArray (map (recordJSON h) (items h a)).

(** [JSON.stringify(state)], as the value its text denotes. *)
Definition stateJSON (h : Heap) (r : ref) : json :=
  match nth_error h r with
  | Some (StateObject t c o) =>
      JObject [("transactions", arrayJSON h t);
               ("clients", arrayJSON h c);
               ("opportunities", arrayJSON h o)]
  | Some (ParsedObject j) => j
  | _ => JNull
  end.

(** A state object with its three arrays and their records, all new: the
    state object first, then the arrays, then the records. *)
Definition allocState (ts cs os : list Object) (h : Heap) : Heap * ref :=
  let n := List.length h in
  let first_t := n + 4 in
  let first_c := first_t + List.length ts in
  let first_o := first_c + List.length cs in
  (h ++ [StateObject (n + 1) (n + 2) (n + 3);
         ArrayObject (seq first_t (List.length ts));
         ArrayObject (seq first_c (List.length cs));
         ArrayObject (seq first_o (List.length os))]
     ++ ts ++ cs ++ os,
   n).

(** The object [JSON.parse] builds for a record of a state. *)
Definition parseTransaction (j : json) : Object :=
  match Transaction.ofJSON j with
  | Some t => TransactionObject t
  | None => ParsedObject j
  end.

Definition parseClient (j : json) : Object :=
  match Client.ofJSON j with
  | Some c => ClientObject c
  | None => ParsedObject j
  end.

Definition parseOpportunity (j : json) : Object :=
  match Opportunity.ofJSON j with
  | Some o => OpportunityObject o
  | None => ParsedObject j
  end.

(** [JSON.parse] of a text that [JSON.stringify] wrote for a state: every
    object it returns is new. A value with exactly the three arrays becomes
    a state object with its arrays and records; any other value is kept
    whole. *)
Definition parseState (j : json) (h : Heap) : Heap * ref :=
  match j with
  | JObject [(k1, JArray ts); (k2, JArray cs); (k3, JArray os)] =>
      if ((k1 =? "transactions") && (k2 =? "clients") && (k3 =? "opportunities"))%bool
      then allocState (map parseTransaction ts) (map parseClient cs)
                      (map parseOpportunity os) h
      else (h ++ [ParsedObject j], List.length h)
  | _ => (h ++ [ParsedObject j], List.length h)
  end.

(** [JSON.parse(JSON.stringify(x))], the program's deep copy, of the object
    behind [r]. *)
Definition deepCopy (h : Heap) (r : ref) : Heap * ref :=
  match JSON_parse (JSON_stringify (stateJSON h r)) with
  | Some j => parseState j h
  | None => (h, r)
  end.

(** ** The application object *)

(** The one closure these handlers hand to [showConfirmationModal]. *)
Inductive Callback : Type :=
| RestoreSnapshot (snapshot : Snapshot.t).

Inductive Modal : Type :=
| Hidden
| AlertModal (message title : string)
| ConfirmationModal (message title : string) (onConfirm : Callback).

(** The fields of [GestorApp] that the store and the snapshot handlers
    use. *)
Record App : Type := mkApp {
  heap : Heap;
  state : ref;
  snapshots : list Snapshot.t;
  activeScreen : string;
  modal : Modal;
  localStorage : Storage.t
}.

Definition set_state (h : Heap) (r : ref) (app : App) : App :=
  mkApp h r (snapshots app) (activeScreen app) (modal app) (localStorage app).

Definition set_heap (h : Heap) (app : App) : App :=
  mkApp h (state app) (snapshots app) (activeScreen app) (modal app)
        (localStorage app).

Definition set_snapshots (l : list Snapshot.t) (app : App) : App :=
  mkApp (heap app) (state app) l (activeScreen app) (modal app) (localStorage app).

Definition set_activeScreen (s : string) (app : App) : App :=
  mkApp (heap app) (state app) (snapshots app) s (modal app) (localStorage app).

Definition set_modal (m : Modal) (app : App) : App :=
  mkApp (heap app) (state app) (snapshots app) (activeScreen app) m
        (localStorage app).

Definition set_localStorage (st : Storage.t) (app : App) : App :=
  mkApp (heap app) (state app) (snapshots app) (activeScreen app) (modal app) st.

Definition navigateTo (screen : string) (app : App) : App :=
  set_activeScreen screen app.

Definition renderHistorico (app : App) : App := app.

Definition hideModal (app : App) : App := set_modal Hidden app.

Definition showAlertModal (message title : string) (app : App) : App :=
  set_modal (AlertModal message title) app.

Definition showConfirmationModal (message : string) (onConfirm : Callback)
    (title : string) (app : App) : App :=
  set_modal (ConfirmationModal message title onConfirm) app.

(** ** The store *)

Definition saveState (app : App) : App :=
  match Storage.setItem "gestor_app_state" (stateJSON (heap app) (state app))
                        (localStorage app) with
  | Some st => set_localStorage st app
  | None => app
  end.

Definition snapshotJSON (h : Heap) (s : Snapshot.t) : json :=
  JObject [("id", JString (Snapshot.id s));
           ("name", JString (Snapshot.name s));
           ("timestamp", JSON_number (number_of_Z (Snapshot.timestamp s)));
           ("data", stateJSON h (Snapshot.data s))].

Definition saveSnapshots (app : App) : App :=
  match Storage.setItem "gestor_app_snapshots"
                        (JArray (map (snapshotJSON (heap app)) (snapshots app)))
                        (localStorage app) with
  | Some st => set_localStorage st app
  | None => app
  end.

(** An updater passed to [setState]: any function from the previous state
    object to the next one, run on the heap. *)
Definition Updater := Heap -> ref -> Heap * ref.

Definition setState (updater : Updater) (app : App) : App :=
  let (h, next) := updater (heap app) (state app) in
  navigateTo (activeScreen app) (saveState (set_state h next app)).

(** ** The snapshot handlers *)

Section SnapshotForm.

(** The platform's [String.prototype.trim]. *)
Variable trim : string -> string.

(** [handleCreateSnapshot], with the value of the name field and the two
    readings of [Date.now()], for the id and for the timestamp. *)
Definition handleCreateSnapshot (nameInput : string) (now_id now_ts : Z)
    (app : App) : App :=
  let name := trim nameInput in
  if negb (truthy name)
  then showAlertModal "Por favor, insira um nome para o snapshot." "Aviso" app
  else
    let (h, d) := deepCopy (heap app) (state app) in
    let newSnapshot := Snapshot.mk (snapshotId now_id) name now_ts d in
    renderHistorico
      (showAlertModal "Snapshot criado com sucesso!" "Sucesso"
        (saveSnapshots
          (set_snapshots (snapshots app ++ [newSnapshot]) (set_heap h app)))).

End SnapshotForm.

Definition handleRestoreSnapshot (id : string) (app : App) : App :=
  match find (fun s => Snapshot.id s =? id) (snapshots app) with
  | None => app
  | Some snapshot =>
      showConfirmationModal
        ("Tem certeza que deseja restaurar o snapshot " ++ dquote
           ++ escapeHtml (Snapshot.name snapshot) ++ dquote
           ++ "? Todos os dados atuais não salvos em outro snapshot serão perdidos.")
        (RestoreSnapshot snapshot) "Confirmar Restauração" app
  end.

(** What the confirmation callback does when it runs. *)
Definition onConfirm (cb : Callback) (app : App) : App :=
  match cb with
  | RestoreSnapshot snapshot =>
      let (h, r) := deepCopy (heap app) (Snapshot.data snapshot) in
      navigateTo "painel"
        (showAlertModal "Dados restaurados com sucesso!" "Sucesso"
          (saveState (set_state h r app)))
  end.

(** A click on the modal's Confirmar button: [hideModal(); onConfirm()]. *)
Definition clickConfirm (app : App) : App :=
  match modal app with
  | ConfirmationModal _ _ cb => onConfirm cb (hideModal app)
  | _ => app
  end.

(** The updater of the client form, [prev => ({...prev, clients:
    [...prev.clients, newClient]})]: a new record, a new array with the
    records of the previous one and the new record, and a new state object
    with the other two arrays of the previous state. *)
Definition appendClient (newClient : Client.t) : Updater :=
  fun h prev =>
    match nth_error h prev with
    | Some (StateObject t c o) =>
        let n := List.length h in
        (h ++ [ClientObject newClient;
               ArrayObject (items h c ++ [n]);
               StateObject t (n + 1) o],
         n + 2)
    | _ => (h, prev)
    end.

(** ** Notions for the properties *)

(** The live state is made of allocated objects. *)
Definition allocated (app : App) : Prop :=
  Forall (fun r => r < List.length (heap app)) (reach (heap app) (state app)).

(** No object is in both. *)
Definition separate (a b : list ref) : Prop :=
  forall r, In r a -> ~ In r b.

(** [u] works on the state it is given: it may write into the objects of
    that state and allocate, the state it returns is made of objects of
    that state and of new ones, and every other object is left as it was. *)
Definition confined (u : Updater) : Prop :=
  forall (h : Heap) (prev : ref),
    Forall (fun r => r < List.length h) (reach h prev) ->
    List.length h <= List.length (fst (u h prev))
    /\ (forall r, r < List.length h -> ~ In r (reach h prev) ->
          nth_error (fst (u h prev)) r = nth_error h r)
    /\ Forall (fun r => In r (reach h prev)
                        \/ List.length h <= r < List.length (fst (u h prev)))
              (reach (fst (u h prev)) (snd (u h prev))).

(** A sequence of [setState] calls. *)
Definition applyAll (updaters : list Updater) (app : App) : App :=
  fold_left (fun a u => setState u a) updaters app.

(** An updater that writes into the state it is given,
    [prev => { prev.clients.push(c); return prev; }]. *)
Definition pushClient (c : Client.t) : Updater :=
  fun h prev =>
    match nth_error h prev with
    | Some (StateObject _ cl _) =>
        match nth_error h cl with
        | Some (ArrayObject l) =>
            (store cl (ArrayObject (l ++ [List.length h])) (h ++ [ClientObject c]),
             prev)
        | _ => (h, prev)
        end
    | _ => (h, prev)
    end.

(** A copy of the state object alone, [{...state}]: it has the arrays of
    the state it copies. The program makes no such copy; the model tells it
    from the deep copy. *)
Definition shallowCopy (h : Heap) (r : ref) : Heap * ref :=
  match nth_error h r with
  | Some (StateObject t c o) => (h ++ [StateObject t c o], List.length h)
  | _ => (h, r)
  end.

(** A state in objects of its own. *)
Definition newState (s : AppState.t) (h : Heap) : Heap * ref :=
  allocState (map TransactionObject (AppState.transactions s))
             (map ClientObject (AppState.clients s))
             (map OpportunityObject (AppState.opportunities s))
             h.

(** An application whose state is [s], without snapshots. *)
Definition appOf (s : AppState.t) : App :=
  mkApp (fst (newState s [])) 0 [] "historico" Hidden openStorage.

(** An application with the sample state and a snapshot of it. *)
Definition sampleApp : App :=
  handleCreateSnapshot trimASCII "Abril" 1700000000000 1700000000000
                       (appOf sampleState).

(** An application whose state holds an infinite amount, with a snapshot
    of it. *)
Definition infiniteApp : App :=
  handleCreateSnapshot trimASCII "Abril" 1700000000000 1700000000000
                       (appOf infiniteState).

End Graph.

(** * Verification *)

(** ** Numbers *)

Lemma zero_strictEquals (x : number) :
  isZero x = true -> strictEquals PrimFloat.zero x = true.
Proof.
  unfold isZero, strictEquals.
  rewrite classify_spec, FloatAxioms.eqb_spec.
  destruct (Prim2SF x) as [[|]| [|] | | [|] m e]; cbn;
    try discriminate; try reflexivity.
  all: match goal with |- context [if ?c then _ else _] => destruct c end;
    discriminate.
Qed.

Lemma SFeqb_finite_refl (s : bool) (m : positive) (e : Z) :
  SFeqb (S754_finite s m e) (S754_finite s m e) = true.
Proof.
  unfold SFeqb, SFcompare.
  rewrite Z.compare_refl, Pos.compare_cont_refl.
  destruct s; reflexivity.
Qed.

Lemma strictEquals_refl (x : number) :
  isFinite x = true -> strictEquals x x = true.
Proof.
  unfold isFinite, strictEquals.
  rewrite classify_spec, FloatAxioms.eqb_spec.
  destruct (Prim2SF x) as [[|]| [|] | | s m e]; cbn;
    try discriminate; try reflexivity.
  intros _. apply SFeqb_finite_refl.
Qed.

Lemma canonicalNumber_strictEquals (x : number) :
  isFinite x = true -> strictEquals (canonicalNumber x) x = true.
Proof.
  intros Hfin. unfold canonicalNumber.
  destruct (isZero x) eqn:Hz.
  - now apply zero_strictEquals.
  - now apply strictEquals_refl.
Qed.

Lemma JSON_number_finite (x : number) :
  isFinite x = true -> JSON_number x = JNumber (canonicalNumber x).
Proof.
  unfold isFinite, JSON_number, canonicalNumber, isZero.
  destruct (classify x); intros H; try discriminate; reflexivity.
Qed.

Lemma canonicalNumber_idempotent (x : number) :
  canonicalNumber (canonicalNumber x) = canonicalNumber x.
Proof.
  unfold canonicalNumber.
  destruct (isZero x) eqn:Hz.
  - reflexivity.
  - now rewrite Hz.
Qed.

Lemma canonicalNumber_finite (x : number) :
  isFinite x = true -> isFinite (canonicalNumber x) = true.
Proof.
  unfold canonicalNumber. destruct (isZero x); [reflexivity | tauto].
Qed.

(** ** The JSON round trip of the records *)

Lemma traverse_map {A B C : Type} (f : B -> option C) (g : A -> B) (h : A -> C)
    (l : list A) :
  (forall a, In a l -> f (g a) = Some (h a)) ->
  traverse f (map g l) = Some (map h l).
Proof.
  induction l as [| a l IH]; intros H; simpl.
  - reflexivity.
  - rewrite (H a (or_introl eq_refl)), IH; [reflexivity |].
    intros b Hb. apply H. now right.
Qed.

Lemma Transaction_ofJSON_toJSON (t : Transaction.t) :
  isFinite (Transaction.amount t) = true ->
  Transaction.ofJSON (Transaction.toJSON t) = Some (canonicalTransaction t).
Proof.
  destruct t as [i d a dt ty]; simpl; intros Hfin.
  unfold Transaction.ofJSON, Transaction.toJSON, canonicalTransaction; simpl.
  rewrite (JSON_number_finite a Hfin).
  destruct ty; reflexivity.
Qed.

Lemma Client_ofJSON_toJSON (c : Client.t) :
  Client.ofJSON (Client.toJSON c) = Some c.
Proof. destruct c; reflexivity. Qed.

Lemma Opportunity_ofJSON_toJSON (o : Opportunity.t) :
  isFinite (Opportunity.value o) = true ->
  Opportunity.ofJSON (Opportunity.toJSON o) = Some (canonicalOpportunity o).
Proof.
  destruct o as [i t v c st]; simpl; intros Hfin.
  unfold Opportunity.ofJSON, Opportunity.toJSON, canonicalOpportunity; simpl.
  rewrite (JSON_number_finite v Hfin).
  destruct st; reflexivity.
Qed.

Lemma AppState_ofJSON_toJSON (s : AppState.t) :
  finiteNumbers s = true ->
  AppState.ofJSON (AppState.toJSON s) = Some (canonicalState s).
Proof.
  destruct s as [ts cs os]. unfold finiteNumbers; simpl.
  rewrite andb_true_iff, !forallb_forall. intros [Ht Ho].
  unfold AppState.ofJSON, AppState.toJSON, canonicalState, as_array; simpl.
  rewrite (traverse_map _ _ canonicalTransaction),
          (traverse_map _ _ (fun c => c)),
          (traverse_map _ _ canonicalOpportunity).
  - now rewrite map_id.
  - intros o Hin. apply Opportunity_ofJSON_toJSON. now apply Ho.
  - intros c _. apply Client_ofJSON_toJSON.
  - intros t Hin. apply Transaction_ofJSON_toJSON. now apply Ht.
Qed.

Lemma deepCopy_finite (s : AppState.t) :
  finiteNumbers s = true -> deepCopy s = Some (canonicalState s).
Proof. intros H. unfold deepCopy. simpl. now apply AppState_ofJSON_toJSON. Qed.

Lemma canonicalState_finite (s : AppState.t) :
  finiteNumbers s = true -> finiteNumbers (canonicalState s) = true.
Proof.
  destruct s as [ts cs os]. unfold finiteNumbers, canonicalState; simpl.
  rewrite !andb_true_iff, !forallb_forall. intros [Ht Ho]. split.
  - intros t Hin. apply in_map_iff in Hin. destruct Hin as [t0 [<- Hin]].
    simpl. apply canonicalNumber_finite. now apply Ht.
  - intros o Hin. apply in_map_iff in Hin. destruct Hin as [o0 [<- Hin]].
    simpl. apply canonicalNumber_finite. now apply Ho.
Qed.

Lemma canonicalState_idempotent (s : AppState.t) :
  canonicalState (canonicalState s) = canonicalState s.
Proof.
  destruct s as [ts cs os]. unfold canonicalState; simpl.
  rewrite !map_map. f_equal.
  - apply map_ext. intros [i d a dt ty]. unfold canonicalTransaction; simpl.
    now rewrite canonicalNumber_idempotent.
  - apply map_ext. intros [i t v c st]. unfold canonicalOpportunity; simpl.
    now rewrite canonicalNumber_idempotent.
Qed.

Lemma forall2b_map_l {A : Type} (p : A -> A -> bool) (f : A -> A) (l : list A) :
  (forall a, In a l -> p (f a) a = true) -> forall2b p (map f l) l = true.
Proof.
  induction l as [| a l IH]; intros H; simpl.
  - reflexivity.
  - rewrite (H a (or_introl eq_refl)), IH; [reflexivity |].
    intros b Hb. apply H. now right.
Qed.

Lemma equalClient_refl (c : Client.t) : equalClient c c = true.
Proof. unfold equalClient. now rewrite !String.eqb_refl. Qed.

Lemma canonicalState_structurallyEqual (s : AppState.t) :
  finiteNumbers s = true -> structurallyEqual (canonicalState s) s = true.
Proof.
  destruct s as [ts cs os]. unfold finiteNumbers, structurallyEqual, canonicalState; simpl.
  rewrite !andb_true_iff, !forallb_forall. intros [Ht Ho]. repeat split.
  - apply forall2b_map_l. intros [i d a dt ty] Hin.
    unfold equalTransaction; simpl.
    rewrite !String.eqb_refl, (canonicalNumber_strictEquals a (Ht _ Hin)).
    destruct ty; reflexivity.
  - rewrite <- (map_id cs) at 1. apply forall2b_map_l.
    intros c _. apply equalClient_refl.
  - apply forall2b_map_l. intros [i t v c st] Hin.
    unfold equalOpportunity, equalStage; simpl.
    now rewrite !String.eqb_refl, (canonicalNumber_strictEquals v (Ho _ Hin)).
Qed.

(** ** The heap *)

Lemma deref_alloc_new (s : AppState.t) (h : Heap) :
  deref (fst (alloc s h)) (snd (alloc s h)) = s.
Proof.
  unfold deref, alloc; simpl.
  rewrite app_nth2, Nat.sub_diag; [reflexivity | lia].
Qed.

Lemma deref_alloc_old (s : AppState.t) (h : Heap) (r : ref) :
  r < List.length h -> deref (fst (alloc s h)) r = deref h r.
Proof. intros H. unfold deref, alloc; simpl. now apply app_nth1. Qed.

Lemma length_alloc (s : AppState.t) (h : Heap) :
  List.length (fst (alloc s h)) = S (List.length h).
Proof. unfold alloc; simpl. rewrite length_app; simpl. lia. Qed.

Lemma arrow_pure (f : AppState.t -> AppState.t) : pureUpdater (arrow f) f.
Proof.
  intros h prev Hprev. exists (fst (alloc (f (deref h prev)) h)), (List.length h).
  repeat split.
  - rewrite length_alloc. lia.
  - rewrite length_alloc. lia.
  - intros r Hr. now apply deref_alloc_old.
  - apply (deref_alloc_new (f (deref h prev)) h).
Qed.

(** ** The store *)

Lemma current_saveState (app : GestorApp) :
  heap (saveState app) = heap app /\ state (saveState app) = state app
  /\ snapshots (saveState app) = snapshots app
  /\ modal (saveState app) = modal app
  /\ activeScreen (saveState app) = activeScreen app
  /\ editingTransactionId (saveState app) = editingTransactionId app.
Proof.
  unfold saveState. destruct (Storage.setItem _ _ _); simpl; auto 10.
Qed.

Lemma saveSnapshots_fields (app : GestorApp) :
  heap (saveSnapshots app) = heap app /\ state (saveSnapshots app) = state app
  /\ snapshots (saveSnapshots app) = snapshots app
  /\ modal (saveSnapshots app) = modal app
  /\ activeScreen (saveSnapshots app) = activeScreen app
  /\ editingTransactionId (saveSnapshots app) = editingTransactionId app.
Proof.
  unfold saveSnapshots. destruct (Storage.setItem _ _ _); simpl; auto 10.
Qed.

Lemma setState_fields (u : Updater) (app : GestorApp) :
  heap (setState u app) = fst (u (heap app) (state app))
  /\ state (setState u app) = snd (u (heap app) (state app))
  /\ snapshots (setState u app) = snapshots app
  /\ modal (setState u app) = modal app
  /\ activeScreen (setState u app) = activeScreen app
  /\ editingTransactionId (setState u app) = editingTransactionId app.
Proof.
  unfold setState. destruct (u (heap app) (state app)) as [h next]; simpl.
  destruct (current_saveState (set_state h next app)) as (H1 & H2 & H3 & H4 & H5 & H6).
  rewrite H1, H2, H3, H4, H6. simpl. auto 10.
Qed.

Lemma setState_pure (u : Updater) (f : AppState.t -> AppState.t) (app : GestorApp) :
  pureUpdater u f -> allocated app ->
  allocated (setState u app) /\ current (setState u app) = f (current app).
Proof.
  intros Hp Ha. unfold allocated, current in *.
  destruct (setState_fields u app) as (H1 & H2 & _).
  destruct (Hp _ _ Ha) as (h' & next & Hu & Hn & _ & _ & Hf).
  rewrite H1, H2, Hu. simpl. auto.
Qed.

(** C1. For every initial state and every sequence of updaters passed to
    [setState], each of which computes its result without mutating its input
    in place, the state the store holds after the sequence is the result of
    applying the updaters in order to the initial state. *)
Theorem setState_sequence_in_order
    (app : GestorApp) (log : list (Updater * (AppState.t -> AppState.t))) :
  allocated app ->
  Forall (fun uf => pureUpdater (fst uf) (snd uf)) log ->
  current (applyAll (map fst log) app)
  = fold_left (fun s uf => snd uf s) log (current app).
Proof.
  intros Ha Hlog. revert app Ha. unfold applyAll.
  induction Hlog as [| [u f] log Hp _ IH]; intros app Ha; simpl.
  - reflexivity.
  - destruct (setState_pure u f app Hp Ha) as [Ha' Hc].
    rewrite (IH _ Ha'), Hc. reflexivity.
Qed.

Lemma setState_sequence_in_order_witness :
  current (applyAll (map fst [(arrow (addClient ana), addClient ana);
                              (arrow (addClient bia), addClient bia)]) firstRun)
  = fold_left (fun s uf => snd uf s)
              [(arrow (addClient ana), addClient ana);
               (arrow (addClient bia), addClient bia)]
              (current firstRun).
Proof.
  apply setState_sequence_in_order.
  - unfold allocated; simpl; lia.
  - repeat constructor; apply arrow_pure.
Defined.

(** ** Backup *)

(** An object lacks a key when none of its properties has it. *)
Lemma has_key_object (k : string) (props : list (string * json)) :
  has_key k (JObject props) <> Some true <-> ~ In k (map fst props).
Proof.
  simpl. split.
  - intros H Hin. apply H. f_equal. apply existsb_exists.
    apply in_map_iff in Hin. destruct Hin as (p & <- & Hp).
    exists p. split; [assumption | apply String.eqb_refl].
  - intros H [= E]. apply H. apply existsb_exists in E.
    destruct E as (p & Hp & Hk). apply String.eqb_eq in Hk. subst k.
    now apply in_map.
Qed.

(** C2. A backup document that parses as JSON and lacks one of the keys
    [transactions], [clients], [opportunities] is rejected with an error
    alert, and nothing but the modal changes: the live state, the snapshots
    and the storage are as before, and there is no import left to confirm. An
    object that lacks a key gets the message of an invalid file. *)
Theorem loadBackup_rejects_incomplete (app : GestorApp) (doc : json) :
  has_key "transactions" doc <> Some true
  \/ has_key "clients" doc <> Some true
  \/ has_key "opportunities" doc <> Some true ->
  let app' := loadBackup (Some (Some doc)) app in
  (exists message, modal app' = AlertModal message "Erro")
  /\ app' = set_modal (modal app') app
  /\ heap app' = heap app
  /\ state app' = state app
  /\ current app' = current app
  /\ snapshots app' = snapshots app
  /\ localStorage app' = localStorage app
  /\ clickConfirm app' = Some app'
  /\ (forall props, doc = JObject props ->
        modal app' = AlertModal "Arquivo de backup inválido." "Erro").
Proof.
  intros Hmissing. unfold loadBackup, JSON_parse.
  destruct (has_key "transactions" doc) as [[|]|] eqn:Ht;
    [destruct (has_key "clients" doc) as [[|]|] eqn:Hc;
       [destruct (has_key "opportunities" doc) as [[|]|] eqn:Ho | |] | |];
    try (exfalso; destruct Hmissing as [H | [H | H]]; now apply H);
    simpl; (repeat split; [eexists; reflexivity | ..]); try reflexivity;
    intros props ->; simpl in *; congruence.
Qed.

Lemma loadBackup_rejects_incomplete_witness :
  let app' := loadBackup (Some (Some clientsOnly)) firstRun in
  (exists message, modal app' = AlertModal message "Erro")
  /\ app' = set_modal (modal app') firstRun
  /\ heap app' = heap firstRun
  /\ state app' = state firstRun
  /\ current app' = current firstRun
  /\ snapshots app' = snapshots firstRun
  /\ localStorage app' = localStorage firstRun
  /\ clickConfirm app' = Some app'
  /\ (forall props, clientsOnly = JObject props ->
        modal app' = AlertModal "Arquivo de backup inválido." "Erro").
Proof.
  apply (loadBackup_rejects_incomplete firstRun clientsOnly).
  left. vm_compute. discriminate.
Defined.

Lemma has_key_toJSON (s : AppState.t) :
  has_key "transactions" (AppState.toJSON s) = Some true
  /\ has_key "clients" (AppState.toJSON s) = Some true
  /\ has_key "opportunities" (AppState.toJSON s) = Some true.
Proof. repeat split. Qed.

Lemma assign_current (s : AppState.t) (message title screen : string)
    (app : GestorApp) :
  current (navigateTo screen
            (showAlertModal message title
              (saveState (set_state (fst (alloc s (heap app)))
                                    (snd (alloc s (heap app))) app)))) = s.
Proof.
  unfold navigateTo, showAlertModal, current; simpl.
  destruct (current_saveState
              (set_state (heap app ++ [s]) (List.length (heap app)) app))
    as (H1 & H2 & _).
  rewrite H1, H2. simpl. apply (deref_alloc_new s (heap app)).
Qed.

Lemma onConfirm_LoadBackup (doc : json) (s : AppState.t) (app : GestorApp) :
  AppState.ofJSON doc = Some s ->
  exists imported,
    onConfirm (LoadBackup doc) app = Some imported /\ current imported = s.
Proof.
  intros Hdoc. unfold onConfirm. rewrite Hdoc.
  eexists. split; [reflexivity |]. apply assign_current.
Qed.

(** C3, as the code has it. For every state whose numbers are finite,
    importing the text that exporting it produces asks for confirmation and,
    once confirmed, makes the live state structurally equal to the exported
    one: the same records, field by field, a zero amount read back as [0]
    whatever its sign. *)
Theorem backup_round_trip (origin target : GestorApp) :
  finiteNumbers (current origin) = true ->
  exists (doc : json) (imported : GestorApp),
    saveBackup origin = Some doc
    /\ modal (loadBackup (Some (saveBackup origin)) target)
       = ConfirmationModal
           "Tem certeza que deseja carregar este backup? Todos os dados atuais serão substituídos."
           "Confirmar Ação" (LoadBackup doc)
    /\ clickConfirm (loadBackup (Some (saveBackup origin)) target) = Some imported
    /\ current imported = canonicalState (current origin)
    /\ structurallyEqual (current imported) (current origin) = true.
Proof.
  intros Hvalid.
  destruct (onConfirm_LoadBackup _ _ (hideModal target)
              (AppState_ofJSON_toJSON _ Hvalid)) as (imported & Hrun & Hcur).
  exists (AppState.toJSON (current origin)), imported.
  split; [reflexivity |].
  unfold saveBackup, JSON_stringify, loadBackup, JSON_parse.
  destruct (has_key_toJSON (current origin)) as (-> & -> & ->).
  split; [reflexivity |].
  split; [| split; [exact Hcur |]].
  - unfold clickConfirm, showConfirmationModal; simpl modal; cbv iota beta.
    exact Hrun.
  - rewrite Hcur. now apply canonicalState_structurallyEqual.
Qed.

Lemma backup_round_trip_witness :
  exists (doc : json) (imported : GestorApp),
    saveBackup sampleApp = Some doc
    /\ modal (loadBackup (Some (saveBackup sampleApp)) firstRun)
       = ConfirmationModal
           "Tem certeza que deseja carregar este backup? Todos os dados atuais serão substituídos."
           "Confirmar Ação" (LoadBackup doc)
    /\ clickConfirm (loadBackup (Some (saveBackup sampleApp)) firstRun) = Some imported
    /\ current imported = canonicalState (current sampleApp)
    /\ structurallyEqual (current imported) (current sampleApp) = true.
Proof.
  apply (backup_round_trip sampleApp firstRun). vm_compute. reflexivity.
Defined.

(** C3, as stated, fails: a state with an infinite amount is exported with
    [null] for the amount, and what the import of that text makes the live
    state is no state structurally equal to the exported one. *)
Lemma backup_of_infinite_amount_reads_null :
  structurallyEqual infiniteState infiniteState = true
  /\ saveBackup infiniteApp
     = Some (JObject
               [("transactions",
                 JArray [JObject [("id", JString "tx_1");
                                  ("description", JString "Aluguel");
                                  ("amount", JNull);
                                  ("date", JString "2024-05-10");
                                  ("type", JString "receita")]]);
                ("clients", JArray []);
                ("opportunities", JArray [])])
  /\ ~ (exists imported,
          clickConfirm (loadBackup (Some (saveBackup infiniteApp)) firstRun)
          = Some imported
          /\ structurallyEqual (current imported) (current infiniteApp) = true).
Proof.
  split; [vm_compute; reflexivity |].
  split; [vm_compute; reflexivity |].
  intros (imported & Himport & _).
  vm_compute in Himport. discriminate Himport.
Qed.

(** ** Deleting a client *)

Lemma setState_arrow (f : AppState.t -> AppState.t) (app : GestorApp) :
  current (setState (arrow f) app) = f (current app)
  /\ snapshots (setState (arrow f) app) = snapshots app
  /\ state (setState (arrow f) app) = List.length (heap app)
  /\ heap (setState (arrow f) app) = heap app ++ [f (current app)].
Proof.
  destruct (setState_fields (arrow f) app) as (H1 & H2 & H3 & _).
  unfold current at 1. rewrite H1, H2, H3. repeat split.
  apply (deref_alloc_new (f (deref (heap app) (state app))) (heap app)).
Qed.

Lemma no_reference_filter (id : string) (l : list Opportunity.t) :
  (forall op, In op l -> Opportunity.clientId op <> id) ->
  filter (fun op => Opportunity.clientId op =? id) l = [].
Proof.
  induction l as [| op l IH]; intros H; simpl.
  - reflexivity.
  - destruct (String.eqb_spec (Opportunity.clientId op) id) as [E | _].
    + exfalso. exact (H op (or_introl eq_refl) E).
    + apply IH. intros o Ho. apply H. now right.
Qed.

Lemma some_reference_filter (id : string) (l : list Opportunity.t) :
  (exists op, In op l /\ Opportunity.clientId op = id) ->
  Nat.ltb 0 (List.length (filter (fun op => Opportunity.clientId op =? id) l)) = true.
Proof.
  intros (op & Hin & Hid).
  assert (Hf : In op (filter (fun op => Opportunity.clientId op =? id) l)).
  { apply filter_In. split; [assumption |]. now apply String.eqb_eq. }
  destruct (filter _ l); [contradiction | reflexivity].
Qed.

Lemma filter_keeps {A : Type} (p : A -> bool) (l : list A) :
  (forall a, In a l -> p a = true) -> filter p l = l.
Proof.
  induction l as [| a l IH]; intros H; simpl; [reflexivity |].
  rewrite (H a (or_introl eq_refl)), IH; [reflexivity |].
  intros b Hb. apply H. now right.
Qed.

Lemma filter_removes_one (id : string) (before after : list Client.t) (c : Client.t) :
  Client.id c = id ->
  (forall c', In c' (before ++ after) -> Client.id c' <> id) ->
  filter (fun c => negb (Client.id c =? id)) (before ++ c :: after) = before ++ after.
Proof.
  intros Hid Hothers. rewrite filter_app. simpl.
  rewrite Hid, String.eqb_refl. simpl. rewrite <- filter_app.
  apply filter_keeps. intros c' Hin.
  apply negb_true_iff, String.eqb_neq. now apply Hothers.
Qed.

(** C5, as the code has it. Deleting a client that no opportunity
    references succeeds: the confirmation is asked and, once given, the
    clients are the former ones without every client of that id, in the same
    order (exactly that client, when no other has its id), and the other
    collections are as before. Deleting a client that an opportunity
    references fails with an alert and leaves the state, with both
    collections, as it was; there is nothing to confirm. *)
Theorem handleDeleteClient_referential_integrity (app : GestorApp) (id : string) :
  ((forall op, In op (AppState.opportunities (current app)) ->
               Opportunity.clientId op <> id) ->
   handleDeleteClient id app
   = showConfirmationModal "Tem certeza que deseja excluir este cliente?"
                           (DeleteClient id) "Confirmar Ação" app
   /\ exists app',
        clickConfirm (handleDeleteClient id app) = Some app'
        /\ ~ reportsError app'
        /\ AppState.clients (current app')
           = filter (fun c => negb (Client.id c =? id)) (AppState.clients (current app))
        /\ (forall c, In c (AppState.clients (current app'))
                      <-> In c (AppState.clients (current app)) /\ Client.id c <> id)
        /\ (forall before c after,
              AppState.clients (current app) = before ++ c :: after ->
              Client.id c = id ->
              (forall c', In c' (before ++ after) -> Client.id c' <> id) ->
              AppState.clients (current app') = before ++ after)
        /\ AppState.opportunities (current app') = AppState.opportunities (current app)
        /\ AppState.transactions (current app') = AppState.transactions (current app))
  /\
  ((exists op, In op (AppState.opportunities (current app))
               /\ Opportunity.clientId op = id) ->
   handleDeleteClient id app
   = showAlertModal
       "Não é possível excluir um cliente que possui oportunidades associadas."
       "Aviso" app
   /\ reportsError (handleDeleteClient id app)
   /\ heap (handleDeleteClient id app) = heap app
   /\ state (handleDeleteClient id app) = state app
   /\ current (handleDeleteClient id app) = current app
   /\ clickConfirm (handleDeleteClient id app) = Some (handleDeleteClient id app)).
Proof.
  split.
  - intros Hnone.
    assert (Hshow : handleDeleteClient id app
                    = showConfirmationModal "Tem certeza que deseja excluir este cliente?"
                        (DeleteClient id) "Confirmar Ação" app).
    { unfold handleDeleteClient. now rewrite (no_reference_filter id _ Hnone). }
    split; [exact Hshow |].
    rewrite Hshow. unfold clickConfirm, showConfirmationModal; simpl modal.
    cbv iota beta. unfold onConfirm.
    eexists. split; [reflexivity |].
    match goal with |- context [setState (arrow ?f) ?a] =>
      destruct (setState_arrow f a) as (Hc & _);
      destruct (setState_fields (arrow f) a) as (_ & _ & _ & Hm & _)
    end.
    split.
    { intros (message & title & Hmodal). rewrite Hm in Hmodal. discriminate. }
    change (current (hideModal (set_modal ?m app))) with (current app) in Hc.
    rewrite Hc. unfold with_clients; simpl.
    split; [reflexivity |].
    split; [| split; [| split; reflexivity]].
    + intros c. rewrite filter_In, negb_true_iff, String.eqb_neq. tauto.
    + intros before c after Hsplit Hid Hothers.
      rewrite Hsplit. now apply filter_removes_one.
  - intros Hsome.
    assert (Hshow : handleDeleteClient id app
                    = showAlertModal
                        "Não é possível excluir um cliente que possui oportunidades associadas."
                        "Aviso" app).
    { unfold handleDeleteClient. now rewrite (some_reference_filter id _ Hsome). }
    rewrite Hshow. repeat split.
    do 2 eexists. reflexivity.
Qed.

Lemma handleDeleteClient_referential_integrity_witness :
  reportsError (handleDeleteClient "cl_1" sampleApp)
  /\ exists app',
       clickConfirm (handleDeleteClient "cl_1" (setState (arrow (with_opportunities [])) sampleApp))
       = Some app'
       /\ AppState.clients (current app') = [].
Proof.
  split.
  - apply (handleDeleteClient_referential_integrity sampleApp "cl_1").
    eexists. split; [left; reflexivity | reflexivity].
  - destruct (proj1 (handleDeleteClient_referential_integrity
                       (setState (arrow (with_opportunities [])) sampleApp) "cl_1"))
      as (_ & app' & Hrun & _ & Hclients & _).
    + intros op Hin. destruct Hin.
    + exists app'. split; [exact Hrun | exact Hclients].
Defined.

(** C5, as stated, fails: the deletion removes by id, and ids repeat. Two
    clients created through the form within the same millisecond share
    their id, and the deletion of one takes the other with it. *)
Lemma clients_sharing_an_id_are_deleted_together :
  let app :=
    submitClientForm None "Bia" "Bolt" "bia@bolt.test" "556" 1700000000000
      (submitClientForm None "Ana" "Acme" "ana@acme.test" "555" 1700000000000
         firstRun) in
  map (fun c => (Client.id c, Client.name c)) (AppState.clients (current app))
  = [("cl_1700000000000", "Ana"); ("cl_1700000000000", "Bia")]
  /\ AppState.opportunities (current app) = []
  /\ option_map (fun app' => AppState.clients (current app'))
                (clickConfirm (handleDeleteClient "cl_1700000000000" app))
     = Some [].
Proof. vm_compute. repeat split. Qed.

(** ** Snapshots that do not exist *)

Lemma find_absent (id : string) (l : list Snapshot.t) :
  (forall s, In s l -> Snapshot.id s <> id) ->
  find (fun s => Snapshot.id s =? id) l = None.
Proof.
  induction l as [| s l IH]; intros H; simpl.
  - reflexivity.
  - destruct (String.eqb_spec (Snapshot.id s) id) as [E | _].
    + exfalso. exact (H s (or_introl eq_refl) E).
    + apply IH. intros s' Hs'. apply H. now right.
Qed.

(** C8, as the code has it. For an id that matches no snapshot, restore and
    delete return at once: no error is raised or shown, and the whole
    application, with the live state and the snapshots, is as before. *)
Theorem snapshot_not_found_is_silent (app : GestorApp) (id : string) :
  (forall s, In s (snapshots app) -> Snapshot.id s <> id) ->
  handleRestoreSnapshot id app = app /\ handleDeleteSnapshot id app = app.
Proof.
  intros Habsent. unfold handleRestoreSnapshot, handleDeleteSnapshot.
  now rewrite (find_absent id _ Habsent).
Qed.

Lemma snapshot_not_found_is_silent_witness :
  handleRestoreSnapshot "snap_404" firstRun = firstRun
  /\ handleDeleteSnapshot "snap_404" firstRun = firstRun.
Proof.
  apply (snapshot_not_found_is_silent firstRun "snap_404").
  intros s Hin. destruct Hin.
Defined.

(** C8, as stated, fails: with no snapshot at all, restoring or deleting the
    id [snap_404] reports no error. *)
Lemma snapshot_not_found_reports_nothing :
  (forall s, In s (snapshots firstRun) -> Snapshot.id s <> "snap_404")
  /\ ~ reportsError (handleRestoreSnapshot "snap_404" firstRun)
  /\ ~ reportsError (handleDeleteSnapshot "snap_404" firstRun).
Proof.
  repeat split.
  - intros s Hin. destruct Hin.
  - intros (message & title & H). discriminate H.
  - intros (message & title & H). discriminate H.
Qed.

(** ** Wiping *)

Lemma getItem_setItem (k : string) (v : json) (st st' : Storage.t) :
  Storage.setItem k v st = Some st' -> Storage.getItem k st' = Some v.
Proof.
  unfold Storage.setItem, Storage.getItem.
  destruct (Storage.accepts st (Storage.items st) k v); [| discriminate].
  intros H. injection H as <-. simpl. now rewrite String.eqb_refl.
Qed.

Lemma find_filter_other (k k' : string) (items : list (string * json)) :
  k <> k' ->
  find (fun p => fst p =? k) (filter (fun p => negb (fst p =? k')) items)
  = find (fun p => fst p =? k) items.
Proof.
  intros Hne. induction items as [| [k0 v0] items IH]; simpl.
  - reflexivity.
  - destruct (String.eqb_spec k0 k') as [-> | Hk0]; simpl.
    + destruct (String.eqb_spec k' k) as [E | _]; [congruence | exact IH].
    + destruct (String.eqb_spec k0 k); [reflexivity | exact IH].
Qed.

Lemma getItem_setItem_other (k k' : string) (v : json) (st st' : Storage.t) :
  k <> k' -> Storage.setItem k' v st = Some st' ->
  Storage.getItem k st' = Storage.getItem k st.
Proof.
  intros Hne. unfold Storage.setItem, Storage.getItem.
  destruct (Storage.accepts st (Storage.items st) k' v); [| discriminate].
  intros H. injection H as <-. simpl.
  destruct (String.eqb_spec k' k) as [E | _]; [congruence |].
  now rewrite find_filter_other.
Qed.

Lemma setItem_writable (k : string) (v : json) (st : Storage.t) :
  writable st ->
  exists st', Storage.setItem k v st = Some st' /\ writable st'.
Proof.
  intros Hw. unfold Storage.setItem. rewrite Hw.
  eexists. split; [reflexivity |]. exact Hw.
Qed.

Lemma written_accepted (k : string) (v : json) (st : Storage.t) :
  Storage.accepts st (Storage.items st) k v = true ->
  Storage.getItem k (written k v st) = Some v.
Proof.
  intros H. unfold written.
  destruct (Storage.setItem k v st) as [st' |] eqn:Hset.
  - exact (getItem_setItem _ _ _ _ Hset).
  - unfold Storage.setItem in Hset. rewrite H in Hset. discriminate.
Qed.

Lemma written_refused (k : string) (v : json) (st : Storage.t) :
  Storage.accepts st (Storage.items st) k v = false -> written k v st = st.
Proof. intros H. unfold written, Storage.setItem. now rewrite H. Qed.

Lemma written_other (k k' : string) (v : json) (st : Storage.t) :
  k' <> k -> Storage.getItem k' (written k v st) = Storage.getItem k' st.
Proof.
  intros Hne. unfold written.
  destruct (Storage.setItem k v st) as [st' |] eqn:Hset; [| reflexivity].
  exact (getItem_setItem_other _ _ _ _ _ Hne Hset).
Qed.

Lemma saveState_written (app : GestorApp) :
  localStorage (saveState app)
  = written "gestor_app_state" (AppState.toJSON (current app)) (localStorage app).
Proof. unfold saveState, written. now destruct (Storage.setItem _ _ _). Qed.

Lemma saveSnapshots_written (app : GestorApp) :
  localStorage (saveSnapshots app)
  = written "gestor_app_snapshots"
            (JArray (map (Snapshot.toJSON (heap app)) (snapshots app)))
            (localStorage app).
Proof. unfold saveSnapshots, written. now destruct (Storage.setItem _ _ _). Qed.

(** C10, as the code has it. Once the wipe is confirmed, the confirmation
    field holding exactly [ZERAR], the live state is the empty triple and
    the snapshot collection is empty, and each of the two is written to the
    storage under its key, the state first. A write that the storage accepts
    is kept; a write that it refuses is dropped (the exception is caught),
    and the key holds what it held before. With any other text in the field
    the button stays disabled and nothing is wiped. *)
Theorem wipe_clears_state_and_snapshots (app : GestorApp) :
  let wiped := wipeClick (wipeInput "ZERAR" (showWipeDataConfirmation app)) in
  let st0 := localStorage app in
  let st1 := written "gestor_app_state" (AppState.toJSON getInitialState) st0 in
  current wiped = getInitialState
  /\ current wiped = AppState.mk [] [] []
  /\ snapshots wiped = []
  /\ modal wiped = AlertModal "Todos os dados foram apagados." "Operação Concluída"
  /\ localStorage wiped = written "gestor_app_snapshots" (JArray []) st1
  /\ (Storage.accepts st0 (Storage.items st0) "gestor_app_state"
                      (AppState.toJSON getInitialState) = true ->
      Storage.getItem "gestor_app_state" (localStorage wiped)
      = Some (AppState.toJSON getInitialState))
  /\ (Storage.accepts st0 (Storage.items st0) "gestor_app_state"
                      (AppState.toJSON getInitialState) = false ->
      Storage.getItem "gestor_app_state" (localStorage wiped)
      = Storage.getItem "gestor_app_state" st0)
  /\ (Storage.accepts st1 (Storage.items st1) "gestor_app_snapshots" (JArray []) = true ->
      Storage.getItem "gestor_app_snapshots" (localStorage wiped) = Some (JArray []))
  /\ (Storage.accepts st1 (Storage.items st1) "gestor_app_snapshots" (JArray []) = false ->
      Storage.getItem "gestor_app_snapshots" (localStorage wiped)
      = Storage.getItem "gestor_app_snapshots" st0)
  /\ (forall value, value <> "ZERAR" ->
      wipeClick (wipeInput value (showWipeDataConfirmation app))
      = wipeInput value (showWipeDataConfirmation app)).
Proof.
  cbv zeta.
  unfold showWipeDataConfirmation, wipeInput, wipeClick; simpl modal.
  cbv iota beta. simpl (negb _). cbv iota beta. simpl modal. cbv iota beta.
  unfold alloc.
  set (app0 := set_state _ _ _).
  assert (Hcur0 : current app0 = getInitialState).
  { subst app0. unfold current; simpl.
    apply (deref_alloc_new getInitialState (heap app)). }
  destruct (current_saveState app0) as (Hh & Hs & _).
  pose proof (saveState_written app0) as Hst1. rewrite Hcur0 in Hst1.
  change (localStorage app0) with (localStorage app) in Hst1.
  set (app1 := saveState app0) in *.
  destruct (saveSnapshots_fields (set_snapshots [] app1)) as (Hh2 & Hs2 & Hsn2 & _).
  pose proof (saveSnapshots_written (set_snapshots [] app1)) as Hst2.
  change (localStorage (set_snapshots [] app1)) with (localStorage app1) in Hst2.
  change (snapshots (set_snapshots [] app1)) with (@nil Snapshot.t) in Hst2.
  simpl map in Hst2. rewrite Hst1 in Hst2.
  set (app2 := saveSnapshots (set_snapshots [] app1)) in *.
  change (localStorage (navigateTo "painel"
            (showAlertModal "Todos os dados foram apagados." "Operação Concluída"
               (hideModal app2)))) with (localStorage app2).
  rewrite Hst2.
  assert (Hcur : current (navigateTo "painel"
                   (showAlertModal "Todos os dados foram apagados." "Operação Concluída"
                      (hideModal app2))) = getInitialState).
  { unfold current; simpl. rewrite Hh2, Hs2; simpl. rewrite Hh, Hs. exact Hcur0. }
  split; [exact Hcur |]. split; [exact Hcur |].
  split; [simpl; exact Hsn2 |].
  split; [reflexivity |].
  split; [reflexivity |].
  split; [| split; [| split; [| split]]].
  - intros Hyes.
    rewrite written_other by (intro E; discriminate E).
    now apply written_accepted.
  - intros Hno.
    rewrite written_other by (intro E; discriminate E).
    now rewrite written_refused.
  - intros Hyes. now apply written_accepted.
  - intros Hno. rewrite (written_refused _ _ _ Hno).
    apply written_other. intro E; discriminate E.
  - intros value Hne. apply String.eqb_neq in Hne. now rewrite Hne.
Qed.

Lemma wipe_clears_state_and_snapshots_witness :
  let wiped := wipeClick (wipeInput "ZERAR" (showWipeDataConfirmation withSnapshots)) in
  let refused := wipeClick (wipeInput "ZERAR" (showWipeDataConfirmation refusedApp)) in
  let kept := wipeClick (wipeInput "zerar" (showWipeDataConfirmation withSnapshots)) in
  List.length (snapshots withSnapshots) = 2
  /\ snapshots wiped = []
  /\ Storage.getItem "gestor_app_state" (localStorage wiped)
     = Some (AppState.toJSON getInitialState)
  /\ Storage.getItem "gestor_app_snapshots" (localStorage wiped) = Some (JArray [])
  /\ Storage.getItem "gestor_app_state" (localStorage refused)
     = Storage.getItem "gestor_app_state" (localStorage refusedApp)
  /\ Storage.getItem "gestor_app_snapshots" (localStorage refused)
     = Storage.getItem "gestor_app_snapshots" (localStorage refusedApp)
  /\ kept = wipeInput "zerar" (showWipeDataConfirmation withSnapshots).
Proof.
  pose proof (wipe_clears_state_and_snapshots withSnapshots) as H. cbv zeta in H.
  destruct H as (_ & _ & Hsnapshots & _ & _ & Hstate & _ & Hsaved & _ & Hother).
  pose proof (wipe_clears_state_and_snapshots refusedApp) as R. cbv zeta in R.
  destruct R as (_ & _ & _ & _ & _ & _ & Hstate' & _ & Hsaved' & _).
  split; [reflexivity |]. split; [exact Hsnapshots |].
  split; [apply Hstate; reflexivity |]. split; [apply Hsaved; reflexivity |].
  split; [apply Hstate'; reflexivity |]. split; [apply Hsaved'; reflexivity |].
  apply Hother. intro E; discriminate E.
Defined.

(** C10, as stated, fails: the two values are persisted only when the
    storage takes the writes. On a storage that refuses them the wipe empties
    the state and the snapshots in memory, shows its alert, and leaves both
    keys as they were: the next start reads the data back. *)
Lemma wipe_is_not_persisted_when_the_storage_refuses :
  let wiped := wipeClick (wipeInput "ZERAR" (showWipeDataConfirmation refusedApp)) in
  current wiped = getInitialState
  /\ snapshots wiped = []
  /\ modal wiped = AlertModal "Todos os dados foram apagados." "Operação Concluída"
  /\ Storage.getItem "gestor_app_state" (localStorage wiped)
     = Some (AppState.toJSON (current refusedApp))
  /\ option_map (fun s => map Client.name (AppState.clients s))
                (loadState (getItemText "gestor_app_state" (localStorage wiped)))
     = Some ["Ana"; "Bia"]
  /\ Storage.getItem "gestor_app_snapshots" (localStorage wiped)
     = Storage.getItem "gestor_app_snapshots" (localStorage refusedApp).
Proof. vm_compute. repeat split. Qed.

(** ** Totals *)

Lemma fold_account (periodFilter : option string) (l : list Transaction.t)
    (acc : Summary) :
  fold_left (account periodFilter) l acc
  = mkSummary
      (fold_left (fun a t => (a + Transaction.amount t)%float)
                 (filter (inScope periodFilter) l) (balance acc))
      (fold_left (fun a t => (a + Transaction.amount t)%float)
                 (filter (is_type TransactionType.receita)
                         (filter (inScope periodFilter) l)) (revenue acc))
      (fold_left (fun a t => (a + Transaction.amount t)%float)
                 (filter (is_type TransactionType.despesa)
                         (filter (inScope periodFilter) l)) (expenses acc)).
Proof.
  revert acc. induction l as [| t l IH]; intros acc; simpl.
  - now destruct acc.
  - rewrite IH. unfold account.
    destruct (inScope periodFilter t); simpl; [| reflexivity].
    unfold is_type. destruct (Transaction.type t); reflexivity.
Qed.

Lemma totals_reduce (s : AppState.t) (periodFilter : option string) :
  totals s periodFilter
  = mkSummary
      (reduce_amount (filter (inScope periodFilter) (AppState.transactions s)))
      (reduce_amount (filter (is_type TransactionType.receita)
                             (filter (inScope periodFilter) (AppState.transactions s))))
      (reduce_amount (filter (is_type TransactionType.despesa)
                             (filter (inScope periodFilter) (AppState.transactions s)))).
Proof. unfold totals. now rewrite fold_account. Qed.

Lemma filter_all {A : Type} (p : A -> bool) (l : list A) :
  (forall a, p a = true) -> filter p l = l.
Proof.
  intros H. induction l as [| a l IH]; simpl; [reflexivity |].
  now rewrite H, IH.
Qed.

Lemma prefix_empty (s : string) : String.prefix "" s = true.
Proof. destruct s; reflexivity. Qed.

(** C6. [calculateTotals] returns, for the month and for the whole set, the
    totals of the specification: the balance is the sum of the amounts in
    scope, the revenue the sum of those of type revenue, the expenses the
    sum of those of type expense (a negative magnitude); the scope of a
    month is the transactions whose date begins with it, and the unscoped
    totals cover all transactions. For the state of the example, the month
    [2024-05] gives [-50, 0, -50] and the month [2024-06] gives [0, 0, 0]. *)
Theorem calculateTotals_totals (app : GestorApp) (month : option string) :
  calculateTotals month app
  = mkTotals (balance (totals (current app) None))
             (revenue (totals (current app) None))
             (expenses (totals (current app) None))
             (balance (totals (current app) month))
             (revenue (totals (current app) month))
             (expenses (totals (current app) month))
  /\ (current app = exampleState ->
      let may := calculateTotals (Some "2024-05") app in
      let june := calculateTotals (Some "2024-06") app in
      mkSummary (monthBalance may) (monthRevenue may) (monthExpenses may)
      = mkSummary (-50)%float 0%float (-50)%float
      /\ mkSummary (monthBalance june) (monthRevenue june) (monthExpenses june)
         = mkSummary 0%float 0%float 0%float
      /\ mkSummary (totalBalance june) (totalRevenue june) (totalExpenses june)
         = mkSummary (-50)%float 0%float (-50)%float).
Proof.
  split.
  - rewrite !totals_reduce. simpl. unfold calculateTotals.
    rewrite (filter_all (inScope None)) by reflexivity.
    destruct month as [m |]; simpl.
    + destruct m as [| c m]; simpl truthy; cbv iota.
      * rewrite (filter_all (fun t => String.prefix "" (Transaction.date t)))
          by (intros t; apply prefix_empty).
        reflexivity.
      * reflexivity.
    + rewrite (filter_all (fun _ => true)) by reflexivity. reflexivity.
  - intros Hex. unfold calculateTotals. rewrite Hex. vm_compute. auto.
Qed.

Lemma calculateTotals_totals_witness :
  let may := calculateTotals (Some "2024-05") exampleApp in
  let june := calculateTotals (Some "2024-06") exampleApp in
  mkSummary (monthBalance may) (monthRevenue may) (monthExpenses may)
  = mkSummary (-50)%float 0%float (-50)%float
  /\ mkSummary (monthBalance june) (monthRevenue june) (monthExpenses june)
     = mkSummary 0%float 0%float 0%float
  /\ mkSummary (totalBalance june) (totalRevenue june) (totalExpenses june)
     = mkSummary (-50)%float 0%float (-50)%float.
Proof.
  apply (calculateTotals_totals exampleApp None). reflexivity.
Defined.

(** ** The transaction form *)

(** C9 fails on the code. The form accepts a negative value; with it an
    expense is stored with a positive amount: the sign does not agree with
    the type. *)
Theorem form_negative_value_breaks_sign (parseFloat : string -> number) :
  parseFloat "-5" = (-5)%float ->
  let app' :=
    handleTransactionFormSubmit parseFloat "Estorno" "-5" TransactionType.despesa
                                "2024-05-10" 1700000000000 firstRun in
  AppState.transactions (current app')
  = [Transaction.mk "tx_1700000000000" "Estorno" 5%float "2024-05-10"
                    TransactionType.despesa]
  /\ forallb signAgrees (AppState.transactions (current app')) = false.
Proof.
  intros Hparse. unfold handleTransactionFormSubmit.
  cbn [truthy negb orb editingTransactionId firstRun TransactionType.eqb].
  match goal with |- context [setState (arrow ?f) ?a] =>
    destruct (setState_arrow f a) as (Hc & _)
  end.
  rewrite Hc, Hparse. split; vm_compute; reflexivity.
Qed.

Lemma form_negative_value_breaks_sign_witness :
  let app' :=
    handleTransactionFormSubmit parseFloat_minus5 "Estorno" "-5"
                                TransactionType.despesa
                                "2024-05-10" 1700000000000 firstRun in
  AppState.transactions (current app')
  = [Transaction.mk "tx_1700000000000" "Estorno" 5%float "2024-05-10"
                    TransactionType.despesa]
  /\ forallb signAgrees (AppState.transactions (current app')) = false.
Proof.
  apply (form_negative_value_breaks_sign parseFloat_minus5). reflexivity.
Defined.

(** ** Snapshot ids *)

Lemma string_of_Z_parse (z : Z) :
  option_map Z.of_int (NilZero.int_of_string (string_of_Z z)) = Some z.
Proof.
  unfold string_of_Z.
  rewrite NilZero.isi.
  - simpl. now rewrite DecimalZ.of_to.
  - destruct z; simpl; try discriminate.
    intros [= H]. now apply (Unsigned.to_uint_nonnil p).
  - destruct z; simpl; try discriminate.
    intros [= H]. now apply (Unsigned.to_uint_nonnil p).
Qed.

Lemma string_of_Z_injective (a b : Z) : string_of_Z a = string_of_Z b -> a = b.
Proof.
  intros H. generalize (string_of_Z_parse a). rewrite H, string_of_Z_parse.
  now intros [= ->].
Qed.

Lemma snapshotId_injective (a b : Z) : snapshotId a = snapshotId b -> a = b.
Proof.
  unfold snapshotId. intros H. apply string_of_Z_injective.
  now injection H.
Qed.

Lemma find_last (id : string) (l : list Snapshot.t) (sn : Snapshot.t) :
  (forall old, In old l -> Snapshot.id old <> id) ->
  Snapshot.id sn = id ->
  find (fun s => Snapshot.id s =? id) (l ++ [sn]) = Some sn.
Proof.
  intros Hfresh Hid. induction l as [| s l IH]; simpl.
  - now rewrite Hid, String.eqb_refl.
  - destruct (String.eqb_spec (Snapshot.id s) id) as [E | _].
    + exfalso. exact (Hfresh s (or_introl eq_refl) E).
    + apply IH. intros old Hold. apply Hfresh. now right.
Qed.

(** * Further properties of the code *)

(** ** Saving and starting again *)

Lemma saveState_storage (app : GestorApp) :
  (Storage.accepts (localStorage app) (Storage.items (localStorage app))
                   "gestor_app_state" (AppState.toJSON (current app)) = true ->
   Storage.getItem "gestor_app_state" (localStorage (saveState app))
   = Some (AppState.toJSON (current app)))
  /\ (Storage.accepts (localStorage app) (Storage.items (localStorage app))
                      "gestor_app_state" (AppState.toJSON (current app)) = false ->
      localStorage (saveState app) = localStorage app)
  /\ Storage.getItem "gestor_app_snapshots" (localStorage (saveState app))
     = Storage.getItem "gestor_app_snapshots" (localStorage app).
Proof.
  unfold saveState.
  destruct (Storage.setItem "gestor_app_state" (AppState.toJSON (current app))
                            (localStorage app)) as [st |] eqn:Hset.
  - pose proof Hset as Hacc. unfold Storage.setItem in Hacc.
    destruct (Storage.accepts _ _ _ _); [| discriminate]. simpl.
    split; [intros _; now apply (getItem_setItem _ _ _ _ Hset) |].
    split; [discriminate |].
    apply (getItem_setItem_other "gestor_app_snapshots" "gestor_app_state"
             _ _ _ ltac:(intro E; discriminate E) Hset).
  - unfold Storage.setItem in Hset.
    destruct (Storage.accepts _ _ _ _); [discriminate |].
    repeat split; try reflexivity. discriminate.
Qed.

(** X1. [setState] always installs the state its updater returns, whether
    the storage takes the write or not. When the storage accepts it, the key
    [gestor_app_state] holds the JSON of the new state; when it refuses, the
    storage is left as it was. The stored snapshots are never touched. *)
Theorem setState_advances_and_saves (u : Updater) (app : GestorApp) :
  let next := setState u app in
  heap next = fst (u (heap app) (state app))
  /\ state next = snd (u (heap app) (state app))
  /\ (Storage.accepts (localStorage app) (Storage.items (localStorage app))
                      "gestor_app_state" (AppState.toJSON (current next)) = true ->
      Storage.getItem "gestor_app_state" (localStorage next)
      = Some (AppState.toJSON (current next)))
  /\ (Storage.accepts (localStorage app) (Storage.items (localStorage app))
                      "gestor_app_state" (AppState.toJSON (current next)) = false ->
      localStorage next = localStorage app)
  /\ Storage.getItem "gestor_app_snapshots" (localStorage next)
     = Storage.getItem "gestor_app_snapshots" (localStorage app).
Proof.
  destruct (setState_fields u app) as (H1 & H2 & _).
  split; [exact H1 |]. split; [exact H2 |].
  unfold setState, current in *.
  destruct (u (heap app) (state app)) as [h next]. simpl in *.
  destruct (current_saveState (set_state h next app)) as (Hh & Hs & _).
  rewrite Hh, Hs. simpl.
  exact (saveState_storage (set_state h next app)).
Qed.

Lemma setState_advances_and_saves_witness :
  let app := set_localStorage fullStorage sampleApp in
  let next := setState (arrow (addClient bia)) app in
  localStorage next = localStorage app.
Proof.
  apply (setState_advances_and_saves (arrow (addClient bia))
           (set_localStorage fullStorage sampleApp)).
  reflexivity.
Defined.

(** X2. What [saveState] writes, [loadState] reads back: for a state with
    finite numbers, when the storage accepts the write of that state under
    the key [gestor_app_state], the state loaded from the key is
    structurally equal to the saved one (a zero is read back as [0]). When
    the storage refuses that write, [loadState] reads what the key held
    before. With nothing stored, or with a text that is empty or does not
    parse, [loadState] gives the initial state. *)
Theorem loadState_after_saveState (app : GestorApp) :
  (finiteNumbers (current app) = true ->
   Storage.accepts (localStorage app) (Storage.items (localStorage app))
                   "gestor_app_state" (AppState.toJSON (current app)) = true ->
   loadState (getItemText "gestor_app_state" (localStorage (saveState app)))
   = Some (canonicalState (current app))
   /\ structurallyEqual (canonicalState (current app)) (current app) = true)
  /\ (Storage.accepts (localStorage app) (Storage.items (localStorage app))
                      "gestor_app_state" (AppState.toJSON (current app)) = false ->
      loadState (getItemText "gestor_app_state" (localStorage (saveState app)))
      = loadState (getItemText "gestor_app_state" (localStorage app)))
  /\ loadState None = Some getInitialState
  /\ loadState (Some None) = Some getInitialState
  /\ loadState (getItemText "gestor_app_state" openStorage) = Some getInitialState.
Proof.
  destruct (saveState_storage app) as (Hsaved & Hrefused & _).
  split; [| split].
  - intros Hfin Haccepts. unfold getItemText. rewrite (Hsaved Haccepts). simpl.
    split; [now apply AppState_ofJSON_toJSON |].
    now apply canonicalState_structurallyEqual.
  - intros Hno. now rewrite (Hrefused Hno).
  - repeat split.
Qed.

Lemma loadState_after_saveState_witness :
  (loadState (getItemText "gestor_app_state" (localStorage (saveState sampleApp)))
   = Some (canonicalState (current sampleApp))
   /\ structurallyEqual (canonicalState (current sampleApp)) (current sampleApp) = true)
  /\ loadState (getItemText "gestor_app_state" (localStorage (saveState refusedApp)))
     = loadState (getItemText "gestor_app_state" (localStorage refusedApp))
  /\ loadState (getItemText "gestor_app_state"
                  (localStorage (saveState (set_localStorage fullStorage sampleApp))))
     = Some getInitialState.
Proof.
  split; [| split].
  - apply (loadState_after_saveState sampleApp).
    + vm_compute. reflexivity.
    + reflexivity.
  - apply (loadState_after_saveState refusedApp). reflexivity.
  - rewrite (proj1 (proj2 (loadState_after_saveState
                             (set_localStorage fullStorage sampleApp))) eq_refl).
    reflexivity.
Defined.

(** ** The transaction form, beyond the sign *)

Lemma form_not_filled (parseFloat : string -> number)
    (description amountStr : string) (type : TransactionType.t) (date : string)
    (now : Z) (app : GestorApp) :
  formFilled description amountStr date = false ->
  handleTransactionFormSubmit parseFloat description amountStr type date now app
  = showAlertModal "Por favor, preencha todos os campos." "Aviso" app.
Proof.
  unfold formFilled, handleTransactionFormSubmit. intros H.
  destruct (truthy description), (truthy amountStr), (truthy date);
    simpl in *; try discriminate; reflexivity.
Qed.

Lemma form_add (parseFloat : string -> number)
    (description amountStr : string) (type : TransactionType.t) (date : string)
    (now : Z) (app : GestorApp) :
  formFilled description amountStr date = true ->
  notEditing app ->
  handleTransactionFormSubmit parseFloat description amountStr type date now app
  = setState (arrow (fun prev =>
      with_transactions
        (AppState.transactions prev
         ++ [Transaction.mk ("tx_" ++ string_of_Z now) description
                            (signedAmountOf type (parseFloat amountStr)) date type])
        prev)) app.
Proof.
  unfold formFilled, handleTransactionFormSubmit, notEditing. intros H Hedit.
  destruct (truthy description), (truthy amountStr), (truthy date);
    simpl in *; try discriminate.
  destruct (editingTransactionId app) as [editing |];
    [rewrite Hedit |]; destruct type; reflexivity.
Qed.

Lemma form_edit (parseFloat : string -> number)
    (description amountStr : string) (type : TransactionType.t) (date : string)
    (now : Z) (editing : string) (app : GestorApp) :
  formFilled description amountStr date = true ->
  editingTransactionId app = Some editing ->
  truthy editing = true ->
  handleTransactionFormSubmit parseFloat description amountStr type date now app
  = set_editingTransactionId None
      (setState (arrow (fun prev =>
         with_transactions
           (map (fun tx =>
                   if Transaction.id tx =? editing
                   then Transaction.mk (Transaction.id tx) description
                          (signedAmountOf type (parseFloat amountStr)) date type
                   else tx)
                (AppState.transactions prev))
           prev)) app).
Proof.
  unfold formFilled, handleTransactionFormSubmit. intros H Hedit Htruthy.
  destruct (truthy description), (truthy amountStr), (truthy date);
    simpl in *; try discriminate.
  rewrite Hedit, Htruthy. destruct type; reflexivity.
Qed.

(** X3. A submit of the transaction form with an empty description, amount
    or date only shows an alert. With the fields filled and no edit in
    progress it adds exactly one transaction, at the end of the list, with
    the id [tx_] plus the clock reading, the entered description and date,
    the chosen type and the amount signed by the type; clients,
    opportunities, snapshots and the modal are as before. *)
Theorem form_adds_one_transaction (parseFloat : string -> number)
    (description amountStr : string) (type : TransactionType.t) (date : string)
    (now : Z) (app : GestorApp) :
  let app' :=
    handleTransactionFormSubmit parseFloat description amountStr type date now app in
  (formFilled description amountStr date = false ->
   app' = showAlertModal "Por favor, preencha todos os campos." "Aviso" app)
  /\ (formFilled description amountStr date = true ->
      notEditing app ->
      AppState.transactions (current app')
      = AppState.transactions (current app)
        ++ [Transaction.mk ("tx_" ++ string_of_Z now) description
                           (signedAmountOf type (parseFloat amountStr)) date type]
      /\ AppState.clients (current app') = AppState.clients (current app)
      /\ AppState.opportunities (current app') = AppState.opportunities (current app)
      /\ snapshots app' = snapshots app
      /\ modal app' = modal app).
Proof.
  split.
  - apply form_not_filled.
  - intros Hfilled Hedit. cbv zeta. rewrite (form_add _ _ _ _ _ _ _ Hfilled Hedit).
    match goal with |- context [setState (arrow ?f) ?a] =>
      destruct (setState_arrow f a) as (Hc & Hs & _);
      destruct (setState_fields (arrow f) a) as (_ & _ & _ & Hm & _)
    end.
    rewrite Hc, Hs, Hm. repeat split.
Qed.

Lemma form_adds_one_transaction_witness :
  let app' :=
    handleTransactionFormSubmit parseFloat_example "Venda" "75.5"
                                TransactionType.receita "2024-06-01"
                                1700000000000 sampleApp in
  AppState.transactions (current app')
  = AppState.transactions (current sampleApp)
    ++ [Transaction.mk ("tx_" ++ string_of_Z 1700000000000) "Venda"
                       (signedAmountOf TransactionType.receita
                                       (parseFloat_example "75.5"))
                       "2024-06-01" TransactionType.receita]
  /\ AppState.clients (current app') = AppState.clients (current sampleApp)
  /\ AppState.opportunities (current app') = AppState.opportunities (current sampleApp)
  /\ snapshots app' = snapshots sampleApp
  /\ modal app' = modal sampleApp.
Proof.
  apply (form_adds_one_transaction parseFloat_example "Venda" "75.5"
           TransactionType.receita "2024-06-01" 1700000000000 sampleApp).
  - reflexivity.
  - exact I.
Defined.

Lemma map_edit_ids (editing : string) (new : Transaction.t -> Transaction.t)
    (l : list Transaction.t) :
  (forall tx, Transaction.id (new tx) = Transaction.id tx) ->
  map Transaction.id
      (map (fun tx => if Transaction.id tx =? editing then new tx else tx) l)
  = map Transaction.id l.
Proof.
  intros Hid. rewrite map_map. apply map_ext. intros tx.
  destruct (Transaction.id tx =? editing); [apply Hid | reflexivity].
Qed.

Lemma map_edit_absent (editing : string) (new : Transaction.t -> Transaction.t)
    (l : list Transaction.t) :
  (forall tx, In tx l -> Transaction.id tx <> editing) ->
  map (fun tx => if Transaction.id tx =? editing then new tx else tx) l = l.
Proof.
  induction l as [| tx l IH]; intros H; simpl; [reflexivity |].
  destruct (String.eqb_spec (Transaction.id tx) editing) as [E | _].
  - exfalso. exact (H tx (or_introl eq_refl) E).
  - rewrite IH; [reflexivity |]. intros t Ht. apply H. now right.
Qed.

(** X4. A submit of the filled transaction form while a transaction is
    being edited rewrites the transactions with the edited id, and only
    those: they keep their id and get the entered description, date, type
    and signed amount; every other transaction, the order, the number of
    transactions and the other collections are as before. When no
    transaction has the edited id, the list is unchanged. The statement is
    about the state, which [setState] assigns before it renders; the reset
    of [editingTransactionId] follows that render. *)
Theorem form_edits_in_place (parseFloat : string -> number)
    (description amountStr : string) (type : TransactionType.t) (date : string)
    (now : Z) (editing : string) (app : GestorApp) :
  formFilled description amountStr date = true ->
  editingTransactionId app = Some editing ->
  truthy editing = true ->
  let app' :=
    handleTransactionFormSubmit parseFloat description amountStr type date now app in
  let old := AppState.transactions (current app) in
  let new := AppState.transactions (current app') in
  map Transaction.id new = map Transaction.id old
  /\ List.length new = List.length old
  /\ (forall tx, In tx old -> Transaction.id tx <> editing -> In tx new)
  /\ (forall tx, In tx new ->
        (In tx old /\ Transaction.id tx <> editing)
        \/ (Transaction.id tx = editing
            /\ Transaction.description tx = description
            /\ Transaction.amount tx = signedAmountOf type (parseFloat amountStr)
            /\ Transaction.date tx = date
            /\ Transaction.type tx = type))
  /\ ((forall tx, In tx old -> Transaction.id tx <> editing) -> new = old)
  /\ AppState.clients (current app') = AppState.clients (current app)
  /\ AppState.opportunities (current app') = AppState.opportunities (current app).
Proof.
  intros Hfilled Hedit Htruthy. cbv zeta.
  rewrite (form_edit _ _ _ _ _ _ _ _ Hfilled Hedit Htruthy).
  match goal with |- context [setState (arrow ?f) ?a] =>
    destruct (setState_arrow f a) as (Hc & _);
    change (current (set_editingTransactionId None (setState (arrow f) a)))
      with (current (setState (arrow f) a))
  end.
  rewrite Hc. simpl.
  split; [now apply map_edit_ids |].
  split; [now rewrite length_map |].
  split.
  { intros tx Hin Hne. apply in_map_iff. exists tx. split; [| assumption].
    apply String.eqb_neq in Hne. now rewrite Hne. }
  split.
  { intros tx Hin. apply in_map_iff in Hin. destruct Hin as (t0 & Heq & Hin).
    destruct (String.eqb_spec (Transaction.id t0) editing) as [E | Hne].
    - right. subst tx. simpl. auto.
    - left. subst tx. auto. }
  split; [apply map_edit_absent |].
  repeat split.
Qed.

Lemma form_edits_in_place_witness :
  let app' :=
    handleTransactionFormSubmit parseFloat_example "Aluguel de maio" "75.5"
                                TransactionType.despesa "2024-05-12"
                                1700000000000 editingApp in
  let old := AppState.transactions (current editingApp) in
  let new := AppState.transactions (current app') in
  map Transaction.id new = map Transaction.id old
  /\ List.length new = List.length old
  /\ (forall tx, In tx old -> Transaction.id tx <> "tx_1" -> In tx new)
  /\ (forall tx, In tx new ->
        (In tx old /\ Transaction.id tx <> "tx_1")
        \/ (Transaction.id tx = "tx_1"
            /\ Transaction.description tx = "Aluguel de maio"
            /\ Transaction.amount tx
               = signedAmountOf TransactionType.despesa (parseFloat_example "75.5")
            /\ Transaction.date tx = "2024-05-12"
            /\ Transaction.type tx = TransactionType.despesa))
  /\ ((forall tx, In tx old -> Transaction.id tx <> "tx_1") -> new = old)
  /\ AppState.clients (current app') = AppState.clients (current editingApp)
  /\ AppState.opportunities (current app') = AppState.opportunities (current editingApp).
Proof.
  apply (form_edits_in_place parseFloat_example "Aluguel de maio" "75.5"
           TransactionType.despesa "2024-05-12" 1700000000000 "tx_1" editingApp);
    reflexivity.
Defined.

Lemma leb_zero_opp (x : number) :
  (PrimFloat.zero <=? x)%float = true -> (- x <=? PrimFloat.zero)%float = true.
Proof.
  rewrite !leb_spec, opp_spec.
  change (Prim2SF PrimFloat.zero) with (S754_zero false).
  destruct (Prim2SF x) as [[|] | [|] | | [|] m e]; simpl;
    try discriminate; reflexivity.
Qed.

Lemma signAgrees_signedAmountOf (i d dt : string) (type : TransactionType.t)
    (x : number) :
  (PrimFloat.zero <=? x)%float = true ->
  signAgrees (Transaction.mk i d (signedAmountOf type x) dt type) = true.
Proof.
  intros Hx. unfold signAgrees. destruct type; simpl.
  - exact Hx.
  - now apply leb_zero_opp.
Qed.

(** X5. When the value entered in the transaction form is not negative, a
    submit keeps the agreement of sign and type: if every stored transaction
    agreed before (revenues not negative, expenses not positive), every one
    does after, whether the submit added a transaction or edited some. *)
Theorem form_keeps_sign_agreement (parseFloat : string -> number)
    (description amountStr : string) (type : TransactionType.t) (date : string)
    (now : Z) (app : GestorApp) :
  (PrimFloat.zero <=? parseFloat amountStr)%float = true ->
  forallb signAgrees (AppState.transactions (current app)) = true ->
  forallb signAgrees
    (AppState.transactions
       (current (handleTransactionFormSubmit parseFloat description amountStr
                                             type date now app))) = true.
Proof.
  intros Hpos Hall.
  destruct (formFilled description amountStr date) eqn:Hfilled.
  - assert (Hadd : notEditing app ->
             forallb signAgrees
               (AppState.transactions
                  (current (handleTransactionFormSubmit parseFloat description
                              amountStr type date now app))) = true).
    { intros Hedit. rewrite (form_add _ _ _ _ _ _ _ Hfilled Hedit).
      match goal with |- context [setState (arrow ?f) ?a] =>
        destruct (setState_arrow f a) as (Hc & _)
      end.
      rewrite Hc. simpl. rewrite forallb_app, Hall. simpl.
      now rewrite signAgrees_signedAmountOf. }
    destruct (editingTransactionId app) as [editing |] eqn:Hedit.
    + destruct (truthy editing) eqn:Htruthy.
      * rewrite (form_edit _ _ _ _ _ _ _ _ Hfilled Hedit Htruthy).
        match goal with |- context [setState (arrow ?f) ?a] =>
          destruct (setState_arrow f a) as (Hc & _);
          change (current (set_editingTransactionId None (setState (arrow f) a)))
            with (current (setState (arrow f) a))
        end.
        rewrite Hc. simpl. rewrite forallb_forall in *.
        intros tx Hin. apply in_map_iff in Hin. destruct Hin as (t0 & <- & Hin).
        destruct (Transaction.id t0 =? editing).
        -- now apply signAgrees_signedAmountOf.
        -- now apply Hall.
      * apply Hadd. unfold notEditing. now rewrite Hedit.
    + apply Hadd. unfold notEditing. now rewrite Hedit.
  - now rewrite (form_not_filled _ _ _ _ _ _ _ Hfilled).
Qed.

Lemma form_keeps_sign_agreement_witness :
  forallb signAgrees
    (AppState.transactions
       (current (handleTransactionFormSubmit parseFloat_example "Aluguel de maio"
                   "75.5" TransactionType.despesa "2024-05-12" 1700000000000
                   editingApp))) = true.
Proof.
  apply (form_keeps_sign_agreement parseFloat_example "Aluguel de maio" "75.5"
           TransactionType.despesa "2024-05-12" 1700000000000 editingApp);
    vm_compute; reflexivity.
Defined.

(** ** Totals after a new transaction *)

Lemma reduce_amount_snoc (l : list Transaction.t) (t : Transaction.t) :
  reduce_amount (l ++ [t]) = (reduce_amount l + Transaction.amount t)%float.
Proof. unfold reduce_amount. now rewrite fold_left_app. Qed.

Lemma filter_snoc {A : Type} (p : A -> bool) (l : list A) (a : A) :
  filter p (l ++ [a]) = filter p l ++ (if p a then [a] else []).
Proof. rewrite filter_app. reflexivity. Qed.

Lemma reduce_filter_snoc (p : Transaction.t -> bool) (l : list Transaction.t)
    (t : Transaction.t) :
  reduce_amount (filter p (l ++ [t]))
  = if p t then (reduce_amount (filter p l) + Transaction.amount t)%float
    else reduce_amount (filter p l).
Proof.
  rewrite filter_snoc. destruct (p t).
  - apply reduce_amount_snoc.
  - now rewrite app_nil_r.
Qed.

Lemma calculateTotals_fields (month : option string) (app : GestorApp) :
  calculateTotals month app
  = let all := AppState.transactions (current app) in
    let scope := filter (inScope month) all in
    mkTotals (reduce_amount all)
             (reduce_amount (filter (is_type TransactionType.receita) all))
             (reduce_amount (filter (is_type TransactionType.despesa) all))
             (reduce_amount scope)
             (reduce_amount (filter (is_type TransactionType.receita) scope))
             (reduce_amount (filter (is_type TransactionType.despesa) scope)).
Proof.
  unfold calculateTotals. cbv zeta.
  destruct month as [[| c m] |]; simpl truthy; cbv iota.
  - rewrite (filter_all (inScope (Some ""))) by (intros t; apply prefix_empty).
    reflexivity.
  - reflexivity.
  - rewrite (filter_all (inScope None)) by reflexivity. reflexivity.
Qed.

(** X6. Adding a transaction through the form moves the totals by exactly
    its signed amount: the total balance is the former one plus the amount,
    the total of its type (revenue or expenses) likewise and the other total
    not at all; for a month, the same holds when the date of the transaction
    begins with the month, and nothing changes when it does not. *)
Theorem totals_after_new_transaction (parseFloat : string -> number)
    (description amountStr : string) (type : TransactionType.t) (date : string)
    (now : Z) (month : option string) (app : GestorApp) :
  formFilled description amountStr date = true ->
  notEditing app ->
  let amount := signedAmountOf type (parseFloat amountStr) in
  let before := calculateTotals month app in
  let after :=
    calculateTotals month
      (handleTransactionFormSubmit parseFloat description amountStr type date now app) in
  let inMonth :=
    match month with Some m => String.prefix m date | None => true end in
  totalBalance after = (totalBalance before + amount)%float
  /\ totalRevenue after
     = match type with
       | TransactionType.receita => (totalRevenue before + amount)%float
       | TransactionType.despesa => totalRevenue before
       end
  /\ totalExpenses after
     = match type with
       | TransactionType.receita => totalExpenses before
       | TransactionType.despesa => (totalExpenses before + amount)%float
       end
  /\ monthBalance after
     = (if inMonth then (monthBalance before + amount)%float else monthBalance before)
  /\ monthRevenue after
     = match type with
       | TransactionType.receita =>
           if inMonth then (monthRevenue before + amount)%float
           else monthRevenue before
       | TransactionType.despesa => monthRevenue before
       end
  /\ monthExpenses after
     = match type with
       | TransactionType.receita => monthExpenses before
       | TransactionType.despesa =>
           if inMonth then (monthExpenses before + amount)%float
           else monthExpenses before
       end.
Proof.
  intros Hfilled Hedit. cbv zeta.
  rewrite !calculateTotals_fields. cbv zeta.
  rewrite (form_add _ _ _ _ _ _ _ Hfilled Hedit).
  match goal with |- context [setState (arrow ?f) ?a] =>
    destruct (setState_arrow f a) as (Hc & _)
  end.
  rewrite Hc. simpl.
  set (all := AppState.transactions (current app)).
  set (tx := Transaction.mk _ _ _ _ _).
  assert (Hscope : inScope month tx
                   = match month with Some m => String.prefix m date | None => true end)
    by (destruct month; reflexivity).
  rewrite !reduce_amount_snoc, !reduce_filter_snoc, !filter_snoc.
  rewrite Hscope.
  destruct (match month with Some m => String.prefix m date | None => true end);
    rewrite ?app_nil_r, ?reduce_filter_snoc, ?reduce_amount_snoc;
    unfold is_type; subst tx; simpl; destruct type; simpl; repeat split.
Qed.

Lemma totals_after_new_transaction_witness :
  let amount := signedAmountOf TransactionType.receita (parseFloat_example "75.5") in
  let before := calculateTotals (Some "2024-06") sampleApp in
  let after :=
    calculateTotals (Some "2024-06")
      (handleTransactionFormSubmit parseFloat_example "Venda" "75.5"
         TransactionType.receita "2024-06-01" 1700000000000 sampleApp) in
  let inMonth := String.prefix "2024-06" "2024-06-01" in
  totalBalance after = (totalBalance before + amount)%float
  /\ totalRevenue after = (totalRevenue before + amount)%float
  /\ totalExpenses after = totalExpenses before
  /\ monthBalance after
     = (if inMonth then (monthBalance before + amount)%float else monthBalance before)
  /\ monthRevenue after
     = (if inMonth then (monthRevenue before + amount)%float else monthRevenue before)
  /\ monthExpenses after = monthExpenses before.
Proof.
  apply (totals_after_new_transaction parseFloat_example "Venda" "75.5"
           TransactionType.receita "2024-06-01" 1700000000000 (Some "2024-06")
           sampleApp).
  - reflexivity.
  - exact I.
Defined.

(** ** Escaping *)

Lemma list_ascii_of_string_app (a b : string) :
  list_ascii_of_string (a ++ b)%string
  = list_ascii_of_string a ++ list_ascii_of_string b.
Proof. induction a as [| c a IH]; simpl; [reflexivity | now rewrite IH]. Qed.

Lemma escapeHtml_app (a b : string) :
  escapeHtml (a ++ b)%string = (escapeHtml a ++ escapeHtml b)%string.
Proof.
  induction a as [| c a IH]; simpl; [reflexivity |].
  rewrite IH.
  repeat match goal with |- context [if ?t then _ else _] => destruct t end;
    simpl; reflexivity.
Qed.

(** X7. The text [escapeHtml] returns contains none of [<], [>], the double
    quote and the single quote, whatever the input. A text without any of
    the five replaced characters is returned as it is, and escaping goes
    through concatenation. *)
Theorem escapeHtml_output_opens_no_markup (unsafe : string) :
  forallb (fun c => negb (opensMarkup c)) (list_ascii_of_string (escapeHtml unsafe))
  = true
  /\ (forallb (fun c => negb (escaped c)) (list_ascii_of_string unsafe) = true ->
      escapeHtml unsafe = unsafe)
  /\ (forall rest,
        escapeHtml (unsafe ++ rest)%string
        = (escapeHtml unsafe ++ escapeHtml rest)%string).
Proof.
  split; [| split].
  - induction unsafe as [| c s IH]; simpl; [reflexivity |].
    rewrite list_ascii_of_string_app, forallb_app, IH, andb_true_r.
    destruct (Nat.eqb (nat_of_ascii c) 38) eqn:H38; [reflexivity |].
    destruct (Nat.eqb (nat_of_ascii c) 60) eqn:H60; [reflexivity |].
    destruct (Nat.eqb (nat_of_ascii c) 62) eqn:H62; [reflexivity |].
    destruct (Nat.eqb (nat_of_ascii c) 34) eqn:H34; [reflexivity |].
    destruct (Nat.eqb (nat_of_ascii c) 39) eqn:H39; [reflexivity |].
    simpl. unfold opensMarkup. now rewrite H60, H62, H34, H39.
  - induction unsafe as [| c s IH]; simpl; [reflexivity |].
    rewrite andb_true_iff, negb_true_iff. unfold escaped, opensMarkup.
    intros [Hc Hs]. rewrite !orb_false_iff in Hc.
    destruct Hc as (H38 & ((H60 & H62) & H34) & H39).
    rewrite H38, H60, H62, H34, H39, (IH Hs). reflexivity.
  - intros rest. apply escapeHtml_app.
Qed.

(** ** Deleting a snapshot *)

Lemma find_present (id : string) (l : list Snapshot.t) :
  (exists s, In s l /\ Snapshot.id s = id) ->
  exists s, find (fun s => Snapshot.id s =? id) l = Some s /\ In s l
            /\ Snapshot.id s = id.
Proof.
  intros (s & Hin & Hid).
  destruct (find (fun s => Snapshot.id s =? id) l) as [s' |] eqn:Hfind.
  - exists s'. apply find_some in Hfind. destruct Hfind as [Hin' Heq].
    apply String.eqb_eq in Heq. auto.
  - exfalso. apply (find_none _ _ Hfind) in Hin.
    apply String.eqb_neq in Hin. contradiction.
Qed.

(** X8. Deleting a snapshot that exists asks for confirmation, naming it;
    once confirmed, the collection is the former one without the snapshots of
    that id, the others in their order and with their data, and it is written
    to the storage when the storage accepts it. The live state, its object
    and its stored copy are not touched. Cancelling changes nothing but the
    modal. *)
Theorem handleDeleteSnapshot_removes_only_snapshot (id : string) (app : GestorApp) :
  (exists s, In s (snapshots app) /\ Snapshot.id s = id) ->
  exists (found : Snapshot.t) (app' : GestorApp),
    In found (snapshots app) /\ Snapshot.id found = id
    /\ handleDeleteSnapshot id app
       = showConfirmationModal
           ("Tem certeza que deseja excluir permanentemente o snapshot " ++ dquote
              ++ escapeHtml (Snapshot.name found) ++ dquote ++ "?")
           (DeleteSnapshot id) "Confirmar Ação" app
    /\ clickCancel (handleDeleteSnapshot id app) = hideModal app
    /\ clickConfirm (handleDeleteSnapshot id app) = Some app'
    /\ snapshots app'
       = filter (fun s => negb (Snapshot.id s =? id)) (snapshots app)
    /\ (forall s, In s (snapshots app') <-> In s (snapshots app) /\ Snapshot.id s <> id)
    /\ heap app' = heap app
    /\ state app' = state app
    /\ Storage.getItem "gestor_app_state" (localStorage app')
       = Storage.getItem "gestor_app_state" (localStorage app)
    /\ (writable (localStorage app) ->
        Storage.getItem "gestor_app_snapshots" (localStorage app')
        = Some (JArray (map (Snapshot.toJSON (heap app)) (snapshots app')))).
Proof.
  intros Hex. destruct (find_present id _ Hex) as (found & Hfind & Hin & Hid).
  assert (Hshow : handleDeleteSnapshot id app
                  = showConfirmationModal
                      ("Tem certeza que deseja excluir permanentemente o snapshot "
                         ++ dquote ++ escapeHtml (Snapshot.name found) ++ dquote ++ "?")
                      (DeleteSnapshot id) "Confirmar Ação" app).
  { unfold handleDeleteSnapshot. now rewrite Hfind. }
  exists found. eexists.
  split; [exact Hin |]. split; [exact Hid |]. split; [exact Hshow |].
  rewrite Hshow. split; [reflexivity |].
  unfold clickConfirm, showConfirmationModal; simpl modal; cbv iota beta.
  unfold onConfirm. split; [reflexivity |].
  unfold renderHistorico, showAlertModal.
  set (app1 := set_snapshots _ (hideModal _)).
  destruct (saveSnapshots_fields app1) as (Hh & Hs & Hsn & _).
  simpl. rewrite Hh, Hs, Hsn. subst app1. simpl.
  split; [reflexivity |].
  split. { intros s. rewrite filter_In, negb_true_iff, String.eqb_neq. tauto. }
  split; [reflexivity |]. split; [reflexivity |].
  unfold saveSnapshots. simpl.
  split.
  - destruct (Storage.setItem _ _ _) as [st |] eqn:Hset; simpl; [| reflexivity].
    apply (getItem_setItem_other "gestor_app_state" "gestor_app_snapshots"
             _ _ _ ltac:(intro E; discriminate E) Hset).
  - intros Hw.
    destruct (setItem_writable "gestor_app_snapshots"
                (JArray (map (Snapshot.toJSON (heap app))
                   (filter (fun s => negb (Snapshot.id s =? id)) (snapshots app))))
                (localStorage app) Hw) as (st & Hset & _).
    rewrite Hset. simpl. now apply (getItem_setItem _ _ _ _ Hset).
Qed.

Lemma handleDeleteSnapshot_removes_only_snapshot_witness :
  exists (found : Snapshot.t) (app' : GestorApp),
    In found (snapshots withSnapshots) /\ Snapshot.id found = "snap_1700000000000"
    /\ handleDeleteSnapshot "snap_1700000000000" withSnapshots
       = showConfirmationModal
           ("Tem certeza que deseja excluir permanentemente o snapshot " ++ dquote
              ++ escapeHtml (Snapshot.name found) ++ dquote ++ "?")
           (DeleteSnapshot "snap_1700000000000") "Confirmar Ação" withSnapshots
    /\ clickCancel (handleDeleteSnapshot "snap_1700000000000" withSnapshots)
       = hideModal withSnapshots
    /\ clickConfirm (handleDeleteSnapshot "snap_1700000000000" withSnapshots)
       = Some app'
    /\ snapshots app'
       = filter (fun s => negb (Snapshot.id s =? "snap_1700000000000"))
                (snapshots withSnapshots)
    /\ (forall s, In s (snapshots app')
                  <-> In s (snapshots withSnapshots)
                      /\ Snapshot.id s <> "snap_1700000000000")
    /\ heap app' = heap withSnapshots
    /\ state app' = state withSnapshots
    /\ Storage.getItem "gestor_app_state" (localStorage app')
       = Storage.getItem "gestor_app_state" (localStorage withSnapshots)
    /\ (writable (localStorage withSnapshots) ->
        Storage.getItem "gestor_app_snapshots" (localStorage app')
        = Some (JArray (map (Snapshot.toJSON (heap withSnapshots)) (snapshots app')))).
Proof.
  apply (handleDeleteSnapshot_removes_only_snapshot "snap_1700000000000" withSnapshots).
  eexists. split; [left; reflexivity | reflexivity].
Defined.

(** ** Importing a backup *)

Lemma assign_fields (s : AppState.t) (message title screen : string)
    (app : GestorApp) :
  let app' :=
    navigateTo screen
      (showAlertModal message title
        (saveState (set_state (fst (alloc s (heap app)))
                              (snd (alloc s (heap app))) app))) in
  heap app' = heap app ++ [s]
  /\ state app' = List.length (heap app)
  /\ snapshots app' = snapshots app
  /\ modal app' = AlertModal message title
  /\ activeScreen app' = screen
  /\ Storage.getItem "gestor_app_snapshots" (localStorage app')
     = Storage.getItem "gestor_app_snapshots" (localStorage app).
Proof.
  cbv zeta. unfold navigateTo, showAlertModal, alloc. simpl.
  set (app1 := set_state _ _ app).
  destruct (current_saveState app1) as (H1 & H2 & H3 & _).
  destruct (saveState_storage app1) as (_ & _ & H4).
  rewrite H1, H2, H3, H4. subst app1. simpl. repeat split.
Qed.

Lemma onConfirm_LoadBackup_fields (doc : json) (s : AppState.t) (app : GestorApp) :
  AppState.ofJSON doc = Some s ->
  exists imported,
    onConfirm (LoadBackup doc) app = Some imported
    /\ current imported = s
    /\ heap imported = heap app ++ [s]
    /\ state imported = List.length (heap app)
    /\ snapshots imported = snapshots app
    /\ modal imported = AlertModal "Backup carregado com sucesso!" "Sucesso"
    /\ activeScreen imported = "painel"
    /\ Storage.getItem "gestor_app_snapshots" (localStorage imported)
       = Storage.getItem "gestor_app_snapshots" (localStorage app).
Proof.
  intros Hdoc. unfold onConfirm. rewrite Hdoc.
  eexists. split; [reflexivity |].
  split; [apply assign_current |].
  apply (assign_fields s "Backup carregado com sucesso!" "Sucesso" "painel" app).
Qed.

(** X9. An accepted backup is not applied by itself. For a document with
    the three keys, [loadBackup] only asks for confirmation: until then the
    state and the storage are as before, and Cancelar leaves all as it was.
    Once confirmed, the document, read as a state, is the live state, as a
    new object; the snapshots, the objects they hold and their stored copy
    are untouched, and the panel is shown. With no file chosen nothing
    happens, and a text that does not parse only raises the read error. *)
Theorem loadBackup_applies_only_when_confirmed
    (doc : json) (s : AppState.t) (app : GestorApp) :
  has_key "transactions" doc = Some true ->
  has_key "clients" doc = Some true ->
  has_key "opportunities" doc = Some true ->
  AppState.ofJSON doc = Some s ->
  let asked := loadBackup (Some (Some doc)) app in
  asked
  = showConfirmationModal
      "Tem certeza que deseja carregar este backup? Todos os dados atuais serão substituídos."
      (LoadBackup doc) "Confirmar Ação" app
  /\ current asked = current app
  /\ localStorage asked = localStorage app
  /\ clickCancel asked = hideModal app
  /\ (exists imported,
        clickConfirm asked = Some imported
        /\ current imported = s
        /\ state imported = List.length (heap app)
        /\ (forall r, r < List.length (heap app) ->
              deref (heap imported) r = deref (heap app) r)
        /\ snapshots imported = snapshots app
        /\ Storage.getItem "gestor_app_snapshots" (localStorage imported)
           = Storage.getItem "gestor_app_snapshots" (localStorage app)
        /\ modal imported = AlertModal "Backup carregado com sucesso!" "Sucesso"
        /\ activeScreen imported = "painel")
  /\ loadBackup None app = app
  /\ loadBackup (Some None) app
     = showAlertModal "Erro ao ler o arquivo de backup." "Erro" app.
Proof.
  intros Ht Hc Ho Hdoc. cbv zeta.
  assert (Hasked : loadBackup (Some (Some doc)) app
                   = showConfirmationModal
                       "Tem certeza que deseja carregar este backup? Todos os dados atuais serão substituídos."
                       (LoadBackup doc) "Confirmar Ação" app).
  { unfold loadBackup, JSON_parse. now rewrite Ht, Hc, Ho. }
  rewrite Hasked. repeat (split; [reflexivity |]).
  split; [| split; reflexivity].
  unfold clickConfirm, showConfirmationModal; simpl modal; cbv iota beta.
  destruct (onConfirm_LoadBackup_fields doc s
              (hideModal (set_modal
                 (ConfirmationModal
                    "Tem certeza que deseja carregar este backup? Todos os dados atuais serão substituídos."
                    "Confirmar Ação" (LoadBackup doc)) app)) Hdoc)
    as (imported & Hrun & Hcur & Hh & Hs & Hsn & Hm & Ha & Hst).
  exists imported. simpl in Hh, Hs, Hsn, Hst.
  split; [exact Hrun |]. split; [exact Hcur |]. split; [exact Hs |].
  split. { intros r Hr. rewrite Hh. unfold deref. now apply app_nth1. }
  auto.
Qed.

Lemma loadBackup_applies_only_when_confirmed_witness :
  let asked := loadBackup (Some (Some (AppState.toJSON exampleState))) withSnapshots in
  asked
  = showConfirmationModal
      "Tem certeza que deseja carregar este backup? Todos os dados atuais serão substituídos."
      (LoadBackup (AppState.toJSON exampleState)) "Confirmar Ação" withSnapshots
  /\ current asked = current withSnapshots
  /\ localStorage asked = localStorage withSnapshots
  /\ clickCancel asked = hideModal withSnapshots
  /\ (exists imported,
        clickConfirm asked = Some imported
        /\ current imported = exampleState
        /\ state imported = List.length (heap withSnapshots)
        /\ (forall r, r < List.length (heap withSnapshots) ->
              deref (heap imported) r = deref (heap withSnapshots) r)
        /\ snapshots imported = snapshots withSnapshots
        /\ Storage.getItem "gestor_app_snapshots" (localStorage imported)
           = Storage.getItem "gestor_app_snapshots" (localStorage withSnapshots)
        /\ modal imported = AlertModal "Backup carregado com sucesso!" "Sucesso"
        /\ activeScreen imported = "painel")
  /\ loadBackup None withSnapshots = withSnapshots
  /\ loadBackup (Some None) withSnapshots
     = showAlertModal "Erro ao ler o arquivo de backup." "Erro" withSnapshots.
Proof.
  apply (loadBackup_applies_only_when_confirmed
           (AppState.toJSON exampleState) exampleState withSnapshots);
    vm_compute; reflexivity.
Defined.

(** ** The pipeline board *)




(** ** Moving a card *)

Lemma Forall2_map_r {A B : Type} (R : A -> B -> Prop) (f : A -> B) (l : list A) :
  (forall a, In a l -> R a (f a)) -> Forall2 R l (map f l).
Proof.
  induction l as [| a l IH]; intros H; simpl; constructor.
  - apply H. now left.
  - apply IH. intros b Hb. apply H. now right.
Qed.

Lemma map_if_absent {A : Type} (p : A -> bool) (f : A -> A) (l : list A) :
  (forall a, In a l -> p a = true -> f a = a) ->
  map (fun a => if p a then f a else a) l = l.
Proof.
  induction l as [| a l IH]; intros H; simpl; [reflexivity |].
  rewrite IH by (intros b Hb; apply H; now right).
  destruct (p a) eqn:Hp; [| reflexivity].
  now rewrite (H a (or_introl eq_refl) Hp).
Qed.

Lemma filter_map_same_key {A : Type} (key : A -> string) (f : A -> A)
    (id : string) (l : list A) :
  (forall a, key (f a) = key a) ->
  filter (fun a => key a =? id) (map f l) = map f (filter (fun a => key a =? id) l).
Proof.
  intros Hkey. induction l as [| a l IH]; simpl; [reflexivity |].
  rewrite Hkey. destruct (key a =? id); simpl; now rewrite IH.
Qed.

(** X11. Dropping a card on a column changes the stage of the
    opportunities with the id of the card to the stage of the column, and
    nothing else: every opportunity keeps its place, id, title, value and
    client; clients, transactions and snapshots are as before. Any stage can
    follow any stage. A drop on the column the card is in leaves the
    opportunities as they are, and no drop changes whether a client can be
    deleted. *)
Theorem dropOpportunity_changes_stage_only
    (opId : string) (target : OpportunityStage.t) (app : GestorApp) :
  let app' := dropOpportunity opId target app in
  Forall2 (movedTo opId target)
          (AppState.opportunities (current app))
          (AppState.opportunities (current app'))
  /\ (forall op, In op (AppState.opportunities (current app')) ->
        Opportunity.id op = opId -> Opportunity.stage op = target)
  /\ ((forall op, In op (AppState.opportunities (current app)) ->
         Opportunity.id op = opId -> Opportunity.stage op = target) ->
      AppState.opportunities (current app') = AppState.opportunities (current app))
  /\ AppState.clients (current app') = AppState.clients (current app)
  /\ AppState.transactions (current app') = AppState.transactions (current app)
  /\ snapshots app' = snapshots app
  /\ (forall id, modal (handleDeleteClient id app') = modal (handleDeleteClient id app)).
Proof.
  cbv zeta. unfold dropOpportunity.
  match goal with |- context [setState (arrow ?f) ?a] =>
    destruct (setState_arrow f a) as (Hc & Hs & _);
    destruct (setState_fields (arrow f) a) as (_ & _ & _ & Hm & _)
  end.
  split; [| split; [| split; [| split; [| split; [| split]]]]].
  - rewrite Hc. simpl. apply Forall2_map_r. intros op _. unfold movedTo.
    destruct (Opportunity.id op =? opId); simpl; auto.
  - rewrite Hc. simpl. intros op Hin Hid. apply in_map_iff in Hin.
    destruct Hin as (o & <- & _).
    destruct (String.eqb_spec (Opportunity.id o) opId) as [_ | Hne];
      [reflexivity | contradiction].
  - intros Hthere. rewrite Hc. simpl. apply map_if_absent.
    intros [i t v c st] Hin Hid. apply String.eqb_eq in Hid.
    rewrite <- (Hthere _ Hin Hid). reflexivity.
  - now rewrite Hc.
  - now rewrite Hc.
  - exact Hs.
  - intros id. unfold handleDeleteClient. rewrite Hc. simpl.
    rewrite (filter_map_same_key Opportunity.clientId), length_map.
    + destruct (Nat.ltb 0 _); reflexivity.
    + intros op. destruct (Opportunity.id op =? opId); reflexivity.
Qed.

(** ** The opportunity and client forms *)

Lemma current_hideModal (app : GestorApp) : current (hideModal app) = current app.
Proof. reflexivity. Qed.

Lemma submitOpportunityForm_create (parseFloat : string -> number)
    (id : option string) (title valueStr clientId : string) (now : Z)
    (app : GestorApp) :
  creating id = true ->
  current (submitOpportunityForm parseFloat id title valueStr clientId now app)
  = with_opportunities
      (AppState.opportunities (current app)
       ++ [Opportunity.mk ("op_" ++ string_of_Z now) title (parseFloat valueStr)
                          clientId OpportunityStage.Lead])
      (current app).
Proof.
  intros Hcreating. unfold submitOpportunityForm. rewrite current_hideModal.
  assert (Hadd : forall a, current (setState (arrow (fun prev =>
              with_opportunities
                (AppState.opportunities prev
                 ++ [Opportunity.mk ("op_" ++ string_of_Z now) title
                       (parseFloat valueStr) clientId OpportunityStage.Lead])
                prev)) a)
            = with_opportunities
                (AppState.opportunities (current a)
                 ++ [Opportunity.mk ("op_" ++ string_of_Z now) title
                       (parseFloat valueStr) clientId OpportunityStage.Lead])
                (current a)).
  { intros a. match goal with |- context [setState (arrow ?f) a] =>
      exact (proj1 (setState_arrow f a)) end. }
  destruct id as [i |]; simpl in Hcreating.
  - apply negb_true_iff in Hcreating. rewrite Hcreating. apply Hadd.
  - apply Hadd.
Qed.

Lemma submitOpportunityForm_edit (parseFloat : string -> number)
    (i title valueStr clientId : string) (now : Z) (app : GestorApp) :
  truthy i = true ->
  current (submitOpportunityForm parseFloat (Some i) title valueStr clientId now app)
  = with_opportunities
      (map (fun o =>
              if Opportunity.id o =? i
              then Opportunity.mk (Opportunity.id o) title (parseFloat valueStr)
                                  clientId (Opportunity.stage o)
              else o)
           (AppState.opportunities (current app)))
      (current app).
Proof.
  intros Htruthy. unfold submitOpportunityForm. rewrite current_hideModal, Htruthy.
  match goal with |- context [setState (arrow ?f) ?a] =>
    exact (proj1 (setState_arrow f a)) end.
Qed.

(** X12. A new opportunity always starts in the stage Lead, at the end of
    the list, with the id [op_] plus the clock reading; an edit through the
    form rewrites title, value and client of the opportunities with the
    edited id and never their id or their stage, and leaves the others, the
    order and the number as they are. Either way clients and transactions
    are untouched and the modal is closed. *)
Theorem submitOpportunityForm_keeps_stage (parseFloat : string -> number)
    (id : option string) (title valueStr clientId : string) (now : Z)
    (app : GestorApp) :
  let app' := submitOpportunityForm parseFloat id title valueStr clientId now app in
  (creating id = true ->
   AppState.opportunities (current app')
   = AppState.opportunities (current app)
     ++ [Opportunity.mk ("op_" ++ string_of_Z now) title (parseFloat valueStr)
                        clientId OpportunityStage.Lead])
  /\ (forall i, id = Some i -> truthy i = true ->
        Forall2 (opportunityEdited i title (parseFloat valueStr) clientId)
                (AppState.opportunities (current app))
                (AppState.opportunities (current app'))
        /\ map Opportunity.stage (AppState.opportunities (current app'))
           = map Opportunity.stage (AppState.opportunities (current app))
        /\ map Opportunity.id (AppState.opportunities (current app'))
           = map Opportunity.id (AppState.opportunities (current app)))
  /\ AppState.clients (current app') = AppState.clients (current app)
  /\ AppState.transactions (current app') = AppState.transactions (current app)
  /\ modal app' = Hidden.
Proof.
  cbv zeta. split; [| split; [| split; [| split]]].
  - intros Hc. now rewrite (submitOpportunityForm_create _ _ _ _ _ _ _ Hc).
  - intros i -> Htruthy. rewrite (submitOpportunityForm_edit _ _ _ _ _ _ _ Htruthy).
    simpl. split; [| split].
    + apply Forall2_map_r. intros o _. unfold opportunityEdited.
      destruct (Opportunity.id o =? i); reflexivity.
    + rewrite map_map. apply map_ext. intros o.
      destruct (Opportunity.id o =? i); reflexivity.
    + rewrite map_map. apply map_ext. intros o.
      destruct (Opportunity.id o =? i); reflexivity.
  - destruct (creating id) eqn:Hc.
    + now rewrite (submitOpportunityForm_create _ _ _ _ _ _ _ Hc).
    + destruct id as [i |]; [| discriminate]. simpl in Hc.
      apply negb_false_iff in Hc.
      now rewrite (submitOpportunityForm_edit _ _ _ _ _ _ _ Hc).
  - destruct (creating id) eqn:Hc.
    + now rewrite (submitOpportunityForm_create _ _ _ _ _ _ _ Hc).
    + destruct id as [i |]; [| discriminate]. simpl in Hc.
      apply negb_false_iff in Hc.
      now rewrite (submitOpportunityForm_edit _ _ _ _ _ _ _ Hc).
  - reflexivity.
Qed.

Lemma submitClientForm_create (id : option string)
    (name company email phone : string) (now : Z) (app : GestorApp) :
  creating id = true ->
  current (submitClientForm id name company email phone now app)
  = with_clients
      (AppState.clients (current app)
       ++ [Client.mk ("cl_" ++ string_of_Z now) name company email phone])
      (current app).
Proof.
  intros Hcreating. unfold submitClientForm. rewrite current_hideModal.
  assert (Hadd : forall a, current (setState (arrow (fun prev =>
              with_clients
                (AppState.clients prev
                 ++ [Client.mk ("cl_" ++ string_of_Z now) name company email phone])
                prev)) a)
            = with_clients
                (AppState.clients (current a)
                 ++ [Client.mk ("cl_" ++ string_of_Z now) name company email phone])
                (current a)).
  { intros a. match goal with |- context [setState (arrow ?f) a] =>
      exact (proj1 (setState_arrow f a)) end. }
  destruct id as [i |]; simpl in Hcreating.
  - apply negb_true_iff in Hcreating. rewrite Hcreating. apply Hadd.
  - apply Hadd.
Qed.

Lemma submitClientForm_edit (i name company email phone : string) (now : Z)
    (app : GestorApp) :
  truthy i = true ->
  current (submitClientForm (Some i) name company email phone now app)
  = with_clients
      (map (fun c =>
              if Client.id c =? i
              then Client.mk (Client.id c) name company email phone
              else c)
           (AppState.clients (current app)))
      (current app).
Proof.
  intros Htruthy. unfold submitClientForm. rewrite current_hideModal, Htruthy.
  match goal with |- context [setState (arrow ?f) ?a] =>
    exact (proj1 (setState_arrow f a)) end.
Qed.

(** X13. A new client is added at the end of the list with the id [cl_]
    plus the clock reading; an edit through the form rewrites name, company,
    email and phone of the clients with the edited id and never an id, so
    the ids of the clients, their order and their number are as before.
    Either way opportunities and transactions are untouched and the modal is
    closed. *)
Theorem submitClientForm_keeps_ids
    (id : option string) (name company email phone : string) (now : Z)
    (app : GestorApp) :
  let app' := submitClientForm id name company email phone now app in
  (creating id = true ->
   AppState.clients (current app')
   = AppState.clients (current app)
     ++ [Client.mk ("cl_" ++ string_of_Z now) name company email phone])
  /\ (forall i, id = Some i -> truthy i = true ->
        Forall2 (clientEdited i name company email phone)
                (AppState.clients (current app))
                (AppState.clients (current app'))
        /\ map Client.id (AppState.clients (current app'))
           = map Client.id (AppState.clients (current app)))
  /\ AppState.opportunities (current app') = AppState.opportunities (current app)
  /\ AppState.transactions (current app') = AppState.transactions (current app)
  /\ modal app' = Hidden.
Proof.
  cbv zeta. split; [| split; [| split; [| split]]].
  - intros Hc. now rewrite (submitClientForm_create _ _ _ _ _ _ _ Hc).
  - intros i -> Htruthy. rewrite (submitClientForm_edit _ _ _ _ _ _ _ Htruthy).
    simpl. split.
    + apply Forall2_map_r. intros c _. unfold clientEdited.
      destruct (Client.id c =? i); reflexivity.
    + rewrite map_map. apply map_ext. intros c.
      destruct (Client.id c =? i); reflexivity.
  - destruct (creating id) eqn:Hc.
    + now rewrite (submitClientForm_create _ _ _ _ _ _ _ Hc).
    + destruct id as [i |]; [| discriminate]. simpl in Hc.
      apply negb_false_iff in Hc.
      now rewrite (submitClientForm_edit _ _ _ _ _ _ _ Hc).
  - destruct (creating id) eqn:Hc.
    + now rewrite (submitClientForm_create _ _ _ _ _ _ _ Hc).
    + destruct id as [i |]; [| discriminate]. simpl in Hc.
      apply negb_false_iff in Hc.
      now rewrite (submitClientForm_edit _ _ _ _ _ _ _ Hc).
  - reflexivity.
Qed.

(** ** Referential integrity over a session *)

Lemma form_keeps_clients_opportunities (parseFloat : string -> number)
    (description amountStr : string) (type : TransactionType.t) (date : string)
    (now : Z) (app : GestorApp) :
  let app' :=
    handleTransactionFormSubmit parseFloat description amountStr type date now app in
  AppState.clients (current app') = AppState.clients (current app)
  /\ AppState.opportunities (current app') = AppState.opportunities (current app).
Proof.
  cbv zeta. destruct (formFilled description amountStr date) eqn:Hfilled.
  - assert (Hnot : notEditing app
                   \/ exists editing, editingTransactionId app = Some editing
                                      /\ truthy editing = true).
    { unfold notEditing. destruct (editingTransactionId app) as [editing |].
      - destruct (truthy editing) eqn:Ht; [right; now exists editing | now left].
      - now left. }
    destruct Hnot as [Hnot | (editing & Hedit & Htruthy)].
    + rewrite (form_add _ _ _ _ _ _ _ Hfilled Hnot).
      match goal with |- context [setState (arrow ?f) app] =>
        rewrite (proj1 (setState_arrow f app)) end.
      split; reflexivity.
    + rewrite (form_edit _ _ _ _ _ _ _ _ Hfilled Hedit Htruthy).
      change (current (set_editingTransactionId None ?a)) with (current a).
      match goal with |- context [setState (arrow ?f) app] =>
        rewrite (proj1 (setState_arrow f app)) end.
      split; reflexivity.
  - rewrite (form_not_filled _ _ _ _ _ _ _ Hfilled). split; reflexivity.
Qed.

Lemma wipe_current (app : GestorApp) :
  current (wipeClick (wipeInput "ZERAR" (showWipeDataConfirmation app)))
  = getInitialState.
Proof.
  unfold showWipeDataConfirmation, wipeInput, wipeClick; simpl modal.
  cbv iota beta. simpl (negb _). cbv iota beta. simpl modal. cbv iota beta.
  unfold alloc.
  set (app0 := set_state _ _ _).
  destruct (current_saveState app0) as (Hh & Hs & _).
  set (app1 := saveState app0) in *.
  destruct (saveSnapshots_fields (set_snapshots [] app1)) as (Hh2 & Hs2 & _).
  unfold current; simpl. rewrite Hh2, Hs2; simpl. rewrite Hh, Hs.
  subst app0; simpl. apply (deref_alloc_new getInitialState (heap app)).
Qed.

Lemma filter_length_zero {A : Type} (p : A -> bool) (l : list A) :
  Nat.ltb 0 (List.length (filter p l)) = false ->
  forall a, In a l -> p a = false.
Proof.
  intros H a Hin. destruct (p a) eqn:Hp; [| reflexivity].
  assert (Hf : In a (filter p l)) by (apply filter_In; now split).
  destruct (filter p l); [contradiction | discriminate].
Qed.

Lemma perform_keeps_integrity (parseFloat : string -> number) (a : Action)
    (app : GestorApp) :
  referentialIntegrity (current app) ->
  offered a app ->
  exists app', perform parseFloat a app = Some app'
               /\ referentialIntegrity (current app').
Proof.
  intros Hint Hoff. destruct a; simpl perform.
  - eexists. split; [reflexivity |].
    destruct (form_keeps_clients_opportunities parseFloat description amountStr
                type date now app) as (Hc & Ho).
    unfold referentialIntegrity. rewrite Hc, Ho. exact Hint.
  - eexists. split; [reflexivity |].
    match goal with |- context [setState (arrow ?f) ?a] =>
      rewrite (proj1 (setState_arrow f a)) end.
    exact Hint.
  - eexists. split; [reflexivity |].
    match goal with |- context [setState (arrow ?f) ?a] =>
      rewrite (proj1 (setState_arrow f a)) end.
    intros op Hop. simpl in Hop. apply filter_In in Hop. destruct Hop as (Hop & _).
    exact (Hint op Hop).
  - unfold handleDeleteClient.
    destruct (Nat.ltb 0 _) eqn:Hguard.
    + eexists. split; [reflexivity |]. exact Hint.
    + eexists. split; [reflexivity |].
      match goal with |- context [setState (arrow ?f) ?a] =>
        rewrite (proj1 (setState_arrow f a)) end.
      intros op Hop. simpl in Hop.
      destruct (Hint op Hop) as (c & Hc & Hid).
      exists c. split; [| exact Hid]. simpl. apply filter_In. split; [exact Hc |].
      apply negb_true_iff. rewrite Hid.
      exact (filter_length_zero _ _ Hguard op Hop).
  - eexists. split; [reflexivity |]. unfold dropOpportunity.
    match goal with |- context [setState (arrow ?f) ?a] =>
      rewrite (proj1 (setState_arrow f a)) end.
    intros op Hop. simpl in Hop. apply in_map_iff in Hop.
    destruct Hop as (o & <- & Ho). destruct (Hint o Ho) as (c & Hc & Hid).
    exists c. split; [exact Hc |].
    destruct (Opportunity.id o =? opId); exact Hid.
  - eexists. split; [reflexivity |]. simpl in Hoff.
    destruct (creating id) eqn:Hcreating.
    + rewrite (submitOpportunityForm_create _ _ _ _ _ _ _ Hcreating).
      intros op Hop. simpl in Hop. apply in_app_iff in Hop.
      destruct Hop as [Hop | [<- | []]]; [exact (Hint op Hop) | exact Hoff].
    + destruct id as [i |]; [| discriminate]. simpl in Hcreating.
      apply negb_false_iff in Hcreating.
      rewrite (submitOpportunityForm_edit _ _ _ _ _ _ _ Hcreating).
      intros op Hop. simpl in Hop. apply in_map_iff in Hop.
      destruct Hop as (o & <- & Ho).
      destruct (Opportunity.id o =? i); [exact Hoff | exact (Hint o Ho)].
  - eexists. split; [reflexivity |].
    destruct (creating id) eqn:Hcreating.
    + rewrite (submitClientForm_create _ _ _ _ _ _ _ Hcreating).
      intros op Hop. destruct (Hint op Hop) as (c & Hc & Hid).
      exists c. split; [| exact Hid]. simpl. apply in_app_iff. now left.
    + destruct id as [i |]; [| discriminate]. simpl in Hcreating.
      apply negb_false_iff in Hcreating.
      rewrite (submitClientForm_edit _ _ _ _ _ _ _ Hcreating).
      intros op Hop. destruct (Hint op Hop) as (c & Hc & Hid).
      eexists. split.
      * simpl. apply in_map_iff. exists c. split; [reflexivity | exact Hc].
      * destruct (Client.id c =? i); exact Hid.
  - eexists. split; [reflexivity |]. rewrite wipe_current.
    intros op [].
Qed.

(** X14. Referential integrity is an invariant of the editing actions. From
    a state in which every opportunity names an existing client, any
    sequence of transaction submits, confirmed deletions of transactions,
    opportunities and clients, card drops, opportunity and client form
    submits and wipes runs to its end and leaves a state in which every
    opportunity names an existing client, provided each opportunity form
    submits a client id of a client that exists at that time (the form's
    select lists exactly those). *)
Theorem session_keeps_referential_integrity (parseFloat : string -> number)
    (actions : list Action) (app : GestorApp) :
  referentialIntegrity (current app) ->
  permitted parseFloat actions app ->
  exists app', run parseFloat actions app = Some app'
               /\ referentialIntegrity (current app').
Proof.
  revert app. induction actions as [| a rest IH]; intros app Hint Hperm.
  - exists app. now split.
  - simpl in Hperm. destruct Hperm as (Hoff & Hrest).
    destruct (perform_keeps_integrity parseFloat a app Hint Hoff)
      as (app1 & Hperform & Hint1).
    simpl. rewrite Hperform in *. exact (IH app1 Hint1 Hrest).
Qed.

Lemma session_keeps_referential_integrity_witness :
  exists app',
    run parseFloat_example
        [SubmitClient None "Bia" "Bolt" "bia@bolt.test" "556" 1700000000001;
         SubmitOpportunity None "Novo" "1200" "cl_1700000000001" 1700000000002;
         DropCard "op_1" OpportunityStage.Ganho;
         ConfirmDeleteClient "cl_1";
         ConfirmDeleteOpportunity "op_1";
         ConfirmDeleteClient "cl_1"]
        sampleApp = Some app'
    /\ referentialIntegrity (current app').
Proof.
  apply (session_keeps_referential_integrity parseFloat_example).
  - intros op [<- | []]. exists ana. split; [now left | reflexivity].
  - vm_compute. repeat split.
    eexists. split; [right; left; reflexivity | reflexivity].
Defined.

(** ** An opportunity and the deletion of its client *)

(** X15. An opportunity created through the form for a client blocks the
    deletion of that client: the attempt only shows an alert and changes
    nothing. When no other opportunity names the client, the confirmed
    deletion of the new opportunity lifts the block: the deletion of the
    client then asks for its confirmation. *)
Theorem new_opportunity_blocks_client_deletion (parseFloat : string -> number)
    (title valueStr cid : string) (now : Z) (app : GestorApp) :
  let app1 := submitOpportunityForm parseFloat None title valueStr cid now app in
  reportsError (handleDeleteClient cid app1)
  /\ current (handleDeleteClient cid app1) = current app1
  /\ clickConfirm (handleDeleteClient cid app1) = Some (handleDeleteClient cid app1)
  /\ ((forall op, In op (AppState.opportunities (current app)) ->
                  Opportunity.clientId op <> cid) ->
      exists app2,
        clickConfirm (handleDeleteOpportunity ("op_" ++ string_of_Z now) app1)
        = Some app2
        /\ AppState.opportunities (current app2)
           = filter (fun o => negb (Opportunity.id o =? "op_" ++ string_of_Z now))
                    (AppState.opportunities (current app))
        /\ handleDeleteClient cid app2
           = showConfirmationModal "Tem certeza que deseja excluir este cliente?"
                                   (DeleteClient cid) "Confirmar Ação" app2).
Proof.
  cbv zeta.
  pose proof (submitOpportunityForm_create parseFloat None title valueStr cid now
                app eq_refl) as Hcur.
  set (app1 := submitOpportunityForm parseFloat None title valueStr cid now app) in *.
  assert (Hblocked : handleDeleteClient cid app1
            = showAlertModal
                "Não é possível excluir um cliente que possui oportunidades associadas."
                "Aviso" app1).
  { unfold handleDeleteClient. rewrite some_reference_filter; [reflexivity |].
    rewrite Hcur. simpl. eexists. split; [apply in_app_iff; right; now left |].
    reflexivity. }
  rewrite Hblocked. split; [| split; [| split]].
  - do 2 eexists. reflexivity.
  - reflexivity.
  - reflexivity.
  - intros Hnone. eexists. split; [reflexivity |].
    match goal with |- context [setState (arrow ?f) ?a] =>
      pose proof (proj1 (setState_arrow f a)) as Hcur2;
      set (app2 := setState (arrow f) a) in * end.
    change (current (hideModal ?a)) with (current a) in Hcur2.
    change (current (handleDeleteOpportunity ?i ?a)) with (current a) in Hcur2.
    rewrite Hcur in Hcur2. simpl in Hcur2.
    rewrite filter_app in Hcur2. simpl in Hcur2.
    rewrite String.eqb_refl in Hcur2. simpl in Hcur2. rewrite app_nil_r in Hcur2.
    split.
    + rewrite Hcur2. reflexivity.
    + unfold handleDeleteClient. rewrite Hcur2. simpl.
      rewrite no_reference_filter; [reflexivity |].
      intros op Hop. apply filter_In in Hop. destruct Hop as (Hop & _).
      exact (Hnone op Hop).
Qed.

Lemma new_opportunity_blocks_client_deletion_witness :
  let app1 :=
    submitOpportunityForm parseFloat_example None "Novo" "1200" "cl_2" 1700000000002
      (setState (arrow (addClient bia)) sampleApp) in
  exists app2,
    clickConfirm (handleDeleteOpportunity ("op_" ++ string_of_Z 1700000000002) app1)
    = Some app2
    /\ AppState.opportunities (current app2)
       = filter (fun o => negb (Opportunity.id o =? "op_" ++ string_of_Z 1700000000002))
                (AppState.opportunities
                   (current (setState (arrow (addClient bia)) sampleApp)))
    /\ handleDeleteClient "cl_2" app2
       = showConfirmationModal "Tem certeza que deseja excluir este cliente?"
                               (DeleteClient "cl_2") "Confirmar Ação" app2.
Proof.
  apply (new_opportunity_blocks_client_deletion parseFloat_example
           "Novo" "1200" "cl_2" 1700000000002
           (setState (arrow (addClient bia)) sampleApp)).
  intros op Hop. vm_compute in Hop. destruct Hop as [<- | []].
  intro E; discriminate E.
Defined.

(** ** The list of snapshots *)

Lemma insertSorted_permutation (a : Snapshot.t) (l : list Snapshot.t) :
  Permutation (insertSorted newer a l) (a :: l).
Proof.
  induction l as [| b rest IH]; simpl; [apply Permutation_refl |].
  destruct (0 <? newer a b)%Z.
  - apply perm_trans with (b :: a :: rest); [now apply perm_skip | apply perm_swap].
  - apply Permutation_refl.
Qed.

Lemma insertSorted_newestFirst (a : Snapshot.t) (l : list Snapshot.t) :
  newestFirst l -> newestFirst (insertSorted newer a l).
Proof.
  unfold newestFirst. induction l as [| b rest IH]; intros Hsorted; simpl.
  - repeat constructor.
  - apply StronglySorted_inv in Hsorted. destruct Hsorted as (Hrest & Hb).
    destruct (Z.ltb_spec 0 (newer a b)) as [Hlt | Hge]; unfold newer in *.
    + constructor; [now apply IH |].
      apply (Permutation_Forall (Permutation_sym (insertSorted_permutation a rest))).
      constructor; [lia | exact Hb].
    + constructor; [now constructor |].
      constructor; [lia |].
      apply (Forall_impl _ (P := fun x => (Snapshot.timestamp x
                                            <= Snapshot.timestamp b)%Z));
        [intros x Hx; lia | exact Hb].
Qed.

Lemma insertSorted_takenAt (t : Z) (a : Snapshot.t) (l : list Snapshot.t) :
  takenAt t (insertSorted newer a l) = takenAt t (a :: l).
Proof.
  unfold takenAt. induction l as [| b rest IH]; simpl; [reflexivity |].
  destruct (Z.ltb_spec 0 (newer a b)) as [Hlt | Hge]; unfold newer in *; simpl.
  - rewrite IH. simpl.
    destruct (Z.eqb_spec (Snapshot.timestamp a) t),
             (Z.eqb_spec (Snapshot.timestamp b) t); try reflexivity; lia.
  - reflexivity.
Qed.

(** X16. The history screen lists every snapshot exactly once, newest
    first, and the snapshots with one timestamp in the order in which the
    collection holds them. *)
Theorem sortedSnapshots_newest_first (app : GestorApp) :
  Permutation (sortedSnapshots app) (snapshots app)
  /\ newestFirst (sortedSnapshots app)
  /\ (forall t, takenAt t (sortedSnapshots app) = takenAt t (snapshots app)).
Proof.
  unfold sortedSnapshots, sort.
  induction (snapshots app) as [| a l (IHp & IHs & IHt)]; simpl.
  - split; [constructor | split; [constructor | reflexivity]].
  - split; [| split].
    + eapply perm_trans; [apply insertSorted_permutation | now apply perm_skip].
    + now apply insertSorted_newestFirst.
    + intros t. rewrite insertSorted_takenAt. unfold takenAt in *. simpl.
      now rewrite IHt.
Qed.

(** ** Reports *)










(** ** Escaping loses nothing *)

Lemma ascii_by_code (c : ascii) (n : nat) :
  Nat.eqb (nat_of_ascii c) n = true -> c = ascii_of_nat n.
Proof.
  intros H. apply Nat.eqb_eq in H. rewrite <- H. symmetry.
  apply ascii_nat_embedding.
Qed.

Lemma escapeHtml_injective (a b : string) :
  escapeHtml a = escapeHtml b -> a = b.
Proof.
  revert b. induction a as [| ca a IH]; intros [| cb b]; simpl.
  - reflexivity.
  - repeat match goal with |- context [if ?t then _ else _] => destruct t end;
      discriminate.
  - repeat match goal with |- context [if ?t then _ else _] => destruct t end;
      discriminate.
  - repeat match goal with
           | |- context [if Nat.eqb (nat_of_ascii ?c) ?n then _ else _] =>
               let E := fresh "E" in
               destruct (Nat.eqb (nat_of_ascii c) n) eqn:E;
               [apply ascii_by_code in E; vm_compute in E; subst c |]
           end;
      simpl; intros H; inversion H; subst;
      try (match goal with
           | E : Nat.eqb _ _ = false |- _ => vm_compute in E; discriminate E
           end);
      f_equal; now apply IH.
Qed.

(** X20. [escapeHtml] loses nothing: two different texts are escaped to
    different texts. In particular a text that already holds an entity is
    escaped once more and does not come out as the text the entity stands
    for. *)
Theorem escapeHtml_distinguishes (a b : string) :
  a <> b -> escapeHtml a <> escapeHtml b.
Proof.
  intros Hne Heq. apply Hne. now apply escapeHtml_injective.
Qed.

Lemma escapeHtml_distinguishes_witness :
  escapeHtml "<b>" <> escapeHtml "&lt;b&gt;".
Proof.
  apply (escapeHtml_distinguishes "<b>" "&lt;b&gt;").
  intro E; discriminate E.
Defined.

(** ** Deleting the transaction under edit *)

(** X21. Deleting a transaction does not end its edit. When the
    transaction under edit is deleted (the confirmation given), the edit
    stays open on an id that no transaction has any more; the next submit of
    the filled form then stores nothing: the transactions are those left by
    the deletion, the edit is closed, and no alert is shown. *)
Theorem deleting_the_edited_transaction_loses_the_edit (parseFloat : string -> number)
    (description amountStr : string) (type : TransactionType.t) (date : string)
    (now : Z) (editing : string) (app : GestorApp) :
  formFilled description amountStr date = true ->
  editingTransactionId app = Some editing ->
  truthy editing = true ->
  exists app1,
    clickConfirm (handleDeleteTransaction editing app) = Some app1
    /\ editingTransactionId app1 = Some editing
    /\ AppState.transactions (current app1)
       = filter (fun t => negb (Transaction.id t =? editing))
                (AppState.transactions (current app))
    /\ (forall tx, In tx (AppState.transactions (current app1)) ->
                   Transaction.id tx <> editing)
    /\ let app2 :=
         handleTransactionFormSubmit parseFloat description amountStr type date now
                                     app1 in
       AppState.transactions (current app2) = AppState.transactions (current app1)
       /\ editingTransactionId app2 = None
       /\ modal app2 = Hidden.
Proof.
  intros Hfilled Hedit Htruthy.
  eexists. split; [reflexivity |].
  match goal with |- context [setState (arrow ?f) ?a] =>
    destruct (setState_arrow f a) as (Hcur & _);
    destruct (setState_fields (arrow f) a) as (_ & _ & _ & Hmodal & _ & Hediting);
    set (app1 := setState (arrow f) a) in *
  end.
  change (editingTransactionId (hideModal (handleDeleteTransaction editing app)))
    with (editingTransactionId app) in Hediting.
  change (modal (hideModal (handleDeleteTransaction editing app)))
    with Hidden in Hmodal.
  change (current (hideModal ?a)) with (current a) in Hcur.
  change (current (handleDeleteTransaction ?i ?a)) with (current a) in Hcur.
  assert (Hgone : forall tx, In tx (AppState.transactions (current app1)) ->
                             Transaction.id tx <> editing).
  { intros tx Hin. rewrite Hcur in Hin. simpl in Hin. apply filter_In in Hin.
    destruct Hin as (_ & Hne). now apply negb_true_iff, String.eqb_neq in Hne. }
  split; [now rewrite Hediting |].
  split; [now rewrite Hcur |].
  split; [exact Hgone |].
  cbv zeta. rewrite Hedit in Hediting.
  rewrite (form_edit _ _ _ _ _ _ _ _ Hfilled Hediting Htruthy).
  match goal with |- context [setState (arrow ?f) app1] =>
    destruct (setState_arrow f app1) as (Hcur2 & _);
    destruct (setState_fields (arrow f) app1) as (_ & _ & _ & Hmodal2 & _);
    change (current (set_editingTransactionId None (setState (arrow f) app1)))
      with (current (setState (arrow f) app1))
  end.
  rewrite Hcur2. split; [| split].
  - simpl. now apply map_edit_absent.
  - reflexivity.
  - change (modal (set_editingTransactionId None ?a)) with (modal a).
    rewrite Hmodal2. exact Hmodal.
Qed.

Lemma deleting_the_edited_transaction_loses_the_edit_witness :
  exists app1,
    clickConfirm (handleDeleteTransaction "tx_1" editingApp) = Some app1
    /\ editingTransactionId app1 = Some "tx_1"
    /\ AppState.transactions (current app1)
       = filter (fun t => negb (Transaction.id t =? "tx_1"))
                (AppState.transactions (current editingApp))
    /\ (forall tx, In tx (AppState.transactions (current app1)) ->
                   Transaction.id tx <> "tx_1")
    /\ let app2 :=
         handleTransactionFormSubmit parseFloat_example "Aluguel de maio" "75.5"
                                     TransactionType.despesa "2024-05-12"
                                     1700000000000 app1 in
       AppState.transactions (current app2) = AppState.transactions (current app1)
       /\ editingTransactionId app2 = None
       /\ modal app2 = Hidden.
Proof.
  apply (deleting_the_edited_transaction_loses_the_edit parseFloat_example
           "Aluguel de maio" "75.5" TransactionType.despesa "2024-05-12"
           1700000000000 "tx_1" editingApp);
    reflexivity.
Defined.

(** * The object graph: creating and restoring snapshots *)

(** ** Lists and the heap *)

Lemma nth_error_window {A : Type} (pre l post : list A) :
  map (nth_error (pre ++ l ++ post)) (seq (List.length pre) (List.length l))
  = map Some l.
Proof.
  revert pre. induction l as [| a l IH]; intros pre; simpl; [reflexivity |].
  f_equal.
  - rewrite nth_error_app2 by lia. now rewrite Nat.sub_diag.
  - specialize (IH (pre ++ [a])).
    rewrite length_app, Nat.add_1_r, <- app_assoc in IH. exact IH.
Qed.

Lemma traverse_compose {A B C : Type} (f : B -> option C) (g : A -> B) (l : list A) :
  traverse (fun a => f (g a)) l = traverse f (map g l).
Proof. induction l as [| a l IH]; simpl; [reflexivity | now rewrite IH]. Qed.

Lemma traverse_ext_in {A B : Type} (f g : A -> option B) (l : list A) :
  (forall a, In a l -> f a = g a) -> traverse f l = traverse g l.
Proof.
  induction l as [| a l IH]; intros H; simpl; [reflexivity |].
  rewrite (H a (or_introl eq_refl)), IH; [reflexivity |].
  intros b Hb. apply H. now right.
Qed.

Lemma length_store (r : ref) (ob : Graph.Object) (h : Graph.Heap) :
  List.length (Graph.store r ob h) = List.length h.
Proof.
  revert r. induction h as [| x h IH]; intros r; destruct r; simpl;
    try reflexivity.
  now rewrite IH.
Qed.

Lemma nth_error_store_same (r : ref) (ob : Graph.Object) (h : Graph.Heap) :
  r < List.length h -> nth_error (Graph.store r ob h) r = Some ob.
Proof.
  revert r. induction h as [| x h IH]; intros r Hr; simpl in Hr; [lia |].
  destruct r; simpl; [reflexivity |]. apply IH. lia.
Qed.

Lemma nth_error_store_other (r r' : ref) (ob : Graph.Object) (h : Graph.Heap) :
  r' <> r -> nth_error (Graph.store r ob h) r' = nth_error h r'.
Proof.
  revert r r'. induction h as [| x h IH]; intros r r' Hne.
  - destruct r; reflexivity.
  - destruct r, r'; simpl; try reflexivity; try congruence.
    apply IH. congruence.
Qed.

(** ** What a state is made of *)

Lemma reach_state (h : Graph.Heap) (r t c o : ref) :
  nth_error h r = Some (Graph.StateObject t c o) ->
  Graph.reach h r = r :: Graph.array h t ++ Graph.array h c ++ Graph.array h o.
Proof. intros H. unfold Graph.reach. now rewrite H. Qed.

Lemma items_agree (h h' : Graph.Heap) (a : ref) :
  nth_error h' a = nth_error h a -> Graph.items h' a = Graph.items h a.
Proof. intros H. unfold Graph.items. now rewrite H. Qed.

Lemma array_agree (h h' : Graph.Heap) (a : ref) :
  nth_error h' a = nth_error h a -> Graph.array h' a = Graph.array h a.
Proof. intros H. unfold Graph.array. now rewrite (items_agree _ _ _ H). Qed.

Lemma readArray_agree {A : Type} (f : Graph.Object -> option A)
    (h h' : Graph.Heap) (a : ref) :
  (forall x, In x (Graph.array h a) -> nth_error h' x = nth_error h x) ->
  Graph.readArray f h' a = Graph.readArray f h a.
Proof.
  intros H. unfold Graph.readArray.
  rewrite (H a (or_introl eq_refl)).
  destruct (nth_error h a) as [[| l | | | |] |] eqn:Ha; try reflexivity.
  apply traverse_ext_in. intros x Hx. unfold Graph.readRecord.
  rewrite H; [reflexivity |]. right. unfold Graph.items. now rewrite Ha.
Qed.

Lemma arrayJSON_agree (h h' : Graph.Heap) (a : ref) :
  (forall x, In x (Graph.array h a) -> nth_error h' x = nth_error h x) ->
  Graph.arrayJSON h' a = Graph.arrayJSON h a.
Proof.
  intros H. unfold Graph.arrayJSON.
  rewrite (items_agree h h' a (H a (or_introl eq_refl))). f_equal.
  apply map_ext_in. intros x Hx. unfold Graph.recordJSON.
  rewrite H; [reflexivity |]. now right.
Qed.

(** A state is read from the objects it is made of, and from no other. *)
Lemma state_agree (h h' : Graph.Heap) (r : ref) :
  (forall x, In x (Graph.reach h r) -> nth_error h' x = nth_error h x) ->
  Graph.reach h' r = Graph.reach h r
  /\ Graph.read h' r = Graph.read h r
  /\ Graph.stateJSON h' r = Graph.stateJSON h r.
Proof.
  intros H.
  pose proof (H r (or_introl eq_refl)) as Hr.
  unfold Graph.reach, Graph.read, Graph.stateJSON in *. rewrite Hr.
  destruct (nth_error h r) as [[t c o | | | | |] |]; try (repeat split; reflexivity).
  assert (Ht : forall x, In x (Graph.array h t) -> nth_error h' x = nth_error h x).
  { intros x Hx. apply H. right. apply in_or_app. now left. }
  assert (Hc : forall x, In x (Graph.array h c) -> nth_error h' x = nth_error h x).
  { intros x Hx. apply H. right. apply in_or_app. right. apply in_or_app. now left. }
  assert (Ho : forall x, In x (Graph.array h o) -> nth_error h' x = nth_error h x).
  { intros x Hx. apply H. right. apply in_or_app. right. apply in_or_app. now right. }
  split; [| split].
  - rewrite (array_agree h h' t (Ht t (or_introl eq_refl))),
            (array_agree h h' c (Hc c (or_introl eq_refl))),
            (array_agree h h' o (Ho o (or_introl eq_refl))).
    reflexivity.
  - now rewrite (readArray_agree _ h h' t Ht), (readArray_agree _ h h' c Hc),
      (readArray_agree _ h h' o Ho).
  - now rewrite (arrayJSON_agree h h' t Ht), (arrayJSON_agree h h' c Hc),
      (arrayJSON_agree h h' o Ho).
Qed.

(** ** Allocation *)

Lemma allocState_heap (ts cs os : list Graph.Object) (h : Graph.Heap) :
  let h' := fst (Graph.allocState ts cs os h) in
  let n := List.length h in
  snd (Graph.allocState ts cs os h) = n
  /\ (exists cells, h' = h ++ cells)
  /\ List.length h' = n + 4 + List.length ts + List.length cs + List.length os
  /\ nth_error h' n = Some (Graph.StateObject (n + 1) (n + 2) (n + 3))
  /\ nth_error h' (n + 1) = Some (Graph.ArrayObject (seq (n + 4) (List.length ts)))
  /\ nth_error h' (n + 2)
     = Some (Graph.ArrayObject (seq (n + 4 + List.length ts) (List.length cs)))
  /\ nth_error h' (n + 3)
     = Some (Graph.ArrayObject (seq (n + 4 + List.length ts + List.length cs)
                                    (List.length os)))
  /\ map (nth_error h') (seq (n + 4) (List.length ts)) = map Some ts
  /\ map (nth_error h') (seq (n + 4 + List.length ts) (List.length cs)) = map Some cs
  /\ map (nth_error h') (seq (n + 4 + List.length ts + List.length cs)
                             (List.length os)) = map Some os.
Proof.
  cbv zeta. unfold Graph.allocState. cbn [fst snd].
  set (n := List.length h).
  set (four := [Graph.StateObject (n + 1) (n + 2) (n + 3);
                Graph.ArrayObject (seq (n + 4) (List.length ts));
                Graph.ArrayObject (seq (n + 4 + List.length ts) (List.length cs));
                Graph.ArrayObject (seq (n + 4 + List.length ts + List.length cs)
                                       (List.length os))]).
  assert (Hat : forall k, nth_error (h ++ four ++ ts ++ cs ++ os) (n + k)
                          = nth_error (four ++ ts ++ cs ++ os) k).
  { intros k. rewrite nth_error_app2 by (subst n; lia).
    f_equal. subst n. lia. }
  split; [reflexivity |]. split; [eexists; reflexivity |].
  split; [rewrite !length_app; subst four n; simpl; lia |].
  split; [rewrite <- (Nat.add_0_r n) at 1; rewrite Hat; reflexivity |].
  split; [rewrite Hat; reflexivity |].
  split; [rewrite Hat; reflexivity |].
  split; [rewrite Hat; reflexivity |].
  split; [| split].
  - replace (n + 4) with (List.length (h ++ four))
      by (rewrite length_app; subst four; reflexivity).
    rewrite app_assoc. apply nth_error_window.
  - replace (n + 4 + List.length ts) with (List.length (h ++ four ++ ts))
      by (rewrite !length_app; subst four; simpl; lia).
    replace (h ++ four ++ ts ++ cs ++ os) with ((h ++ four ++ ts) ++ cs ++ os)
      by (now rewrite <- !app_assoc).
    apply nth_error_window.
  - replace (n + 4 + List.length ts + List.length cs)
      with (List.length (h ++ four ++ ts ++ cs))
      by (rewrite !length_app; subst four; simpl; lia).
    replace (h ++ four ++ ts ++ cs ++ os) with ((h ++ four ++ ts ++ cs) ++ os ++ [])
      by (now rewrite <- !app_assoc, app_nil_r).
    apply nth_error_window.
Qed.

Lemma items_array (h : Graph.Heap) (a : ref) (l : list ref) :
  nth_error h a = Some (Graph.ArrayObject l) -> Graph.items h a = l.
Proof. intros H. unfold Graph.items. now rewrite H. Qed.

(** The objects of a new state are new. *)
Lemma allocState_new (ts cs os : list Graph.Object) (h : Graph.Heap) :
  Forall (fun r => List.length h <= r
                   < List.length (fst (Graph.allocState ts cs os h)))
         (Graph.reach (fst (Graph.allocState ts cs os h)) (List.length h)).
Proof.
  destruct (allocState_heap ts cs os h)
    as (_ & _ & Hlen & Hn & Ht & Hc & Ho & _).
  cbv zeta in *.
  rewrite (reach_state _ _ _ _ _ Hn). unfold Graph.array.
  rewrite (items_array _ _ _ Ht), (items_array _ _ _ Hc), (items_array _ _ _ Ho).
  rewrite Hlen.
  repeat (apply Forall_cons || apply Forall_app; split || idtac);
    try lia;
    apply Forall_forall; intros x Hx; apply in_seq in Hx; lia.
Qed.

Lemma readArray_new {A : Type} (f : Graph.Object -> option A)
    (h : Graph.Heap) (a first : ref) (l : list Graph.Object) :
  nth_error h a = Some (Graph.ArrayObject (seq first (List.length l))) ->
  map (nth_error h) (seq first (List.length l)) = map Some l ->
  Graph.readArray f h a = traverse f l.
Proof.
  intros Ha Hl. unfold Graph.readArray. rewrite Ha.
  unfold Graph.readRecord.
  rewrite (traverse_compose (Graph.readObject f) (nth_error h)), Hl.
  rewrite <- (traverse_compose (Graph.readObject f) Some).
  reflexivity.
Qed.

Lemma arrayJSON_new (h : Graph.Heap) (a first : ref) (l : list Graph.Object) :
  nth_error h a = Some (Graph.ArrayObject (seq first (List.length l))) ->
  map (nth_error h) (seq first (List.length l)) = map Some l ->
  Graph.arrayJSON h a = JArray (map (fun ob => Graph.objectJSON (Some ob)) l).
Proof.
  intros Ha Hl. unfold Graph.arrayJSON. rewrite (items_array _ _ _ Ha).
  unfold Graph.recordJSON.
  rewrite <- (map_map (nth_error h) Graph.objectJSON), Hl, map_map.
  reflexivity.
Qed.

(** ** The deep copy *)

Lemma deepCopy_state (h : Graph.Heap) (r t c o : ref) :
  nth_error h r = Some (Graph.StateObject t c o) ->
  Graph.deepCopy h r
  = Graph.allocState
      (map Graph.parseTransaction (map (Graph.recordJSON h) (Graph.items h t)))
      (map Graph.parseClient (map (Graph.recordJSON h) (Graph.items h c)))
      (map Graph.parseOpportunity (map (Graph.recordJSON h) (Graph.items h o)))
      h.
Proof.
  intros H. unfold Graph.deepCopy, Graph.stateJSON. rewrite H. reflexivity.
Qed.

Lemma parsed_new (j : json) (h : Graph.Heap) :
  Forall (fun x => List.length h <= x < List.length (h ++ [Graph.ParsedObject j]))
         (Graph.reach (h ++ [Graph.ParsedObject j]) (List.length h)).
Proof.
  unfold Graph.reach.
  rewrite nth_error_app2, Nat.sub_diag by lia. simpl.
  constructor; [| constructor]. rewrite length_app. simpl. lia.
Qed.

Lemma parseState_new (j : json) (h : Graph.Heap) :
  snd (Graph.parseState j h) = List.length h
  /\ (exists cells, fst (Graph.parseState j h) = h ++ cells)
  /\ Forall (fun x => List.length h <= x < List.length (fst (Graph.parseState j h)))
            (Graph.reach (fst (Graph.parseState j h)) (List.length h)).
Proof.
  assert (Hwhole : snd (h ++ [Graph.ParsedObject j], List.length h) = List.length h
            /\ (exists cells, fst (h ++ [Graph.ParsedObject j], List.length h)
                              = h ++ cells)
            /\ Forall (fun x => List.length h <= x
                         < List.length (fst (h ++ [Graph.ParsedObject j],
                                             List.length h)))
                      (Graph.reach (fst (h ++ [Graph.ParsedObject j], List.length h))
                                   (List.length h))).
  { split; [reflexivity |]. split; [eexists; reflexivity |]. apply parsed_new. }
  unfold Graph.parseState.
  repeat match goal with
         | |- context [match ?x with _ => _ end] =>
             match type of x with
             | json => destruct x
             | list _ => destruct x
             | prod _ _ => destruct x
             | bool => destruct x
             end
         end; try exact Hwhole.
  destruct (allocState_heap (map Graph.parseTransaction items)
              (map Graph.parseClient items0) (map Graph.parseOpportunity items1) h)
    as (Hsnd & Hcells & _).
  split; [exact Hsnd |]. split; [exact Hcells |]. apply allocState_new.
Qed.

(** The copy is made of new objects, whatever it is a copy of, and every
    object there was is left as it was. *)
Lemma deepCopy_new (h : Graph.Heap) (r : ref) :
  snd (Graph.deepCopy h r) = List.length h
  /\ (exists cells, fst (Graph.deepCopy h r) = h ++ cells)
  /\ Forall (fun x => List.length h <= x < List.length (fst (Graph.deepCopy h r)))
            (Graph.reach (fst (Graph.deepCopy h r)) (List.length h)).
Proof. unfold Graph.deepCopy. simpl. apply parseState_new. Qed.

Lemma deepCopy_keeps (h : Graph.Heap) (r x : ref) :
  x < List.length h -> nth_error (fst (Graph.deepCopy h r)) x = nth_error h x.
Proof.
  intros Hx. destruct (deepCopy_new h r) as (_ & (cells & ->) & _).
  now apply nth_error_app1.
Qed.

Lemma deepCopy_length (h : Graph.Heap) (r : ref) :
  List.length h <= List.length (fst (Graph.deepCopy h r)).
Proof.
  destruct (deepCopy_new h r) as (_ & (cells & ->) & _).
  rewrite length_app. lia.
Qed.

Lemma records_JSON {A : Type} (f : Graph.Object -> option A) (toJSON : A -> json)
    (h : Graph.Heap) (l : list ref) (records : list A) :
  (forall ob a, f ob = Some a -> Graph.objectJSON (Some ob) = toJSON a) ->
  traverse (Graph.readRecord f h) l = Some records ->
  map (Graph.recordJSON h) l = map toJSON records.
Proof.
  intros Hf. revert records. induction l as [| x l IH]; intros records; simpl.
  - now intros [= <-].
  - unfold Graph.readRecord at 1, Graph.recordJSON at 1.
    destruct (nth_error h x) as [ob |]; cbn [Graph.readObject]; [| discriminate].
    destruct (f ob) as [a |] eqn:Hob; [| discriminate].
    destruct (traverse (Graph.readRecord f h) l) as [rest |]; [| discriminate].
    intros [= <-]. cbn [map]. now rewrite (Hf ob a Hob), (IH rest).
Qed.

Lemma asTransaction_JSON (ob : Graph.Object) (t : Transaction.t) :
  Graph.asTransaction ob = Some t -> Graph.objectJSON (Some ob) = Transaction.toJSON t.
Proof. destruct ob; simpl; try discriminate. now intros [= ->]. Qed.

Lemma asClient_JSON (ob : Graph.Object) (c : Client.t) :
  Graph.asClient ob = Some c -> Graph.objectJSON (Some ob) = Client.toJSON c.
Proof. destruct ob; simpl; try discriminate. now intros [= ->]. Qed.

Lemma asOpportunity_JSON (ob : Graph.Object) (o : Opportunity.t) :
  Graph.asOpportunity ob = Some o -> Graph.objectJSON (Some ob) = Opportunity.toJSON o.
Proof. destruct ob; simpl; try discriminate. now intros [= ->]. Qed.

(** What [JSON.stringify] writes for a state that is read as [s] is the
    JSON of [s]. *)
Lemma stateJSON_read (h : Graph.Heap) (r : ref) (s : AppState.t) :
  Graph.read h r = Some s -> Graph.stateJSON h r = AppState.toJSON s.
Proof.
  unfold Graph.read, Graph.stateJSON.
  destruct (nth_error h r) as [[t c o | | | | |] |]; try discriminate.
  unfold Graph.readArray, Graph.arrayJSON, Graph.items.
  destruct (nth_error h t) as [[| lt | | | |] |]; try discriminate.
  destruct (traverse (Graph.readRecord Graph.asTransaction h) lt) as [ts |] eqn:Hts;
    [| discriminate].
  destruct (nth_error h c) as [[| lc | | | |] |]; try discriminate.
  destruct (traverse (Graph.readRecord Graph.asClient h) lc) as [cs |] eqn:Hcs;
    [| discriminate].
  destruct (nth_error h o) as [[| lo | | | |] |]; try discriminate.
  destruct (traverse (Graph.readRecord Graph.asOpportunity h) lo) as [os |] eqn:Hos;
    [| discriminate].
  intros [= <-]. unfold AppState.toJSON. simpl.
  rewrite (records_JSON _ Transaction.toJSON _ _ _ asTransaction_JSON Hts),
          (records_JSON _ Client.toJSON _ _ _ asClient_JSON Hcs),
          (records_JSON _ Opportunity.toJSON _ _ _ asOpportunity_JSON Hos).
  reflexivity.
Qed.

Lemma asTransaction_parse (j : json) :
  Graph.asTransaction (Graph.parseTransaction j) = Transaction.ofJSON j.
Proof. unfold Graph.parseTransaction. now destruct (Transaction.ofJSON j). Qed.

Lemma asClient_parse (j : json) :
  Graph.asClient (Graph.parseClient j) = Client.ofJSON j.
Proof. unfold Graph.parseClient. now destruct (Client.ofJSON j). Qed.

Lemma asOpportunity_parse (j : json) :
  Graph.asOpportunity (Graph.parseOpportunity j) = Opportunity.ofJSON j.
Proof. unfold Graph.parseOpportunity. now destruct (Opportunity.ofJSON j). Qed.

(** The state a deep copy is read as is the value-level copy of the state
    that was copied: the state with its numbers as JSON writes and reads
    them when they are finite, and no [AppState] when one is not. *)
Lemma deepCopy_read (h : Graph.Heap) (r : ref) (s : AppState.t) :
  Graph.read h r = Some s ->
  Graph.read (fst (Graph.deepCopy h r)) (snd (Graph.deepCopy h r)) = deepCopy s.
Proof.
  intros Hread. pose proof (stateJSON_read h r s Hread) as Hjson.
  unfold Graph.read in Hread.
  destruct (nth_error h r) as [[t c o | | | | |] |] eqn:Hr; try discriminate.
  clear Hread.
  rewrite (deepCopy_state h r t c o Hr).
  unfold Graph.stateJSON in Hjson. rewrite Hr in Hjson.
  unfold Graph.arrayJSON, AppState.toJSON in Hjson.
  injection Hjson as Ht Hc Ho. rewrite Ht, Hc, Ho.
  match goal with |- context [Graph.allocState ?a ?b ?c h] =>
    destruct (allocState_heap a b c h)
      as (Hsnd & _ & _ & Hn & Hat & Hac & Hao & Hts & Hcs & Hos)
  end.
  cbv zeta in *. rewrite Hsnd. unfold Graph.read. rewrite Hn.
  rewrite (readArray_new _ _ _ _ _ Hat Hts), (readArray_new _ _ _ _ _ Hac Hcs),
          (readArray_new _ _ _ _ _ Hao Hos).
  rewrite <- !traverse_compose.
  rewrite (traverse_ext_in _ (fun a => Transaction.ofJSON (Transaction.toJSON a)))
    by (intros; apply asTransaction_parse).
  rewrite (traverse_ext_in _ (fun a => Client.ofJSON (Client.toJSON a)))
    by (intros; apply asClient_parse).
  rewrite (traverse_ext_in _ (fun a => Opportunity.ofJSON (Opportunity.toJSON a)))
    by (intros; apply asOpportunity_parse).
  unfold deepCopy, AppState.ofJSON, AppState.toJSON, as_array. simpl.
  rewrite <- !traverse_compose. reflexivity.
Qed.

Lemma JSON_number_canonical (x : number) :
  JSON_number (canonicalNumber x) = JSON_number x.
Proof.
  unfold canonicalNumber, isZero, JSON_number.
  destruct (classify x) eqn:Hx; try (now rewrite Hx); reflexivity.
Qed.

Lemma parseTransaction_JSON (t : Transaction.t) :
  Graph.objectJSON (Some (Graph.parseTransaction (Transaction.toJSON t)))
  = Transaction.toJSON t.
Proof.
  unfold Graph.parseTransaction.
  destruct (isFinite (Transaction.amount t)) eqn:Hfin.
  - rewrite (Transaction_ofJSON_toJSON t Hfin). simpl.
    unfold Transaction.toJSON, canonicalTransaction. simpl.
    now rewrite JSON_number_canonical.
  - destruct t as [i d a dt ty]. simpl in Hfin.
    unfold Transaction.ofJSON, Transaction.toJSON, JSON_number, isFinite in *. simpl.
    destruct (classify a); try discriminate; reflexivity.
Qed.

Lemma parseClient_JSON (c : Client.t) :
  Graph.objectJSON (Some (Graph.parseClient (Client.toJSON c))) = Client.toJSON c.
Proof. unfold Graph.parseClient. now rewrite Client_ofJSON_toJSON. Qed.

Lemma parseOpportunity_JSON (o : Opportunity.t) :
  Graph.objectJSON (Some (Graph.parseOpportunity (Opportunity.toJSON o)))
  = Opportunity.toJSON o.
Proof.
  unfold Graph.parseOpportunity.
  destruct (isFinite (Opportunity.value o)) eqn:Hfin.
  - rewrite (Opportunity_ofJSON_toJSON o Hfin). simpl.
    unfold Opportunity.toJSON, canonicalOpportunity. simpl.
    now rewrite JSON_number_canonical.
  - destruct o as [i t v c st]. simpl in Hfin.
    unfold Opportunity.ofJSON, Opportunity.toJSON, JSON_number, isFinite in *. simpl.
    destruct (classify v); try discriminate; reflexivity.
Qed.

(** What [JSON.stringify] writes for the copy is what it writes for the
    state that was copied, also where a number is not finite and the copy
    holds [null]. *)
Lemma deepCopy_stateJSON (h : Graph.Heap) (r : ref) (s : AppState.t) :
  Graph.read h r = Some s ->
  Graph.stateJSON (fst (Graph.deepCopy h r)) (snd (Graph.deepCopy h r))
  = AppState.toJSON s.
Proof.
  intros Hread. pose proof (stateJSON_read h r s Hread) as Hjson.
  unfold Graph.read in Hread.
  destruct (nth_error h r) as [[t c o | | | | |] |] eqn:Hr; try discriminate.
  clear Hread.
  rewrite (deepCopy_state h r t c o Hr).
  unfold Graph.stateJSON in Hjson. rewrite Hr in Hjson.
  unfold Graph.arrayJSON, AppState.toJSON in Hjson.
  injection Hjson as Ht Hc Ho. rewrite Ht, Hc, Ho.
  match goal with |- context [Graph.allocState ?a ?b ?c h] =>
    destruct (allocState_heap a b c h)
      as (Hsnd & _ & _ & Hn & Hat & Hac & Hao & Hts & Hcs & Hos)
  end.
  cbv zeta in *. rewrite Hsnd. unfold Graph.stateJSON. rewrite Hn.
  rewrite (arrayJSON_new _ _ _ _ Hat Hts), (arrayJSON_new _ _ _ _ Hac Hcs),
          (arrayJSON_new _ _ _ _ Hao Hos).
  rewrite !map_map. unfold AppState.toJSON.
  rewrite (map_ext _ _ parseTransaction_JSON), (map_ext _ _ parseClient_JSON),
          (map_ext _ _ parseOpportunity_JSON).
  reflexivity.
Qed.

(** ** The store and the handlers, field by field *)

Lemma graph_saveState_fields (app : Graph.App) :
  Graph.heap (Graph.saveState app) = Graph.heap app
  /\ Graph.state (Graph.saveState app) = Graph.state app
  /\ Graph.snapshots (Graph.saveState app) = Graph.snapshots app
  /\ Graph.modal (Graph.saveState app) = Graph.modal app
  /\ Graph.activeScreen (Graph.saveState app) = Graph.activeScreen app
  /\ Graph.localStorage (Graph.saveState app)
     = written "gestor_app_state"
               (Graph.stateJSON (Graph.heap app) (Graph.state app))
               (Graph.localStorage app).
Proof.
  unfold Graph.saveState, written.
  destruct (Storage.setItem _ _ _); simpl; auto 10.
Qed.

Lemma graph_saveSnapshots_fields (app : Graph.App) :
  Graph.heap (Graph.saveSnapshots app) = Graph.heap app
  /\ Graph.state (Graph.saveSnapshots app) = Graph.state app
  /\ Graph.snapshots (Graph.saveSnapshots app) = Graph.snapshots app
  /\ Graph.modal (Graph.saveSnapshots app) = Graph.modal app
  /\ Graph.activeScreen (Graph.saveSnapshots app) = Graph.activeScreen app
  /\ Graph.localStorage (Graph.saveSnapshots app)
     = written "gestor_app_snapshots"
               (JArray (map (Graph.snapshotJSON (Graph.heap app))
                            (Graph.snapshots app)))
               (Graph.localStorage app).
Proof.
  unfold Graph.saveSnapshots, written.
  destruct (Storage.setItem _ _ _); simpl; auto 10.
Qed.

Lemma graph_setState_fields (u : Graph.Updater) (app : Graph.App) :
  Graph.heap (Graph.setState u app) = fst (u (Graph.heap app) (Graph.state app))
  /\ Graph.state (Graph.setState u app) = snd (u (Graph.heap app) (Graph.state app))
  /\ Graph.snapshots (Graph.setState u app) = Graph.snapshots app
  /\ Graph.modal (Graph.setState u app) = Graph.modal app.
Proof.
  unfold Graph.setState.
  destruct (u (Graph.heap app) (Graph.state app)) as [h next]; simpl.
  destruct (graph_saveState_fields (Graph.set_state h next app))
    as (H1 & H2 & H3 & H4 & _).
  rewrite H1, H2, H3, H4. simpl. auto.
Qed.

Lemma graph_handleCreateSnapshot_blank (trim : string -> string) (nameInput : string)
    (t ts : Z) (app : Graph.App) :
  truthy (trim nameInput) = false ->
  Graph.handleCreateSnapshot trim nameInput t ts app
  = Graph.showAlertModal "Por favor, insira um nome para o snapshot." "Aviso" app.
Proof. intros H. unfold Graph.handleCreateSnapshot. now rewrite H. Qed.

Lemma graph_handleCreateSnapshot_created (trim : string -> string)
    (nameInput : string) (t ts : Z) (app : Graph.App) :
  truthy (trim nameInput) = true ->
  let created := Graph.handleCreateSnapshot trim nameInput t ts app in
  Graph.heap created = fst (Graph.deepCopy (Graph.heap app) (Graph.state app))
  /\ Graph.state created = Graph.state app
  /\ Graph.snapshots created
     = Graph.snapshots app
       ++ [Snapshot.mk (snapshotId t) (trim nameInput) ts
                       (List.length (Graph.heap app))]
  /\ Graph.modal created = Graph.AlertModal "Snapshot criado com sucesso!" "Sucesso"
  /\ Graph.activeScreen created = Graph.activeScreen app
  /\ Graph.localStorage created
     = written "gestor_app_snapshots"
               (JArray (map (Graph.snapshotJSON (Graph.heap created))
                            (Graph.snapshots created)))
               (Graph.localStorage app).
Proof.
  intros Hname. cbv zeta. unfold Graph.handleCreateSnapshot. rewrite Hname.
  cbn [negb].
  pose proof (proj1 (deepCopy_new (Graph.heap app) (Graph.state app))) as Hsnd.
  destruct (Graph.deepCopy (Graph.heap app) (Graph.state app)) as [h d].
  cbn [fst snd] in *. subst d.
  unfold Graph.renderHistorico, Graph.showAlertModal.
  match goal with |- context [Graph.saveSnapshots ?a] =>
    destruct (graph_saveSnapshots_fields a) as (H1 & H2 & H3 & _ & H5 & H6);
    set (saved := Graph.saveSnapshots a) in *
  end.
  cbn [Graph.heap Graph.state Graph.snapshots Graph.modal Graph.activeScreen
       Graph.localStorage Graph.set_modal Graph.set_snapshots Graph.set_heap] in *.
  rewrite H1, H2, H3, H5, H6. auto 10.
Qed.

(** ** Updaters that work on the state they are given *)

Lemma graph_setState_confined (u : Graph.Updater) (app : Graph.App) (D : list ref) :
  Graph.confined u -> Graph.allocated app ->
  Forall (fun r => r < List.length (Graph.heap app)) D ->
  Graph.separate D (Graph.reach (Graph.heap app) (Graph.state app)) ->
  let app' := Graph.setState u app in
  Graph.allocated app'
  /\ List.length (Graph.heap app) <= List.length (Graph.heap app')
  /\ (forall r, In r D -> nth_error (Graph.heap app') r = nth_error (Graph.heap app) r)
  /\ Graph.separate D (Graph.reach (Graph.heap app') (Graph.state app'))
  /\ Graph.snapshots app' = Graph.snapshots app.
Proof.
  intros Hu Ha HD Hsep. cbv zeta.
  destruct (graph_setState_fields u app) as (Hh & Hs & Hsn & _).
  destruct (Hu (Graph.heap app) (Graph.state app) Ha) as (Hlen & Hframe & Hreach).
  unfold Graph.allocated in *. rewrite Hh, Hs, Hsn.
  rewrite Forall_forall in Ha, HD, Hreach.
  split; [| split; [| split; [| split]]].
  - apply Forall_forall. intros r Hr.
    destruct (Hreach r Hr) as [Hold | Hfresh]; [| lia].
    specialize (Ha r Hold). lia.
  - exact Hlen.
  - intros r Hr. apply Hframe; [now apply HD | now apply Hsep].
  - intros r Hr Hin.
    destruct (Hreach r Hin) as [Hold | Hfresh].
    + exact (Hsep r Hr Hold).
    + specialize (HD r Hr). lia.
  - reflexivity.
Qed.

Lemma graph_applyAll_confined (updaters : list Graph.Updater) (app : Graph.App)
    (D : list ref) :
  Forall Graph.confined updaters -> Graph.allocated app ->
  Forall (fun r => r < List.length (Graph.heap app)) D ->
  Graph.separate D (Graph.reach (Graph.heap app) (Graph.state app)) ->
  let later := Graph.applyAll updaters app in
  Graph.allocated later
  /\ List.length (Graph.heap app) <= List.length (Graph.heap later)
  /\ (forall r, In r D -> nth_error (Graph.heap later) r = nth_error (Graph.heap app) r)
  /\ Graph.separate D (Graph.reach (Graph.heap later) (Graph.state later))
  /\ Graph.snapshots later = Graph.snapshots app.
Proof.
  intros Hall. revert app.
  induction Hall as [| u updaters Hu _ IH]; intros app Ha HD Hsep; cbv zeta.
  - simpl. repeat split; auto.
  - destruct (graph_setState_confined u app D Hu Ha HD Hsep)
      as (Ha' & Hlen' & HD' & Hsep' & Hsn').
    assert (HDb : Forall (fun r => r < List.length (Graph.heap (Graph.setState u app))) D).
    { apply (Forall_impl _ (P := fun r => r < List.length (Graph.heap app)));
        [intros r Hr; lia | exact HD]. }
    destruct (IH (Graph.setState u app) Ha' HDb Hsep')
      as (Ha2 & Hlen2 & HD2 & Hsep2 & Hsn2).
    simpl. repeat split.
    + exact Ha2.
    + lia.
    + intros r Hr. now rewrite (HD2 r Hr), (HD' r Hr).
    + exact Hsep2.
    + now rewrite Hsn2.
Qed.

Lemma graph_restore (sn : Snapshot.t) (app : Graph.App) :
  let restored := Graph.onConfirm (Graph.RestoreSnapshot sn) (Graph.hideModal app) in
  Graph.heap restored = fst (Graph.deepCopy (Graph.heap app) (Snapshot.data sn))
  /\ Graph.state restored = List.length (Graph.heap app)
  /\ Graph.snapshots restored = Graph.snapshots app
  /\ Graph.modal restored
     = Graph.AlertModal "Dados restaurados com sucesso!" "Sucesso"
  /\ Graph.activeScreen restored = "painel"
  /\ Graph.localStorage restored
     = written "gestor_app_state"
               (Graph.stateJSON (Graph.heap restored) (Graph.state restored))
               (Graph.localStorage app).
Proof.
  cbv zeta. unfold Graph.onConfirm.
  change (Graph.heap (Graph.hideModal app)) with (Graph.heap app).
  pose proof (proj1 (deepCopy_new (Graph.heap app) (Snapshot.data sn))) as Hsnd.
  destruct (Graph.deepCopy (Graph.heap app) (Snapshot.data sn)) as [h r].
  cbn [fst snd] in *. subst r.
  unfold Graph.navigateTo, Graph.showAlertModal.
  match goal with |- context [Graph.saveState ?a] =>
    destruct (graph_saveState_fields a) as (H1 & H2 & H3 & _ & _ & H6);
    set (saved := Graph.saveState a) in *
  end.
  cbn [Graph.heap Graph.state Graph.snapshots Graph.modal Graph.activeScreen
       Graph.localStorage Graph.set_modal Graph.set_state Graph.set_activeScreen
       Graph.hideModal] in *.
  rewrite H1, H2, H3, H6. auto 10.
Qed.

Lemma appendClient_confined (c : Client.t) : Graph.confined (Graph.appendClient c).
Proof.
  intros h prev Ha. unfold Graph.appendClient.
  destruct (nth_error h prev) as [[t cl o | | | | |] |] eqn:Hp; cbn [fst snd];
    try (split; [lia |]; split; [reflexivity |];
         apply Forall_forall; intros x Hx; now left).
  rewrite Forall_forall in Ha.
  pose proof (reach_state h prev t cl o Hp) as Hreach.
  assert (Hin : forall x, In x (Graph.array h t) \/ In x (Graph.array h cl)
                          \/ In x (Graph.array h o) ->
                          In x (Graph.reach h prev)).
  { intros x Hx. rewrite Hreach. right.
    apply in_or_app. destruct Hx as [Hx | [Hx | Hx]]; [now left | right ..];
      apply in_or_app; [now left | now right]. }
  set (n := List.length h) in *.
  set (h' := h ++ [Graph.ClientObject c; Graph.ArrayObject (Graph.items h cl ++ [n]);
                   Graph.StateObject t (n + 1) o]).
  assert (Hlen : List.length h' = n + 3).
  { unfold h'. rewrite length_app. reflexivity. }
  assert (Hold : forall x, x < n -> nth_error h' x = nth_error h x).
  { intros x Hx. unfold h'. now apply nth_error_app1. }
  assert (Hat : forall k, nth_error h' (n + k)
                 = nth_error [Graph.ClientObject c;
                              Graph.ArrayObject (Graph.items h cl ++ [n]);
                              Graph.StateObject t (n + 1) o] k).
  { intros k. unfold h'. rewrite nth_error_app2 by (unfold n; lia).
    f_equal. unfold n. lia. }
  split; [lia |]. split; [intros r Hr _; now apply Hold |].
  rewrite (reach_state h' (n + 2) t (n + 1) o) by (now rewrite Hat).
  assert (Ht : t < n) by (apply Ha, Hin; left; now left).
  assert (Ho : o < n) by (apply Ha, Hin; right; right; now left).
  rewrite (array_agree h h' t (Hold t Ht)), (array_agree h h' o (Hold o Ho)).
  unfold Graph.array at 2. rewrite (items_array h' (n + 1) _ (Hat 1)).
  apply Forall_forall. intros x [<- | Hx]; [right; lia |].
  apply in_app_or in Hx. destruct Hx as [Hx | Hx]; [left; apply Hin; now left |].
  apply in_app_or in Hx. destruct Hx as [Hx | Hx]; [| left; apply Hin; right; now right].
  destruct Hx as [<- | Hx]; [right; lia |].
  apply in_app_or in Hx. destruct Hx as [Hx | [<- | []]]; [| right; lia].
  left. apply Hin. right. left. now right.
Qed.

Lemma pushClient_confined (c : Client.t) : Graph.confined (Graph.pushClient c).
Proof.
  intros h prev Ha. unfold Graph.pushClient.
  destruct (nth_error h prev) as [[t cl o | | | | |] |] eqn:Hp; cbn [fst snd];
    try (split; [lia |]; split; [reflexivity |];
         apply Forall_forall; intros x Hx; now left).
  destruct (nth_error h cl) as [[| l | | | |] |] eqn:Hcl; cbn [fst snd];
    try (split; [lia |]; split; [reflexivity |];
         apply Forall_forall; intros x Hx; now left).
  rewrite Forall_forall in Ha.
  pose proof (reach_state h prev t cl o Hp) as Hreach.
  assert (Hin : forall x, In x (Graph.array h t) \/ In x (Graph.array h cl)
                          \/ In x (Graph.array h o) ->
                          In x (Graph.reach h prev)).
  { intros x Hx. rewrite Hreach. right.
    apply in_or_app. destruct Hx as [Hx | [Hx | Hx]]; [now left | right ..];
      apply in_or_app; [now left | now right]. }
  set (n := List.length h) in *.
  set (h' := Graph.store cl (Graph.ArrayObject (l ++ [n])) (h ++ [Graph.ClientObject c])).
  assert (Hlen : List.length h' = n + 1).
  { unfold h'. rewrite length_store, length_app. reflexivity. }
  assert (Hcln : cl < n) by (apply Ha, Hin; right; left; now left).
  assert (Hother : forall x, x < n -> x <> cl -> nth_error h' x = nth_error h x).
  { intros x Hx Hne. unfold h'. rewrite nth_error_store_other by exact Hne.
    now apply nth_error_app1. }
  assert (Hsame : nth_error h' cl = Some (Graph.ArrayObject (l ++ [n]))).
  { unfold h'. apply nth_error_store_same. rewrite length_app. simpl. lia. }
  assert (Hitems : forall a x, a < n -> In x (Graph.items h' a) ->
                    In x (Graph.items h a) \/ x = n).
  { intros a x Han Hx. destruct (Nat.eq_dec a cl) as [-> | Hne].
    - rewrite (items_array _ _ _ Hsame) in Hx. rewrite (items_array _ _ _ Hcl).
      apply in_app_or in Hx. destruct Hx as [Hx | [<- | []]]; [now left | now right].
    - left. now rewrite <- (items_agree h h' a (Hother a Han Hne)). }
  split; [lia |]. split.
  { intros r Hr Hnot. apply Hother; [exact Hr |].
    intros ->. apply Hnot, Hin. right. left. now left. }
  assert (Hprev : prev < n) by (apply Ha; rewrite Hreach; now left).
  assert (Hne : prev <> cl) by (intros ->; rewrite Hp in Hcl; discriminate).
  rewrite (reach_state h' prev t cl o) by (now rewrite (Hother prev Hprev Hne)).
  assert (Ht : t < n) by (apply Ha, Hin; left; now left).
  assert (Ho : o < n) by (apply Ha, Hin; right; right; now left).
  assert (Harray : forall a x, a < n -> In x (Graph.array h' a) ->
                    In x (Graph.array h a) \/ x = n).
  { intros a x Han [<- | Hx]; [left; now left |].
    destruct (Hitems a x Han Hx) as [Hold | ->]; [left; now right | now right]. }
  apply Forall_forall. intros x [<- | Hx]; [left; rewrite Hreach; now left |].
  apply in_app_or in Hx. destruct Hx as [Hx | Hx].
  { destruct (Harray t x Ht Hx) as [Hold | ->]; [left; apply Hin; now left | right; lia]. }
  apply in_app_or in Hx. destruct Hx as [Hx | Hx].
  { destruct (Harray cl x Hcln Hx) as [Hold | ->];
      [left; apply Hin; right; now left | right; lia]. }
  destruct (Harray o x Ho Hx) as [Hold | ->];
    [left; apply Hin; right; now right | right; lia].
Qed.


(** ** Snapshot and restore *)

(** C4, as the code has it. Take a state whose numbers are finite and a
    clock reading whose id no snapshot of the collection has. Creating a
    snapshot and, after any number of [setState] calls, restoring it by its
    id makes the live state structurally equal to the state at creation,
    even when the updaters wrote into the objects of the live state. The
    snapshot's data and the live state have no object in common, neither
    the state object, nor an array, nor a record: not after the creation,
    not after the updates, not after the restore. The restore leaves the
    snapshots as they were and writes into no object of the snapshot. *)
Theorem snapshot_restore_reproduces_state
    (trim : string -> string) (nameInput : string) (t ts : Z)
    (updaters : list Graph.Updater) (app : Graph.App) (s : AppState.t) :
  Graph.allocated app ->
  Graph.read (Graph.heap app) (Graph.state app) = Some s ->
  finiteNumbers s = true ->
  truthy (trim nameInput) = true ->
  (forall old, In old (Graph.snapshots app) -> Snapshot.id old <> snapshotId t) ->
  Forall Graph.confined updaters ->
  let created := Graph.handleCreateSnapshot trim nameInput t ts app in
  let later := Graph.applyAll updaters created in
  let restored :=
    Graph.clickConfirm (Graph.handleRestoreSnapshot (snapshotId t) later) in
  exists sn,
    Graph.snapshots created = Graph.snapshots app ++ [sn]
    /\ Snapshot.id sn = snapshotId t
    /\ Graph.read (Graph.heap created) (Snapshot.data sn) = Some (canonicalState s)
    /\ structurallyEqual (canonicalState s) s = true
    /\ Graph.separate (Graph.reach (Graph.heap created) (Snapshot.data sn))
                      (Graph.reach (Graph.heap created) (Graph.state created))
    /\ Graph.read (Graph.heap later) (Snapshot.data sn) = Some (canonicalState s)
    /\ Graph.separate (Graph.reach (Graph.heap later) (Snapshot.data sn))
                      (Graph.reach (Graph.heap later) (Graph.state later))
    /\ Graph.modal (Graph.handleRestoreSnapshot (snapshotId t) later)
       = Graph.ConfirmationModal
           ("Tem certeza que deseja restaurar o snapshot " ++ dquote
              ++ escapeHtml (Snapshot.name sn) ++ dquote
              ++ "? Todos os dados atuais não salvos em outro snapshot serão perdidos.")
           "Confirmar Restauração" (Graph.RestoreSnapshot sn)
    /\ Graph.read (Graph.heap restored) (Graph.state restored)
       = Some (canonicalState s)
    /\ Graph.separate (Graph.reach (Graph.heap restored) (Snapshot.data sn))
                      (Graph.reach (Graph.heap restored) (Graph.state restored))
    /\ Graph.snapshots restored = Graph.snapshots created
    /\ (forall r, In r (Graph.reach (Graph.heap later) (Snapshot.data sn)) ->
          nth_error (Graph.heap restored) r = nth_error (Graph.heap later) r)
    /\ Graph.read (Graph.heap restored) (Snapshot.data sn) = Some (canonicalState s).
Proof.
  intros Ha Hread Hfin Hname Hfresh Hconfined. cbv zeta.
  destruct (graph_handleCreateSnapshot_created trim nameInput t ts app Hname)
    as (Hheap & Hstate & Hsnaps & _).
  cbv zeta in Hheap, Hstate, Hsnaps.
  set (created := Graph.handleCreateSnapshot trim nameInput t ts app) in *.
  set (d := List.length (Graph.heap app)) in *.
  set (sn := Snapshot.mk (snapshotId t) (trim nameInput) ts d) in *.
  exists sn.
  change (Snapshot.data sn) with d. change (Snapshot.name sn) with (trim nameInput).
  destruct (deepCopy_new (Graph.heap app) (Graph.state app)) as (Hsnd & _ & Hnew).
  rewrite <- Hheap in Hnew. fold d in Hnew, Hsnd.
  (* the copy *)
  assert (Hcopy : Graph.read (Graph.heap created) d = Some (canonicalState s)).
  { rewrite Hheap. rewrite <- Hsnd.
    rewrite (deepCopy_read _ _ _ Hread). now apply deepCopy_finite. }
  assert (Hold : forall x, x < d ->
            nth_error (Graph.heap created) x = nth_error (Graph.heap app) x).
  { intros x Hx. rewrite Hheap. now apply deepCopy_keeps. }
  assert (Hlen : d <= List.length (Graph.heap created)).
  { rewrite Hheap. apply deepCopy_length. }
  unfold Graph.allocated in Ha. rewrite Forall_forall in Ha, Hnew.
  destruct (state_agree (Graph.heap app) (Graph.heap created) (Graph.state app))
    as (Hlive & _).
  { intros x Hx. apply Hold. now apply Ha. }
  assert (Hsep : Graph.separate (Graph.reach (Graph.heap created) d)
                   (Graph.reach (Graph.heap created) (Graph.state created))).
  { intros x Hx Hin. rewrite Hstate, Hlive in Hin.
    specialize (Hnew x Hx). specialize (Ha x Hin). lia. }
  assert (Ha' : Graph.allocated created).
  { unfold Graph.allocated. rewrite Hstate, Hlive. apply Forall_forall.
    intros x Hx. specialize (Ha x Hx). lia. }
  assert (HD : Forall (fun r => r < List.length (Graph.heap created))
                      (Graph.reach (Graph.heap created) d)).
  { apply Forall_forall. intros x Hx. specialize (Hnew x Hx). lia. }
  (* the updates *)
  destruct (graph_applyAll_confined updaters created _ Hconfined Ha' HD Hsep)
    as (_ & Hlen2 & Hkept & Hsep2 & Hsnaps2).
  cbv zeta in Hlen2, Hkept, Hsep2, Hsnaps2.
  set (later := Graph.applyAll updaters created) in *.
  destruct (state_agree (Graph.heap created) (Graph.heap later) d Hkept)
    as (Hreach2 & Hread2 & _).
  (* the restore *)
  assert (Hfind : find (fun x => Snapshot.id x =? snapshotId t) (Graph.snapshots later)
                  = Some sn).
  { rewrite Hsnaps2, Hsnaps. now apply find_last. }
  assert (Hask : Graph.handleRestoreSnapshot (snapshotId t) later
            = Graph.showConfirmationModal
                ("Tem certeza que deseja restaurar o snapshot " ++ dquote
                   ++ escapeHtml (trim nameInput) ++ dquote
                   ++ "? Todos os dados atuais não salvos em outro snapshot serão perdidos.")
                (Graph.RestoreSnapshot sn) "Confirmar Restauração" later).
  { unfold Graph.handleRestoreSnapshot. now rewrite Hfind. }
  rewrite Hask.
  change (Graph.clickConfirm (Graph.showConfirmationModal ?m ?cb ?ti later))
    with (Graph.onConfirm cb (Graph.hideModal later)).
  destruct (graph_restore sn later) as (Hh3 & Hs3 & Hsn3 & _).
  cbv zeta in Hh3, Hs3, Hsn3. change (Snapshot.data sn) with d in Hh3.
  set (restored := Graph.onConfirm (Graph.RestoreSnapshot sn) (Graph.hideModal later))
    in *.
  destruct (deepCopy_new (Graph.heap later) d) as (Hsnd3 & _ & Hnew3).
  rewrite <- Hh3 in Hnew3. rewrite Forall_forall in Hnew3.
  assert (Hkept3 : forall x, In x (Graph.reach (Graph.heap later) d) ->
            nth_error (Graph.heap restored) x = nth_error (Graph.heap later) x).
  { intros x Hx. rewrite Hh3. apply deepCopy_keeps.
    rewrite Hreach2 in Hx. specialize (Hnew x Hx). lia. }
  destruct (state_agree (Graph.heap later) (Graph.heap restored) d Hkept3)
    as (Hreach3 & Hread3 & _).
  split; [exact Hsnaps |]. split; [reflexivity |]. split; [exact Hcopy |].
  split; [now apply canonicalState_structurallyEqual |].
  split; [exact Hsep |].
  split; [now rewrite Hread2 |].
  split; [now rewrite Hreach2 |].
  split; [reflexivity |].
  split.
  { rewrite Hh3, Hs3, <- Hsnd3.
    rewrite (deepCopy_read _ _ (canonicalState s)) by (now rewrite Hread2).
    rewrite deepCopy_finite by (now apply canonicalState_finite).
    now rewrite canonicalState_idempotent. }
  split.
  { intros x Hx Hin. rewrite Hreach3, Hreach2 in Hx. rewrite Hs3 in Hin.
    specialize (Hnew x Hx). specialize (Hnew3 x Hin). lia. }
  split; [now rewrite Hsn3 |].
  split; [exact Hkept3 |].
  now rewrite Hread3, Hread2.
Qed.

Lemma forallb_Forall_lt (n : nat) (l : list nat) :
  forallb (fun r => Nat.ltb r n) l = true -> Forall (fun r => r < n) l.
Proof.
  intros H. apply Forall_forall. intros r Hr.
  apply Nat.ltb_lt. revert r Hr. now apply forallb_forall.
Qed.

Lemma snapshot_restore_reproduces_state_witness :
  let created :=
    Graph.handleCreateSnapshot trimASCII " Maio " 1700000500000 1700000500000
                               Graph.sampleApp in
  let later := Graph.applyAll [Graph.pushClient bia; Graph.appendClient bia] created in
  let restored :=
    Graph.clickConfirm (Graph.handleRestoreSnapshot (snapshotId 1700000500000) later) in
  exists sn,
    Graph.snapshots created = Graph.snapshots Graph.sampleApp ++ [sn]
    /\ Snapshot.id sn = snapshotId 1700000500000
    /\ Graph.read (Graph.heap created) (Snapshot.data sn)
       = Some (canonicalState sampleState)
    /\ structurallyEqual (canonicalState sampleState) sampleState = true
    /\ Graph.separate (Graph.reach (Graph.heap created) (Snapshot.data sn))
                      (Graph.reach (Graph.heap created) (Graph.state created))
    /\ Graph.read (Graph.heap later) (Snapshot.data sn)
       = Some (canonicalState sampleState)
    /\ Graph.separate (Graph.reach (Graph.heap later) (Snapshot.data sn))
                      (Graph.reach (Graph.heap later) (Graph.state later))
    /\ Graph.modal (Graph.handleRestoreSnapshot (snapshotId 1700000500000) later)
       = Graph.ConfirmationModal
           ("Tem certeza que deseja restaurar o snapshot " ++ dquote
              ++ escapeHtml (Snapshot.name sn) ++ dquote
              ++ "? Todos os dados atuais não salvos em outro snapshot serão perdidos.")
           "Confirmar Restauração" (Graph.RestoreSnapshot sn)
    /\ Graph.read (Graph.heap restored) (Graph.state restored)
       = Some (canonicalState sampleState)
    /\ Graph.separate (Graph.reach (Graph.heap restored) (Snapshot.data sn))
                      (Graph.reach (Graph.heap restored) (Graph.state restored))
    /\ Graph.snapshots restored = Graph.snapshots created
    /\ (forall r, In r (Graph.reach (Graph.heap later) (Snapshot.data sn)) ->
          nth_error (Graph.heap restored) r = nth_error (Graph.heap later) r)
    /\ Graph.read (Graph.heap restored) (Snapshot.data sn)
       = Some (canonicalState sampleState).
Proof.
  apply (snapshot_restore_reproduces_state trimASCII " Maio "
           1700000500000 1700000500000
           [Graph.pushClient bia; Graph.appendClient bia] Graph.sampleApp sampleState).
  - apply forallb_Forall_lt. vm_compute. reflexivity.
  - vm_compute. reflexivity.
  - vm_compute. reflexivity.
  - reflexivity.
  - intros old Hold. vm_compute in Hold. destruct Hold as [<- | []].
    intro E. vm_compute in E. discriminate E.
  - apply Forall_cons; [apply pushClient_confined |].
    apply Forall_cons; [apply appendClient_confined | apply Forall_nil].
Defined.

(** C4, as stated, fails: a snapshot created in the millisecond of an
    earlier one has the id of that one, and restoring it by its id, at once,
    brings back the state the earlier one holds, not the state at its own
    creation. And of a state with an infinite amount the copy holds [null]
    for the amount: the snapshot is created, and what its restore installs is
    no [AppState]. *)
Lemma restore_after_id_collision_takes_older_snapshot :
  (let app0 := Graph.appOf (addClient ana getInitialState) in
   let app1 :=
     Graph.handleCreateSnapshot trimASCII "A" 1700000000000 1700000000000 app0 in
   let app2 := Graph.setState (Graph.appendClient bia) app1 in
   let app3 :=
     Graph.handleCreateSnapshot trimASCII "Q1" 1700000000000 1700000000000 app2 in
   let q1 := last (Graph.snapshots app3) (Snapshot.mk "" "" 0 0) in
   let app5 := Graph.clickConfirm (Graph.handleRestoreSnapshot (Snapshot.id q1) app3) in
   let names := option_map (fun s => map Client.name (AppState.clients s)) in
   Snapshot.name q1 = "Q1"
   /\ names (Graph.read (Graph.heap app2) (Graph.state app2)) = Some ["Ana"; "Bia"]
   /\ names (Graph.read (Graph.heap app3) (Snapshot.data q1)) = Some ["Ana"; "Bia"]
   /\ names (Graph.read (Graph.heap app5) (Graph.state app5)) = Some ["Ana"])
  /\
  (let restored :=
     Graph.clickConfirm
       (Graph.handleRestoreSnapshot (snapshotId 1700000000000) Graph.infiniteApp) in
   map Snapshot.name (Graph.snapshots Graph.infiniteApp) = ["Abril"]
   /\ Graph.read (Graph.heap restored) (Graph.state restored) = None
   /\ option_map (field "amount")
        (match field "transactions"
                 (Graph.stateJSON (Graph.heap restored) (Graph.state restored)) with
         | Some (JArray (tx :: _)) => Some tx
         | _ => None
         end)
      = Some (Some JNull)).
Proof. split; vm_compute; repeat split. Qed.

(** The model tells the deep copy from a copy of the state object alone:
    a record pushed into an array of the state is seen through the shallow
    copy, which has that array, and not through the deep copy. *)
Lemma a_shallow_copy_has_the_arrays_of_the_state :
  let app := Graph.appOf sampleState in
  let names := option_map (fun s => map Client.name (AppState.clients s)) in
  let shallow := Graph.shallowCopy (Graph.heap app) (Graph.state app) in
  let deep := Graph.deepCopy (Graph.heap app) (Graph.state app) in
  names (Graph.read (fst shallow) (snd shallow)) = Some ["Ana"]
  /\ names (Graph.read (fst (Graph.pushClient bia (fst shallow) (Graph.state app)))
                       (snd shallow))
     = Some ["Ana"; "Bia"]
  /\ names (Graph.read (fst deep) (snd deep)) = Some ["Ana"]
  /\ names (Graph.read (fst (Graph.pushClient bia (fst deep) (Graph.state app)))
                       (snd deep))
     = Some ["Ana"].
Proof. vm_compute. repeat split. Qed.

(** ** The id of a snapshot *)

(** C7, as the code has it. A snapshot is created whenever the name is not
    blank, whatever the state holds, and its id is the clock reading at its
    creation, after [snap_]. It differs from the id of every snapshot that
    was created at another reading, and a collection without a repeated id
    keeps that property when the reading is new. *)
Theorem snapshot_id_is_clock_reading
    (trim : string -> string) (nameInput : string) (t ts : Z) (app : Graph.App) :
  truthy (trim nameInput) = true ->
  let created := Graph.handleCreateSnapshot trim nameInput t ts app in
  exists sn,
    Graph.snapshots created = Graph.snapshots app ++ [sn]
    /\ Snapshot.id sn = snapshotId t
    /\ (forall old t0, In old (Graph.snapshots app) ->
          Snapshot.id old = snapshotId t0 -> t0 <> t ->
          Snapshot.id old <> Snapshot.id sn)
    /\ (NoDup (map Snapshot.id (Graph.snapshots app)) ->
        (forall old, In old (Graph.snapshots app) ->
           exists t0, Snapshot.id old = snapshotId t0 /\ t0 <> t) ->
        NoDup (map Snapshot.id (Graph.snapshots created))).
Proof.
  intros Hname. cbv zeta.
  destruct (graph_handleCreateSnapshot_created trim nameInput t ts app Hname)
    as (_ & _ & Hsnaps & _).
  cbv zeta in Hsnaps.
  eexists. split; [exact Hsnaps |]. split; [reflexivity |]. simpl. split.
  - intros old t0 _ Hold Hne Heq. rewrite Hold in Heq.
    now apply snapshotId_injective in Heq.
  - intros Hnodup Hclock. rewrite Hsnaps, map_app. simpl.
    apply NoDup_app; [exact Hnodup | repeat constructor; intros [] |].
    intros i Hin [<- | []].
    apply in_map_iff in Hin. destruct Hin as (old & Hid & Hin).
    destruct (Hclock old Hin) as (t0 & Hold & Hne).
    rewrite Hold in Hid. now apply snapshotId_injective in Hid.
Qed.

Lemma snapshot_id_is_clock_reading_witness :
  let created :=
    Graph.handleCreateSnapshot trimASCII "Maio" 1700000500000 1700000500000
                               Graph.infiniteApp in
  map Snapshot.id (Graph.snapshots Graph.infiniteApp) = ["snap_1700000000000"]
  /\ map Snapshot.id (Graph.snapshots created)
     = ["snap_1700000000000"; "snap_1700000500000"]
  /\ NoDup (map Snapshot.id (Graph.snapshots created)).
Proof.
  destruct (snapshot_id_is_clock_reading trimASCII "Maio" 1700000500000 1700000500000
              Graph.infiniteApp eq_refl)
    as (sn & Hsnaps & Hid & _ & Hnodup).
  split; [vm_compute; reflexivity |]. split; [vm_compute; reflexivity |].
  apply Hnodup.
  - vm_compute. repeat constructor. intros [].
  - intros old Hold. vm_compute in Hold. destruct Hold as [<- | []].
    exists 1700000000000%Z. split; [vm_compute; reflexivity |].
    intro E; discriminate E.
Defined.

(** C7, as stated, fails: two snapshots, [A] and [B], created within the
    same millisecond share their id. *)
Lemma snapshot_ids_collide_within_a_millisecond :
  let app1 :=
    Graph.handleCreateSnapshot trimASCII "A" 1700000000000 1700000000000
                               (Graph.appOf getInitialState) in
  let app2 :=
    Graph.handleCreateSnapshot trimASCII "B" 1700000000000 1700000000000 app1 in
  map (fun s => (Snapshot.name s, Snapshot.id s)) (Graph.snapshots app2)
  = [("A", "snap_1700000000000"); ("B", "snap_1700000000000")].
Proof. vm_compute. reflexivity. Qed.

(** ** Creating a snapshot *)

Lemma graph_saveSnapshots_other_key (k : string) (v : json) (st : Storage.t) :
  k <> "gestor_app_snapshots" ->
  Storage.getItem k (written "gestor_app_snapshots" v st) = Storage.getItem k st.
Proof. intros Hne. now apply written_other. Qed.

(** X19. A snapshot with a blank name is not created: the handler only
    shows an alert. With any other name a snapshot is created, whatever the
    numbers of the state: it carries the trimmed name, the second clock reading and
    the id of the first, and its data is a deep copy of the live state, made
    of new objects only, so that it has no object in common with the live
    state or with the data of an older snapshot. The copy is read as the
    state with its numbers as JSON writes and reads them, and as no
    [AppState] when a number is not finite; what [JSON.stringify] writes
    for it is what it writes for the state. Every object there was is left as
    it was: the live state, what the storage holds as the state, and the
    data of the older snapshots are as before. *)
Theorem handleCreateSnapshot_leaves_live_state (trim : string -> string)
    (nameInput : string) (t ts : Z) (app : Graph.App) (s : AppState.t) :
  Graph.allocated app ->
  Graph.read (Graph.heap app) (Graph.state app) = Some s ->
  let created := Graph.handleCreateSnapshot trim nameInput t ts app in
  (truthy (trim nameInput) = false ->
   created
   = Graph.showAlertModal "Por favor, insira um nome para o snapshot." "Aviso" app)
  /\ (truthy (trim nameInput) = true ->
      exists sn,
        Graph.snapshots created = Graph.snapshots app ++ [sn]
        /\ Snapshot.id sn = snapshotId t
        /\ Snapshot.name sn = trim nameInput
        /\ Snapshot.timestamp sn = ts
        /\ Forall (fun r => List.length (Graph.heap app) <= r
                            < List.length (Graph.heap created))
                  (Graph.reach (Graph.heap created) (Snapshot.data sn))
        /\ Graph.separate (Graph.reach (Graph.heap created) (Snapshot.data sn))
                          (Graph.reach (Graph.heap created) (Graph.state created))
        /\ Graph.read (Graph.heap created) (Snapshot.data sn) = deepCopy s
        /\ (finiteNumbers s = true ->
            Graph.read (Graph.heap created) (Snapshot.data sn)
            = Some (canonicalState s))
        /\ Graph.stateJSON (Graph.heap created) (Snapshot.data sn)
           = AppState.toJSON s
        /\ Graph.state created = Graph.state app
        /\ (forall r, r < List.length (Graph.heap app) ->
              nth_error (Graph.heap created) r = nth_error (Graph.heap app) r)
        /\ Graph.read (Graph.heap created) (Graph.state created) = Some s
        /\ (forall old, In old (Graph.snapshots app) ->
              Forall (fun r => r < List.length (Graph.heap app))
                     (Graph.reach (Graph.heap app) (Snapshot.data old)) ->
              Graph.read (Graph.heap created) (Snapshot.data old)
              = Graph.read (Graph.heap app) (Snapshot.data old)
              /\ Graph.separate
                   (Graph.reach (Graph.heap created) (Snapshot.data sn))
                   (Graph.reach (Graph.heap created) (Snapshot.data old)))
        /\ Storage.getItem "gestor_app_state" (Graph.localStorage created)
           = Storage.getItem "gestor_app_state" (Graph.localStorage app)
        /\ Graph.modal created
           = Graph.AlertModal "Snapshot criado com sucesso!" "Sucesso").
Proof.
  intros Ha Hread. cbv zeta. split; [apply graph_handleCreateSnapshot_blank |].
  intros Hname.
  destruct (graph_handleCreateSnapshot_created trim nameInput t ts app Hname)
    as (Hheap & Hstate & Hsnaps & Hmodal & _ & Hstorage).
  cbv zeta in Hheap, Hstate, Hsnaps, Hmodal, Hstorage.
  set (created := Graph.handleCreateSnapshot trim nameInput t ts app) in *.
  set (d := List.length (Graph.heap app)) in *.
  destruct (deepCopy_new (Graph.heap app) (Graph.state app)) as (Hsnd & _ & Hnew).
  rewrite <- Hheap in Hnew. fold d in Hnew, Hsnd.
  assert (Hold : forall x, x < d ->
            nth_error (Graph.heap created) x = nth_error (Graph.heap app) x).
  { intros x Hx. rewrite Hheap. now apply deepCopy_keeps. }
  assert (Hsame : forall r,
            Forall (fun x => x < d) (Graph.reach (Graph.heap app) r) ->
            Graph.reach (Graph.heap created) r = Graph.reach (Graph.heap app) r
            /\ Graph.read (Graph.heap created) r = Graph.read (Graph.heap app) r).
  { intros r Hr. rewrite Forall_forall in Hr.
    destruct (state_agree (Graph.heap app) (Graph.heap created) r) as (H1 & H2 & _).
    - intros x Hx. apply Hold. now apply Hr.
    - now split. }
  assert (Hapart : forall r,
            Forall (fun x => x < d) (Graph.reach (Graph.heap app) r) ->
            Graph.separate (Graph.reach (Graph.heap created) d)
                           (Graph.reach (Graph.heap created) r)).
  { intros r Hr x Hx Hin. rewrite (proj1 (Hsame r Hr)) in Hin.
    rewrite Forall_forall in Hr, Hnew.
    specialize (Hnew x Hx). specialize (Hr x Hin). lia. }
  assert (Hcopy : Graph.read (Graph.heap created) d = deepCopy s).
  { rewrite Hheap, <- Hsnd. now apply deepCopy_read. }
  eexists. split; [exact Hsnaps |]. cbn [Snapshot.id Snapshot.name Snapshot.timestamp
                                          Snapshot.data].
  split; [reflexivity |]. split; [reflexivity |]. split; [reflexivity |].
  split; [exact Hnew |].
  split; [rewrite Hstate; now apply Hapart |].
  split; [exact Hcopy |].
  split; [intros Hfin; rewrite Hcopy; now apply deepCopy_finite |].
  split; [rewrite Hheap, <- Hsnd; now apply deepCopy_stateJSON |].
  split; [exact Hstate |].
  split; [exact Hold |].
  split; [rewrite Hstate, (proj2 (Hsame _ Ha)); exact Hread |].
  split; [intros old _ Hallocated; split;
          [exact (proj2 (Hsame _ Hallocated)) | now apply Hapart] |].
  split; [rewrite Hstorage; apply graph_saveSnapshots_other_key;
          intro E; discriminate E |].
  exact Hmodal.
Qed.

Lemma handleCreateSnapshot_leaves_live_state_witness :
  let created :=
    Graph.handleCreateSnapshot trimASCII " Junho " 1700000900000 1700000900001
                               Graph.sampleApp in
  Graph.handleCreateSnapshot trimASCII "   " 1700000900000 1700000900001
                             Graph.sampleApp
  = Graph.showAlertModal "Por favor, insira um nome para o snapshot." "Aviso"
                         Graph.sampleApp
  /\
  exists sn,
    Graph.snapshots created = Graph.snapshots Graph.sampleApp ++ [sn]
    /\ Snapshot.id sn = snapshotId 1700000900000
    /\ Snapshot.name sn = "Junho"
    /\ Snapshot.timestamp sn = 1700000900001%Z
    /\ Graph.separate (Graph.reach (Graph.heap created) (Snapshot.data sn))
                      (Graph.reach (Graph.heap created) (Graph.state created))
    /\ Graph.read (Graph.heap created) (Snapshot.data sn)
       = Some (canonicalState sampleState)
    /\ Graph.state created = Graph.state Graph.sampleApp
    /\ Graph.read (Graph.heap created) (Graph.state created) = Some sampleState
    /\ Forall (fun old =>
                 Graph.read (Graph.heap created) (Snapshot.data old)
                 = Graph.read (Graph.heap Graph.sampleApp) (Snapshot.data old)
                 /\ Graph.separate
                      (Graph.reach (Graph.heap created) (Snapshot.data sn))
                      (Graph.reach (Graph.heap created) (Snapshot.data old)))
              (Graph.snapshots Graph.sampleApp)
    /\ Storage.getItem "gestor_app_state" (Graph.localStorage created)
       = Storage.getItem "gestor_app_state" (Graph.localStorage Graph.sampleApp).
Proof.
  assert (Hallocated : Graph.allocated Graph.sampleApp)
    by (apply forallb_Forall_lt; vm_compute; reflexivity).
  assert (Hread : Graph.read (Graph.heap Graph.sampleApp) (Graph.state Graph.sampleApp)
                  = Some sampleState) by (vm_compute; reflexivity).
  split.
  - apply (handleCreateSnapshot_leaves_live_state trimASCII "   "
             1700000900000 1700000900001 Graph.sampleApp sampleState
             Hallocated Hread).
    reflexivity.
  - destruct (handleCreateSnapshot_leaves_live_state trimASCII " Junho "
                1700000900000 1700000900001 Graph.sampleApp sampleState
                Hallocated Hread)
      as (_ & Hcreated).
    destruct (Hcreated eq_refl)
      as (sn & Hsnaps & Hid & Hname & Hts & _ & Hsep & _ & Hcopy & _ & Hstate & _
          & Hlive & Holder & Hstorage & _).
    exists sn. split; [exact Hsnaps |]. split; [exact Hid |].
    split; [exact Hname |]. split; [exact Hts |]. split; [exact Hsep |].
    split; [now apply Hcopy |]. split; [exact Hstate |]. split; [exact Hlive |].
    split; [| exact Hstorage].
    apply Forall_forall. intros old Hold. apply Holder; [exact Hold |].
    vm_compute in Hold. destruct Hold as [<- | []].
    apply forallb_Forall_lt. vm_compute. reflexivity.
Defined.
